(** * couchdbkit.schema: typed properties and synchronised containers

    A shallow embedding of [couchdbkit/schema/properties.py] and of the
    document engine of [couchdbkit/schema/base.py], with the properties of
    the typed-property layer stated over it.

    Layout:
    - [PyStr], [Re]: the string operations and the regular expressions
      ([re_date], [re_time], [re_datetime], [re_decimal]) the module uses;
    - [Cal], [Iso]: dates, times, ISO formatting and [strptime];
    - [Dec]: [decimal.Decimal] with its string form;
    - [Py]: scalar and tree-shaped values, the builtins [unicode], [int],
      [float], [bool], and [value_to_json] / [value_to_python];
    - [Mem]: the object store holding canonical nodes and [LazyDict] /
      [LazyList] wrappers, with exceptions;
    - [Prop]: the property descriptors;
    - [Doc]: [DocumentSchema] and [DocumentBase]. *)

From Stdlib Require Import ZArith String Ascii List Bool Lia.
From Stdlib Require Import DecimalString DecimalN DecimalZ DecimalPos.
From Stdlib Require Import SpecFloat.
From stdpp Require Import base option list.

Import ListNotations.
Set Warnings "-register-all".
Local Open Scope string_scope.
Local Open Scope Z_scope.

(** ** Strings *)

Module PyStr.

Definition is_digit (c : ascii) : bool :=
  let n := Z.of_N (N_of_ascii c) in (48 <=? n) && (n <=? 57).

Definition digit_val (c : ascii) : Z := Z.of_N (N_of_ascii c) - 48.

Definition digit_chr (d : Z) : ascii := ascii_of_N (Z.to_N (48 + d)).

Definition is_ascii (c : ascii) : bool := (N_of_ascii c <? 128)%N.

Fixpoint all_chars (p : ascii -> bool) (s : string) : bool :=
  match s with
  | EmptyString => true
  | String c s' => p c && all_chars p s'
  end.

(** [s.split(c, 1)[0]]: the part of [s] before the first [c]. *)
Fixpoint before_first (c : ascii) (s : string) : string :=
  match s with
  | EmptyString => EmptyString
  | String a s' => if Ascii.eqb a c then EmptyString
                   else String a (before_first c s')
  end.

(** [s] without its trailing run of characters satisfying [p]. *)
Fixpoint rstrip_p (p : ascii -> bool) (s : string) : string :=
  match s with
  | EmptyString => EmptyString
  | String a s' =>
      match rstrip_p p s' with
      | EmptyString => if p a then EmptyString else String a EmptyString
      | r => String a r
      end
  end.

Fixpoint lstrip_p (p : ascii -> bool) (s : string) : string :=
  match s with
  | String a s' => if p a then lstrip_p p s' else s
  | EmptyString => EmptyString
  end.

(** [s.rstrip(c)] *)
Definition rstrip (c : ascii) (s : string) : string :=
  rstrip_p (fun a => Ascii.eqb a c) s.

Definition is_space (c : ascii) : bool :=
  let n := N_of_ascii c in ((9 <=? n) && (n <=? 13) || (n =? 32))%N.

(** [s.strip()] *)
Definition strip (s : string) : string :=
  lstrip_p is_space (rstrip_p is_space s).

Definition lower_chr (c : ascii) : ascii :=
  let n := N_of_ascii c in
  if ((65 <=? n) && (n <=? 90))%N then ascii_of_N (n + 32) else c.

Fixpoint lower (s : string) : string :=
  match s with
  | EmptyString => EmptyString
  | String a s' => String (lower_chr a) (lower s')
  end.

(** [s[:n]] and [s[n:]] for [0 <= n]. *)
Fixpoint take (n : nat) (s : string) : string :=
  match n, s with
  | S n', String a s' => String a (take n' s')
  | _, _ => EmptyString
  end.

Fixpoint drop (n : nat) (s : string) : string :=
  match n, s with
  | S n', String a s' => drop n' s'
  | _, _ => s
  end.

Definition startswith (c : ascii) (s : string) : bool :=
  match s with
  | String a _ => Ascii.eqb a c
  | EmptyString => false
  end.

(** [n] copies of [c]. *)
Fixpoint replicate_chr (n : nat) (c : ascii) : string :=
  match n with
  | O => EmptyString
  | S n' => String c (replicate_chr n' c)
  end.

(** The longest prefix of digits, and what follows it. *)
Fixpoint span_digits (s : string) : string * string :=
  match s with
  | String a s' =>
      if is_digit a
      then let '(d, r) := span_digits s' in (String a d, r)
      else (EmptyString, s)
  | EmptyString => (EmptyString, EmptyString)
  end.

(** Value of a string of decimal digits, most significant first. *)
Fixpoint digits_val_acc (acc : Z) (s : string) : Z :=
  match s with
  | EmptyString => acc
  | String a s' => digits_val_acc (10 * acc + digit_val a) s'
  end.

Definition digits_val (s : string) : Z := digits_val_acc 0 s.

(** The decimal digits of a natural number, and the number a non-empty
    string of digits denotes ([None] on any other text). *)
Definition digits_of_N (n : N) : string :=
  NilZero.string_of_uint (N.to_uint n).

Definition N_of_digits (s : string) : option N :=
  option_map N.of_uint (NilZero.uint_of_string s).

(** [str(z)] of an integer, and [int(s)] of its text ("-"? digits). *)
Definition str_of_Z (z : Z) : string :=
  (if z <? 0 then "-" else "") ++ digits_of_N (Z.abs_N z).

End PyStr.

(** ** Regular expressions

    The four patterns of [properties.py] only use character classes,
    sequencing, alternation, [?], [\d+] and bounded repetition, so a
    continuation-passing matcher that is structural in the expression decides
    them.  [re.match] on a pattern wrapped in [^...$] succeeds exactly when
    some way of matching the body ends where [$] holds. *)

Module Re.
Import PyStr.

Inductive regex : Type :=
| Eps
| Chr (p : ascii -> bool)
| Seq (r1 r2 : regex)
| Alt (r1 r2 : regex)
| Opt (r : regex)
| Plus (p : ascii -> bool).

Fixpoint plus_from (p : ascii -> bool) (k : string -> bool) (s : string)
  : bool :=
  match s with
  | EmptyString => false
  | String a s' => p a && (plus_from p k s' || k s')
  end.

Fixpoint run (r : regex) (s : string) (k : string -> bool) : bool :=
  match r with
  | Eps => k s
  | Chr p => match s with
             | String a s' => p a && k s'
             | EmptyString => false
             end
  | Seq r1 r2 => run r1 s (fun s' => run r2 s' k)
  | Alt r1 r2 => run r1 s k || run r2 s k
  | Opt r1 => run r1 s k || k s
  | Plus p => plus_from p k s
  end.

(** [$] without [re.MULTILINE]: the end of the string, or just before a
    newline that ends the string. *)
Definition at_end (s : string) : bool :=
  match s with
  | EmptyString => true
  | String a EmptyString => Ascii.eqb a "010"%char
  | _ => false
  end.

(** [re.compile('^' + r + '$').match(s) is not None]. *)
Definition matches (r : regex) (s : string) : bool := run r s at_end.

(** Character classes. *)
Definition d : ascii -> bool := is_digit.                      (* \d *)
Definition D : ascii -> bool := fun c => negb (is_digit c).    (* \D *)
Definition dot : ascii -> bool :=                              (* .  *)
  fun c => negb (Ascii.eqb c "010"%char).
Definition between (lo hi : ascii) : ascii -> bool :=
  fun c => (N_of_ascii lo <=? N_of_ascii c)%N
           && (N_of_ascii c <=? N_of_ascii hi)%N.
Definition lit (a : ascii) : ascii -> bool := fun c => Ascii.eqb c a.
Definition either (a b : ascii) : ascii -> bool :=
  fun c => Ascii.eqb c a || Ascii.eqb c b.

Fixpoint cat (rs : list regex) : regex :=
  match rs with
  | [] => Eps
  | [r] => r
  | r :: rs' => Seq r (cat rs')
  end.

Fixpoint rep (n : nat) (r : regex) : regex :=
  match n with
  | O => Eps
  | S O => r
  | S n' => Seq r (rep n' r)
  end.

(** (0[1-9]|1[0-2]) *)
Definition g_month : regex :=
  Alt (Seq (Chr (lit "0")) (Chr (between "1" "9")))
      (Seq (Chr (lit "1")) (Chr (between "0" "2"))).

(** ([12]\d|0[1-9]|3[01]) *)
Definition g_day : regex :=
  Alt (Seq (Chr (either "1" "2")) (Chr d))
      (Alt (Seq (Chr (lit "0")) (Chr (between "1" "9")))
           (Seq (Chr (lit "3")) (Chr (either "0" "1")))).

(** ([01]\d|2[0-3]) *)
Definition g_hour : regex :=
  Alt (Seq (Chr (either "0" "1")) (Chr d))
      (Seq (Chr (lit "2")) (Chr (between "0" "3"))).

(** ([0-5]\d) *)
Definition g_sixty : regex := Seq (Chr (between "0" "5")) (Chr d).

(** '^(\d{4})\D?(0[1-9]|1[0-2])\D?([12]\d|0[1-9]|3[01])$' *)
Definition re_date : regex :=
  cat [rep 4 (Chr d); Opt (Chr D); g_month; Opt (Chr D); g_day].

(** '^([01]\d|2[0-3])\D?([0-5]\d)\D?([0-5]\d)?\D?(\d{3})?$' *)
Definition re_time : regex :=
  cat [g_hour; Opt (Chr D); g_sixty; Opt (Chr D); Opt g_sixty;
       Opt (Chr D); Opt (rep 3 (Chr d))].

(** ([zZ]|([\+-])([01]\d|2[0-3])\D?([0-5]\d)?)? *)
Definition g_zone : regex :=
  Opt (Alt (Chr (either "z" "Z"))
           (cat [Chr (either "+" "-"); g_hour; Opt (Chr D); Opt g_sixty])).

(** '^(\d{4})\D?(0[1-9]|1[0-2])\D?([12]\d|0[1-9]|3[01])(\D?([01]\d|2[0-3])\D?([0-5]\d)\D?([0-5]\d)?\D?(\d{3})?([zZ]|([\+-])([01]\d|2[0-3])\D?([0-5]\d)?)?)?$' *)
Definition re_datetime : regex :=
  cat [rep 4 (Chr d); Opt (Chr D); g_month; Opt (Chr D); g_day;
       Opt (cat [Opt (Chr D); g_hour; Opt (Chr D); g_sixty; Opt (Chr D);
                 Opt g_sixty; Opt (Chr D); Opt (rep 3 (Chr d)); g_zone])].

(** '^(\d+).(\d+)$' (the dot is not escaped in the source) *)
Definition re_decimal : regex := cat [Plus d; Chr dot; Plus d].

End Re.

(** ** Calendar arithmetic

    [datetime.date], [datetime.time] and naive [datetime.datetime] values,
    the proleptic Gregorian ordinal of [datetime] ([date.toordinal] and its
    inverse), [calendar.timegm] and [datetime.utcfromtimestamp]. *)

Module Cal.

Record date := mkdate { year : Z; month : Z; day : Z }.
Record time :=
  mktime { hour : Z; minute : Z; second : Z; microsecond : Z }.
Record datetime := mkdatetime { dt_date : date; dt_time : time }.

Definition is_leap (y : Z) : bool :=
  (y mod 4 =? 0) && (negb (y mod 100 =? 0) || (y mod 400 =? 0)).

Definition days_in_month_tbl (m : Z) : Z :=
  match m with
  | 1 => 31 | 2 => 28 | 3 => 31 | 4 => 30 | 5 => 31 | 6 => 30
  | 7 => 31 | 8 => 31 | 9 => 30 | 10 => 31 | 11 => 30 | 12 => 31
  | _ => -1
  end.

Definition days_before_month_tbl (m : Z) : Z :=
  match m with
  | 1 => 0 | 2 => 31 | 3 => 59 | 4 => 90 | 5 => 120 | 6 => 151
  | 7 => 181 | 8 => 212 | 9 => 243 | 10 => 273 | 11 => 304 | 12 => 334
  | _ => -1
  end.

Definition b2z (b : bool) : Z := if b then 1 else 0.

Definition days_in_month_l (leap : bool) (m : Z) : Z :=
  days_in_month_tbl m + b2z ((m =? 2) && leap).

Definition days_before_month_l (leap : bool) (m : Z) : Z :=
  days_before_month_tbl m + b2z ((2 <? m) && leap).

Definition days_in_month (y m : Z) : Z := days_in_month_l (is_leap y) m.
Definition days_before_month (y m : Z) : Z :=
  days_before_month_l (is_leap y) m.

Definition days_before_year (y : Z) : Z :=
  let y1 := y - 1 in y1 * 365 + y1 / 4 - y1 / 100 + y1 / 400.

Definition ymd2ord (y m d : Z) : Z :=
  days_before_year y + days_before_month y m + d.

(** Month and day of the [n]-th day (from 0) of a year. *)
Definition month_day_of (leap : bool) (n : Z) : Z * Z :=
  let m := Z.shiftr (n + 50) 5 in
  let preceding := days_before_month_l leap m in
  if n <? preceding
  then (m - 1, n - (preceding - days_in_month_l leap (m - 1)) + 1)
  else (m, n - preceding + 1).

Definition ord2ymd (n : Z) : Z * Z * Z :=
  let n := n - 1 in
  let n400 := n / 146097 in let n := n mod 146097 in
  let n100 := n / 36524 in let n := n mod 36524 in
  let n4 := n / 1461 in let n := n mod 1461 in
  let n1 := n / 365 in let n := n mod 365 in
  let y := n400 * 400 + 1 + n100 * 100 + n4 * 4 + n1 in
  if (n1 =? 4) || (n100 =? 4) then (y - 1, 12, 31)
  else
    let leap := (n1 =? 3) && (negb (n4 =? 24) || (n100 =? 3)) in
    let '(m, d) := month_day_of leap n in (y, m, d).

Definition date_ok (d : date) : bool :=
  (1 <=? year d) && (year d <=? 9999)
  && (1 <=? month d) && (month d <=? 12)
  && (1 <=? day d) && (day d <=? days_in_month (year d) (month d)).

Definition time_ok (t : time) : bool :=
  (0 <=? hour t) && (hour t <? 24)
  && (0 <=? minute t) && (minute t <? 60)
  && (0 <=? second t) && (second t <? 60)
  && (0 <=? microsecond t) && (microsecond t <? 1000000).

Definition datetime_ok (dt : datetime) : bool :=
  date_ok (dt_date dt) && time_ok (dt_time dt).

Definition EPOCH_ORD : Z := Eval cbv in ymd2ord 1970 1 1.

(** [calendar.timegm]: seconds since 1970 of a broken-down UTC time. *)
Definition timegm (y m d hh mm ss : Z) : Z :=
  let days := ymd2ord y m 1 - EPOCH_ORD + d - 1 in
  let hours := days * 24 + hh in
  let minutes := hours * 60 + mm in
  minutes * 60 + ss.

(** [datetime.utcfromtimestamp] on a whole number of seconds; [None] when
    the year falls outside 1..9999 (a [ValueError]). *)
Definition utcfromtimestamp (t : Z) : option datetime :=
  let days := t / 86400 in
  let rem := t mod 86400 in
  let '(y, m, d) := ord2ymd (days + EPOCH_ORD) in
  if (1 <=? y) && (y <=? 9999)
  then Some (mkdatetime (mkdate y m d)
               (mktime (rem / 3600) (rem mod 3600 / 60) (rem mod 60) 0))
  else None.

Definition replace_microsecond0 (t : time) : time :=
  mktime (hour t) (minute t) (second t) 0.

End Cal.

(** ** ISO formatting and [time.strptime]

    [isoformat] of the three [datetime] types, and [time.strptime] for the
    three formats the module passes to it.  [strptime] compiles a format into
    a regular expression whose directives are alternations, matches it at the
    start of the text and rejects the text when the match leaves characters
    over; parsers are therefore lists of successes in the order the
    alternatives are tried, and [strptime] looks at the first one only. *)

Module Iso.
Import PyStr Cal.

(** "%02d", "%04d" and "%06d" of a field of a date or time (the fields of
    a [datetime] object are in range, so the text has exactly that many
    digits). *)
Definition fmt2 (n : Z) : string :=
  String (digit_chr (n / 10)) (String (digit_chr (n mod 10)) "").

Definition fmt4 (n : Z) : string :=
  String (digit_chr (n / 1000)) (String (digit_chr (n / 100 mod 10))
    (fmt2 (n mod 100))).

Definition fmt6 (n : Z) : string :=
  fmt2 (n / 10000) ++ fmt4 (n mod 10000).

Definition date_isoformat (d : date) : string :=
  fmt4 (year d) ++ "-" ++ fmt2 (month d) ++ "-" ++ fmt2 (day d).

Definition time_isoformat (t : time) : string :=
  fmt2 (hour t) ++ ":" ++ fmt2 (minute t) ++ ":" ++ fmt2 (second t)
  ++ (if microsecond t =? 0 then "" else "." ++ fmt6 (microsecond t)).

Definition datetime_isoformat (sep : ascii) (dt : datetime) : string :=
  date_isoformat (dt_date dt) ++ String sep (time_isoformat (dt_time dt)).

Definition parser (A : Type) : Type := string -> list (A * string).

Definition pbind {A B} (p : parser A) (f : A -> parser B) : parser B :=
  fun s => concat (map (fun '(a, r) => f a r) (p s)).

Definition pret {A} (a : A) : parser A := fun s => [(a, s)].

Definition palt {A} (ps : list (parser A)) : parser A :=
  fun s => concat (map (fun p => p s) ps).

Definition one (p1 : ascii -> bool) : parser Z :=
  fun s => match s with
           | String a r => if p1 a then [(digit_val a, r)] else []
           | _ => []
           end.

Definition two (p1 p2 : ascii -> bool) : parser Z :=
  fun s => match s with
           | String a (String b r) =>
               if p1 a && p2 b then [(10 * digit_val a + digit_val b, r)]
               else []
           | _ => []
           end.

(** A space followed by a digit, as in the last alternative of [%d]. *)
Definition space_then (p1 : ascii -> bool) : parser Z :=
  fun s => match s with
           | String a (String b r) =>
               if Ascii.eqb a " " && p1 b then [(digit_val b, r)] else []
           | _ => []
           end.

Definition chr (p1 : ascii -> bool) : parser unit :=
  fun s => match s with
           | String a r => if p1 a then [(tt, r)] else []
           | _ => []
           end.

(** %Y: \d\d\d\d *)
Definition d_Y : parser Z :=
  pbind (two is_digit is_digit) (fun hi =>
  pbind (two is_digit is_digit) (fun lo => pret (100 * hi + lo))).

(** %m: 1[0-2]|0[1-9]|[1-9] *)
Definition d_m : parser Z :=
  palt [two (Re.lit "1") (Re.between "0" "2");
        two (Re.lit "0") (Re.between "1" "9");
        one (Re.between "1" "9")].

(** %d: 3[0-1]|[1-2]\d|0[1-9]|[1-9]| [1-9] *)
Definition d_d : parser Z :=
  palt [two (Re.lit "3") (Re.between "0" "1");
        two (Re.between "1" "2") is_digit;
        two (Re.lit "0") (Re.between "1" "9");
        one (Re.between "1" "9");
        space_then (Re.between "1" "9")].

(** %H: 2[0-3]|[0-1]\d|\d *)
Definition d_H : parser Z :=
  palt [two (Re.lit "2") (Re.between "0" "3");
        two (Re.between "0" "1") is_digit;
        one is_digit].

(** %M: [0-5]\d|\d *)
Definition d_M : parser Z :=
  palt [two (Re.between "0" "5") is_digit; one is_digit].

(** %S: 6[0-1]|[0-5]\d|\d *)
Definition d_S : parser Z :=
  palt [two (Re.lit "6") (Re.between "0" "1");
        two (Re.between "0" "5") is_digit;
        one is_digit].

Definition p_ymd : parser (Z * Z * Z) :=
  pbind d_Y (fun y => pbind (chr (Re.lit "-")) (fun _ =>
  pbind d_m (fun m => pbind (chr (Re.lit "-")) (fun _ =>
  pbind d_d (fun d => pret (y, m, d)))))).

Definition p_hms : parser (Z * Z * Z) :=
  pbind d_H (fun hh => pbind (chr (Re.lit ":")) (fun _ =>
  pbind d_M (fun mm => pbind (chr (Re.lit ":")) (fun _ =>
  pbind d_S (fun ss => pret (hh, mm, ss)))))).

(** The match is case-insensitive, so the literal [T] also accepts [t]. *)
Definition p_ymd_T_hms : parser ((Z * Z * Z) * (Z * Z * Z)) :=
  pbind p_ymd (fun d => pbind (chr (Re.either "T" "t")) (fun _ =>
  pbind p_hms (fun t => pret (d, t)))).

(** The first match, provided it consumes the whole text. *)
Definition whole {A} (p : parser A) (s : string) : option A :=
  match p s with
  | (a, EmptyString) :: _ => Some a
  | _ => None
  end.

(** [time.strptime(s, '%Y-%m-%d')[:3]]; [None] stands for [ValueError]
    (no match, text left over, or a day the month does not have). *)
Definition strptime_ymd (s : string) : option (Z * Z * Z) :=
  match whole p_ymd s with
  | Some (y, m, d) =>
      if date_ok (mkdate y m d) then Some (y, m, d) else None
  | None => None
  end.

(** [time.strptime(s, '%H:%M:%S')[3:6]]. *)
Definition strptime_hms (s : string) : option (Z * Z * Z) :=
  whole p_hms s.

(** [time.strptime(s, '%Y-%m-%dT%H:%M:%S')[:6]]. *)
Definition strptime_ymd_T_hms (s : string)
  : option ((Z * Z * Z) * (Z * Z * Z)) :=
  match whole p_ymd_T_hms s with
  | Some ((y, m, d), t) =>
      if date_ok (mkdate y m d) then Some ((y, m, d), t) else None
  | None => None
  end.

End Iso.

(** ** [decimal.Decimal]

    A decimal is a sign, a coefficient and an exponent, or one of the special
    values.  [to_str] is [Decimal.__str__] (the scientific string of the
    decimal arithmetic specification, with the default context) and [of_str]
    is the constructor applied to a string. *)

Module Dec.
Import PyStr.

Inductive decimal : Type :=
| Finite (neg : bool) (coeff : N) (exp : Z)
| Inf (neg : bool)
| NaN (neg : bool) (signaling : bool).

Definition sign_str (neg : bool) : string := if neg then "-" else "".

(** "%+d" *)
Definition fmt_exp (e : Z) : string :=
  (if e <? 0 then "-" else "+") ++ digits_of_N (Z.abs_N e).

Definition zeros (n : Z) : string := replicate_chr (Z.to_nat n) "0".

Definition to_str (x : decimal) : string :=
  match x with
  | Inf neg => sign_str neg ++ "Infinity"
  | NaN neg sig => sign_str neg ++ (if sig then "sNaN" else "NaN")
  | Finite neg c e =>
      let int := digits_of_N c in
      let len := Z.of_nat (String.length int) in
      let leftdigits := e + len in
      let dotplace :=
        if (e <=? 0) && (-6 <? leftdigits) then leftdigits else 1 in
      let '(intpart, fracpart) :=
        if dotplace <=? 0
        then ("0", "." ++ zeros (- dotplace) ++ int)
        else if len <=? dotplace
             then (int ++ zeros (dotplace - len), "")
             else (take (Z.to_nat dotplace) int,
                   "." ++ drop (Z.to_nat dotplace) int) in
      let exp :=
        if leftdigits =? dotplace then ""
        else "E" ++ fmt_exp (leftdigits - dotplace) in
      sign_str neg ++ intpart ++ fracpart ++ exp
  end.

Definition take_sign (s : string) : bool * string :=
  match s with
  | String "-" r => (true, r)
  | String "+" r => (false, r)
  | _ => (false, s)
  end.

(** What may follow the digits: nothing, or E[-+]?\d+ *)
Definition parse_exp (s : string) : option Z :=
  match s with
  | EmptyString => Some 0
  | String a r =>
      if Ascii.eqb (lower_chr a) "e"
      then let '(neg, ds) := take_sign r in
           match N_of_digits ds with
           | Some n => Some (if neg then - Z.of_N n else Z.of_N n)
           | None => None
           end
      else None
  end.

(** A number with at least one digit: digits, then optionally a point and
    digits, then optionally an exponent, up to the end of the text. *)
Definition parse_finite (neg : bool) (s : string) : option decimal :=
  let '(ip, r) := span_digits s in
  let '(fp, r') :=
    match r with
    | String "." r1 => span_digits r1
    | _ => (EmptyString, r)
    end in
  match parse_exp r', N_of_digits (ip ++ fp) with
  | Some e, Some c =>
      Some (Finite neg c (e - Z.of_nat (String.length fp)))
  | _, _ => None
  end.

(** "Inf", "Infinity", or "NaN" / "sNaN" with optional diagnostic digits
    (accepted and not kept), in any letter case. *)
Definition parse_special (neg : bool) (s : string) : option decimal :=
  let l := lower s in
  if String.eqb l "inf" || String.eqb l "infinity" then Some (Inf neg)
  else
    let '(sig, r) :=
      match l with
      | String "s" r => (true, r)
      | _ => (false, l)
      end in
    if String.eqb (take 3 r) "nan" && all_chars is_digit (drop 3 r)
    then Some (NaN neg sig) else None.

(** [Decimal(s)] for a string; [None] stands for [InvalidOperation]. *)
Definition of_str (s : string) : option decimal :=
  let '(neg, r) := take_sign (strip s) in
  match parse_finite neg r with
  | Some x => Some x
  | None => parse_special neg r
  end.

Definition pow10 (n : Z) : Z := 10 ^ n.

(** [==] on decimals: numeric, with every comparison to a NaN false. *)
Definition eqb (x y : decimal) : bool :=
  match x, y with
  | Finite n1 c1 e1, Finite n2 c2 e2 =>
      let m := Z.min e1 e2 in
      let v1 := Z.of_N c1 * pow10 (e1 - m) in
      let v2 := Z.of_N c2 * pow10 (e2 - m) in
      ((if n1 then - v1 else v1) =? (if n2 then - v2 else v2))
  | Inf n1, Inf n2 => Bool.eqb n1 n2
  | _, _ => false
  end.

Definition is_nan (x : decimal) : bool :=
  match x with NaN _ _ => true | _ => false end.

End Dec.

(** ** Values

    Scalars are immutable; [pyval] adds tree-shaped lists and dicts, the form
    in which containers are passed in by a caller and in which a document is
    compared.  The order of a dict's entries stands for the interpreter's
    iteration order; comparisons ignore it. *)

Module Py.
Import PyStr Cal Iso Dec.

Inductive bad_value : Type :=
| Required          (* 'Property %s is required.' *)
| NotAChoice        (* 'Property %s is %r; must be one of %r' *)
| WrongType         (* 'Property %s must be ... instance' *)
| BadItems.         (* 'Items must all be in ...' *)

Inductive exn : Type :=
| KeyError | IndexError | TypeError | ValueError | AttributeError
| UnicodeDecodeError | InvalidOperation | OverflowError | RuntimeError
| ReservedWordError
| BadValueError (why : bad_value).

Inductive scalar : Type :=
| SNone
| SBool (b : bool)
| SInt (z : Z)
| SFloat (f : spec_float)
| SStr (s : string)                (* str *)
| SUni (s : string)                (* unicode *)
| SDecimal (x : decimal)
| SDate (x : date)
| STime (x : time)
| SDateTime (x : datetime).

Inductive pykey : Type := KStr (s : string) | KInt (z : Z).

Inductive pyval : Type :=
| PS (s : scalar)
| PList (l : list pyval)
| PDict (d : list (pykey * pyval)).

(** [type(value)] and the members of [ALLOWED_PROPERTY_TYPES]. *)
Inductive pytype : Type :=
| TNone | TBool | TInt | TLong | TFloat | TBasestring | TStr | TUnicode
| TDecimal | TDate | TTime | TDateTime | TList | TDict.

Definition pytype_eqb (a b : pytype) : bool :=
  match a, b with
  | TNone, TNone | TBool, TBool | TInt, TInt | TLong, TLong
  | TFloat, TFloat | TBasestring, TBasestring | TStr, TStr
  | TUnicode, TUnicode | TDecimal, TDecimal | TDate, TDate
  | TTime, TTime | TDateTime, TDateTime | TList, TList
  | TDict, TDict => true
  | _, _ => false
  end.

Definition type_of_scalar (s : scalar) : pytype :=
  match s with
  | SNone => TNone | SBool _ => TBool | SInt _ => TInt
  | SFloat _ => TFloat | SStr _ => TStr | SUni _ => TUnicode
  | SDecimal _ => TDecimal | SDate _ => TDate | STime _ => TTime
  | SDateTime _ => TDateTime
  end.

Definition type_of (v : pyval) : pytype :=
  match v with
  | PS s => type_of_scalar s
  | PList _ => TList
  | PDict _ => TDict
  end.

Definition ALLOWED_PROPERTY_TYPES : list pytype :=
  [TBasestring; TStr; TUnicode; TBool; TInt; TLong; TFloat; TDateTime;
   TDate; TTime; TDecimal; TDict; TList; TNone].

Definition type_in (t : pytype) (ts : list pytype) : bool :=
  existsb (pytype_eqb t) ts.

(** [isinstance(value, basestring)] *)
Definition is_basestring (s : scalar) : option string :=
  match s with
  | SStr x | SUni x => Some x
  | _ => None
  end.

Definition key_eqb (a b : pykey) : bool :=
  match a, b with
  | KStr x, KStr y => String.eqb x y
  | KInt x, KInt y => x =? y
  | _, _ => false
  end.

(** *** Dicts as association lists *)

Section Assoc.
Context {V : Type}.

Fixpoint dict_get (k : pykey) (d : list (pykey * V)) : option V :=
  match d with
  | [] => None
  | (k', v) :: d' => if key_eqb k k' then Some v else dict_get k d'
  end.

(** [d[k] = v]: replaces the entry of [k], or adds one. *)
Fixpoint dict_set (k : pykey) (v : V) (d : list (pykey * V))
  : list (pykey * V) :=
  match d with
  | [] => [(k, v)]
  | (k', v') :: d' =>
      if key_eqb k k' then (k, v) :: d' else (k', v') :: dict_set k v d'
  end.

Fixpoint dict_del (k : pykey) (d : list (pykey * V)) : list (pykey * V) :=
  match d with
  | [] => []
  | (k', v') :: d' =>
      if key_eqb k k' then d' else (k', v') :: dict_del k d'
  end.

Definition dict_has (k : pykey) (d : list (pykey * V)) : bool :=
  match dict_get k d with Some _ => true | None => false end.
End Assoc.

(** *** The numeric reading of a float *)

(** [int(f)]: truncation toward zero of a finite float. *)
Definition trunc_float (f : spec_float) : option Z :=
  match f with
  | S754_zero _ => Some 0
  | S754_finite s m e =>
      let a := match e with
               | Z.neg p => Z.pos m / 2 ^ Z.pos p
               | _ => Z.pos m * 2 ^ e
               end in
      Some (if s then - a else a)
  | _ => None
  end.

(** Is the float the integer [z]? *)
Definition float_is_Z (f : spec_float) (z : Z) : bool :=
  match f with
  | S754_zero _ => z =? 0
  | S754_finite s m e =>
      let sz := if s then - z else z in
      match e with
      | Z.neg p => Z.pos m =? sz * 2 ^ Z.pos p
      | _ => Z.pos m * 2 ^ e =? sz
      end
  | _ => false
  end.

Definition b2z (b : bool) : Z := if b then 1 else 0.

(** *** Equality and truth *)

(** [a == b] on scalars.  [bool] and [int] compare as numbers, with floats
    and decimals too; [str] and [unicode] compare as text when the [str]
    is ASCII; a date never equals a datetime. *)
Definition scalar_eqb (a b : scalar) : bool :=
  let num (s : scalar) : option Z :=
    match s with
    | SBool x => Some (b2z x)
    | SInt z => Some z
    | _ => None
    end in
  match a, b with
  | SNone, SNone => true
  | (SBool _ | SInt _), (SBool _ | SInt _) =>
      match num a, num b with
      | Some x, Some y => x =? y
      | _, _ => false
      end
  | (SBool _ | SInt _), SFloat f | SFloat f, (SBool _ | SInt _) =>
      match num a, num b with
      | Some x, _ | _, Some x => float_is_Z f x
      | _, _ => false
      end
  | SFloat f, SFloat g => SFeqb f g
  | (SBool _ | SInt _), SDecimal x | SDecimal x, (SBool _ | SInt _) =>
      match num a, num b with
      | Some z, _ | _, Some z =>
          Dec.eqb x (Finite (z <? 0) (Z.abs_N z) 0)
      | _, _ => false
      end
  | SDecimal x, SDecimal y => Dec.eqb x y
  | SStr x, SStr y | SUni x, SUni y => String.eqb x y
  | SStr x, SUni y | SUni y, SStr x =>
      all_chars is_ascii x && String.eqb x y
  | SDate x, SDate y =>
      (year x =? year y) && (month x =? month y) && (day x =? day y)
  | STime x, STime y =>
      (hour x =? hour y) && (minute x =? minute y)
      && (second x =? second y) && (microsecond x =? microsecond y)
  | SDateTime x, SDateTime y =>
      let dx := dt_date x in let dy := dt_date y in
      let tx := dt_time x in let ty := dt_time y in
      (year dx =? year dy) && (month dx =? month dy) && (day dx =? day dy)
      && (hour tx =? hour ty) && (minute tx =? minute ty)
      && (second tx =? second ty) && (microsecond tx =? microsecond ty)
  | _, _ => false
  end.

(** [bool(s)]; a [time] at midnight is false, as in Python 2. *)
Definition scalar_truth (s : scalar) : bool :=
  match s with
  | SNone => false
  | SBool b => b
  | SInt z => negb (z =? 0)
  | SFloat f => match f with S754_zero _ => false | _ => true end
  | SStr x | SUni x => negb (String.eqb x "")
  | SDecimal x => match x with Finite _ c _ => negb (c =? 0)%N | _ => true end
  | SDate _ | SDateTime _ => true
  | STime t =>
      negb ((hour t =? 0) && (minute t =? 0) && (second t =? 0)
            && (microsecond t =? 0))
  end.

Definition truth (v : pyval) : bool :=
  match v with
  | PS s => scalar_truth s
  | PList l => match l with [] => false | _ => true end
  | PDict d => match d with [] => false | _ => true end
  end.

(** [a == b] on trees; dict entries are compared by key. *)
Fixpoint py_eqb (a b : pyval) {struct a} : bool :=
  match a, b with
  | PS x, PS y => scalar_eqb x y
  | PList l, PList m =>
      (fix go (l : list pyval) (m : list pyval) : bool :=
         match l, m with
         | [], [] => true
         | x :: l', y :: m' => py_eqb x y && go l' m'
         | _, _ => false
         end) l m
  | PDict d, PDict e =>
      (length d =? length e)%nat
      && (fix go (d : list (pykey * pyval)) : bool :=
            match d with
            | [] => true
            | (k, x) :: d' =>
                match dict_get k e with
                | Some y => py_eqb x y
                | None => false
                end && go d'
            end) d
  | _, _ => false
  end.

(** *** Results, and what the embedding leaves abstract

    The textual form of floats and of containers, the rounding of an
    integer or a text to a float, and the clock are parameters. *)

Inductive result (A : Type) : Type :=
| Ok (a : A)
| Raise (e : exn).
Arguments Ok {A} a.
Arguments Raise {A} e.

Record interp : Type := {
  float_repr : spec_float -> string;
  float_of_Z : Z -> spec_float;
  float_of_str : string -> option spec_float;
  tree_repr : pyval -> string;
  utcnow : datetime;          (* datetime.datetime.utcnow() *)
  localnow : datetime         (* datetime.datetime.now() *)
}.

(** *** Builtins on scalars *)

(** [unicode(s)] *)
Definition py_unicode (env : interp) (s : scalar) : result scalar :=
  match s with
  | SNone => Ok (SUni "None")
  | SBool b => Ok (SUni (if b then "True" else "False"))
  | SInt z => Ok (SUni (str_of_Z z))
  | SFloat f => Ok (SUni (float_repr env f))
  | SStr x => if all_chars is_ascii x then Ok (SUni x)
              else Raise UnicodeDecodeError
  | SUni x => Ok (SUni x)
  | SDecimal x => Ok (SUni (Dec.to_str x))
  | SDate x => Ok (SUni (date_isoformat x))
  | STime x => Ok (SUni (time_isoformat x))
  | SDateTime x => Ok (SUni (datetime_isoformat " " x))
  end.

(** [int(text)]: optional blanks, an optional sign, digits. *)
Definition int_of_str (x : string) : option Z :=
  let '(neg, ds) := Dec.take_sign (strip x) in
  match N_of_digits ds with
  | Some n => Some (if neg then - Z.of_N n else Z.of_N n)
  | None => None
  end.

(** [int(s)] *)
Definition py_int (s : scalar) : result scalar :=
  match s with
  | SBool b => Ok (SInt (b2z b))
  | SInt z => Ok (SInt z)
  | SFloat f =>
      match trunc_float f with
      | Some z => Ok (SInt z)
      | None => match f with
                | S754_nan => Raise ValueError
                | _ => Raise OverflowError
                end
      end
  | SStr x | SUni x =>
      match int_of_str x with
      | Some z => Ok (SInt z)
      | None => Raise ValueError
      end
  | SDecimal (Finite neg c e) =>
      let a := match e with
               | Z.neg p => Z.of_N c / 10 ^ Z.pos p
               | _ => Z.of_N c * 10 ^ e
               end in
      Ok (SInt (if neg then - a else a))
  | SDecimal (Inf _) => Raise OverflowError
  | SDecimal (NaN _ _) => Raise ValueError
  | _ => Raise TypeError
  end.

(** [float(s)] *)
Definition py_float (env : interp) (s : scalar) : result scalar :=
  match s with
  | SFloat f => Ok (SFloat f)
  | SBool b => Ok (SFloat (float_of_Z env (b2z b)))
  | SInt z => Ok (SFloat (float_of_Z env z))
  | SStr x | SUni x =>
      match float_of_str env x with
      | Some f => Ok (SFloat f)
      | None => Raise ValueError
      end
  | SDecimal x =>
      match float_of_str env (Dec.to_str x) with
      | Some f => Ok (SFloat f)
      | None => Raise ValueError
      end
  | _ => Raise TypeError
  end.

(** [decimal.Decimal(s)] *)
Definition py_Decimal (s : scalar) : result scalar :=
  match s with
  | SDecimal x => Ok (SDecimal x)
  | SBool b => Ok (SDecimal (Finite false (Z.to_N (b2z b)) 0))
  | SInt z => Ok (SDecimal (Finite (z <? 0) (Z.abs_N z) 0))
  | SStr x | SUni x =>
      match Dec.of_str x with
      | Some y => Ok (SDecimal y)
      | None => Raise InvalidOperation
      end
  | _ => Raise TypeError
  end.

(** *** The scalar property classes as converters

    [to_python] and [to_json] of the property classes whose values are
    scalars, applied to a scalar. *)

Inductive kind : Type :=
| KProperty | KString | KInteger | KFloat | KBoolean | KDecimal
| KDateTime | KDate | KTime | KDict | KList.

Definition MAP_TYPES_PROPERTIES (t : pytype) : option kind :=
  match t with
  | TDecimal => Some KDecimal
  | TDateTime => Some KDateTime
  | TDate => Some KDate
  | TTime => Some KTime
  | TStr | TUnicode => Some KString
  | TBool => Some KBoolean
  | TInt | TLong => Some KInteger
  | TFloat => Some KFloat
  | TList => Some KList
  | TDict => Some KDict
  | TNone | TBasestring => None
  end.

(** [DateTimeProperty.to_python] on a text *)
Definition DateTimeProperty_parse (x : string) : option datetime :=
  let x := before_first "." x in     (* strip out microseconds *)
  let x := rstrip "Z" x in           (* remove timezone separator *)
  match strptime_ymd_T_hms x with
  | Some ((y, m, d), (hh, mm, ss)) =>
      utcfromtimestamp (timegm y m d hh mm ss)
  | None => None
  end.

(** [DateProperty.to_python] on a text *)
Definition DateProperty_parse (x : string) : option date :=
  match strptime_ymd x with
  | Some (y, m, d) => Some (mkdate y m d)
  | None => None
  end.

(** [TimeProperty.to_python] on a text; [datetime.time] rejects a second
    field of 60 or 61, which [%S] accepts. *)
Definition TimeProperty_parse (x : string) : option time :=
  let x := before_first "." x in     (* strip out microseconds *)
  match strptime_hms x with
  | Some (hh, mm, ss) =>
      if ss <? 60 then Some (mktime hh mm ss 0) else None
  | None => None
  end.

Definition to_python_scalar (env : interp) (k : kind) (s : scalar)
  : result scalar :=
  match k with
  | KProperty | KString => py_unicode env s
  | KInteger => py_int s
  | KFloat => py_float env s
  | KBoolean => Ok (SBool (scalar_truth s))
  | KDecimal => py_Decimal s
  | KDateTime =>
      match is_basestring s with
      | Some x => match DateTimeProperty_parse x with
                  | Some dt => Ok (SDateTime dt)
                  | None => Raise ValueError
                  end
      | None => Ok s
      end
  | KDate =>
      match is_basestring s with
      | Some x => match DateProperty_parse x with
                  | Some d => Ok (SDate d)
                  | None => Raise ValueError
                  end
      | None => Ok s
      end
  | KTime =>
      match is_basestring s with
      | Some x => match TimeProperty_parse x with
                  | Some t => Ok (STime t)
                  | None => Raise ValueError
                  end
      | None => Ok s
      end
  | KDict | KList => Ok s
  end.

(** [value.replace(microsecond=0).isoformat()] for whatever [value] is. *)
Definition replace_us_isoformat (s : scalar) : result string :=
  match s with
  | SDateTime x =>
      Ok (datetime_isoformat "T"
            (mkdatetime (dt_date x) (replace_microsecond0 (dt_time x))))
  | STime x => Ok (time_isoformat (replace_microsecond0 x))
  | SDate _ | SStr _ | SUni _ => Raise TypeError
  | _ => Raise AttributeError
  end.

(** [value.isoformat()] *)
Definition isoformat (s : scalar) : result string :=
  match s with
  | SDateTime x => Ok (datetime_isoformat "T" x)
  | SDate x => Ok (date_isoformat x)
  | STime x => Ok (time_isoformat x)
  | _ => Raise AttributeError
  end.

Definition to_json_scalar (env : interp) (k : kind) (auto_now : bool)
  (s : scalar) : result scalar :=
  match k with
  | KProperty | KString => py_unicode env s
  | KInteger => py_int s
  | KFloat => py_float env s
  | KBoolean => Ok (SBool (scalar_truth s))
  | KDecimal => py_unicode env s
  | KDateTime =>
      let s := if auto_now then SDateTime (utcnow env) else s in
      match replace_us_isoformat s with
      | Ok x => Ok (SStr (x ++ "Z"))
      | Raise e => Raise e
      end
  | KDate =>
      match isoformat s with
      | Ok x => Ok (SStr x)
      | Raise e => Raise e
      end
  | KTime =>
      match replace_us_isoformat s with
      | Ok x => Ok (SStr x)
      | Raise e => Raise e
      end
  | KDict | KList => Ok s
  end.

(** *** [value_to_json], [value_to_python] *)

Definition scalar_to_json (s : scalar) : scalar :=
  match s with
  | SDateTime x =>
      SStr (datetime_isoformat "T"
              (mkdatetime (dt_date x) (replace_microsecond0 (dt_time x)))
            ++ "Z")
  | SDate x => SStr (date_isoformat x)
  | STime x => SStr (time_isoformat (replace_microsecond0 x))
  | SDecimal x => SUni (Dec.to_str x)
  | _ => s
  end.

Fixpoint value_to_json (v : pyval) : pyval :=
  match v with
  | PS s => PS (scalar_to_json s)
  | PList l => PList (map value_to_json l)                 (* list_to_json *)
  | PDict d => PDict (map (fun kv => (fst kv, value_to_json (snd kv))) d)
                                                            (* dict_to_json *)
  end.

(** The type the text looks like: the first pattern that matches. *)
Definition detect_type (x : string) : option pytype :=
  if Re.matches Re.re_date x then Some TDate
  else if Re.matches Re.re_time x then Some TTime
  else if Re.matches Re.re_datetime x then Some TDateTime
  else if Re.matches Re.re_decimal x then Some TDecimal
  else None.

Definition scalar_to_python (env : interp) (s : scalar) : scalar :=
  match is_basestring s with
  | Some x =>
      match detect_type x with
      | Some data_type =>
          match MAP_TYPES_PROPERTIES data_type with
          | Some prop =>
              match to_python_scalar env prop s with
              | Ok v => v
              | Raise _ => s       (* sometimes regex fail so return value *)
              end
          | None => s
          end
      | None => s
      end
  | None => s
  end.

Fixpoint value_to_python (env : interp) (v : pyval) : pyval :=
  match v with
  | PS s => PS (scalar_to_python env s)
  | PList l => PList (map (value_to_python env) l)        (* list_to_python *)
  | PDict d =>
      PDict (map (fun kv => (fst kv, value_to_python env (snd kv))) d)
                                                          (* dict_to_python *)
  end.

(** [convert_property]: to JSON through the property class of the value's
    type, constructed with its defaults. *)
Definition convert_property (env : interp) (v : pyval) : result pyval :=
  match v with
  | PS s =>
      match MAP_TYPES_PROPERTIES (type_of_scalar s) with
      | Some prop =>
          match to_json_scalar env prop false s with
          | Ok j => Ok (PS j)
          | Raise e => Raise e
          end
      | None => Ok v
      end
  | _ => Ok (value_to_json v)
  end.

(** *** [validate_content] *)

Fixpoint validate_content (item_type : option pytype) (v : pyval)
  : result pyval :=
  match v with
  | PList l =>
      match
      (fix go (l : list pyval) : result (list pyval) :=
         match l with
         | [] => Ok []
         | x :: l' =>
             match validate_content item_type x with
             | Ok x' => match go l' with
                        | Ok r => Ok (x' :: r)
                        | Raise e => Raise e
                        end
             | Raise e => Raise e
             end
         end) l
      with
      | Ok r => Ok (PList r)
      | Raise e => Raise e
      end
  | PDict d =>
      match
      (fix go (d : list (pykey * pyval)) : result (list (pykey * pyval)) :=
         match d with
         | [] => Ok []
         | (k, x) :: d' =>
             match validate_content item_type x with
             | Ok x' => match go d' with
                        | Ok r => Ok ((k, x') :: r)
                        | Raise e => Raise e
                        end
             | Raise e => Raise e
             end
         end) d
      with
      | Ok r => Ok (PDict r)
      | Raise e => Raise e
      end
  | PS s =>
      let differs :=
        match item_type with
        | Some t => negb (pytype_eqb (type_of_scalar s) t)
        | None => false
        end in
      if differs then Raise (BadValueError BadItems)
      else if negb (type_in (type_of_scalar s) ALLOWED_PROPERTY_TYPES)
           then Raise (BadValueError BadItems)
           else Ok v
  end.

Definition validate_list_content (item_type : option pytype)
  (l : list pyval) : result pyval :=
  validate_content item_type (PList l).

Definition validate_dict_content (item_type : option pytype)
  (d : list (pykey * pyval)) : result pyval :=
  validate_content item_type (PDict d).

End Py.

(** ** The object store

    Containers that the code keeps and mutates live in a store and are
    referred to by location: the plain dicts and lists of a canonical
    document ([node]), and the [LazyDict] / [LazyList] wrappers ([lazy]), each
    of which holds its own items and the reference [doc] to the canonical
    node it mirrors.  A computation threads the store and may raise; the
    store keeps what was written before an exception. *)

Module Mem.
Import PyStr Py.

Abbreviation loc := nat.

(** What a canonical node holds. *)
Inductive jval : Type :=
| JS (s : scalar)
| JNode (l : loc).

Inductive node : Type :=
| NDict (items : list (pykey * jval))
| NList (items : list jval).

(** What native code handles: a scalar, a container passed by value
    ([VRaw], a plain list or dict that nothing else refers to), a canonical
    node, or a wrapper. *)
Inductive value : Type :=
| VS (s : scalar)
| VRaw (t : pyval)
| VNode (l : loc)
| VLazy (l : loc).

Inductive lazy : Type :=
| LDict (items : list (pykey * value)) (doc : jval)
| LList (items : list value) (doc : jval).

Record store : Type := mkstore { nodes : list node; lazies : list lazy }.

Definition empty_store : store := mkstore [] [].

Definition M (A : Type) : Type := store -> result A * store.

Definition ret {A} (a : A) : M A := fun st => (Ok a, st).
Definition raise {A} (e : exn) : M A := fun st => (Raise e, st).
Definition bind {A B} (m : M A) (f : A -> M B) : M B :=
  fun st => match m st with
            | (Ok a, st') => f a st'
            | (Raise e, st') => (Raise e, st')
            end.
Definition lift {A} (r : result A) : M A := fun st => (r, st).
Definition get_store : M store := fun st => (Ok st, st).

Declare Scope py_scope.
Delimit Scope py_scope with py.
Notation "x <- m ;; k" := (bind m (fun x => k))
  (at level 20, m at level 99, k at level 200, only parsing) : py_scope.
Notation "m ;; k" := (bind m (fun _ => k))
  (at level 100, k at level 200, only parsing, right associativity)
  : py_scope.
Local Open Scope py_scope.

Definition of_jval (j : jval) : value :=
  match j with JS s => VS s | JNode l => VNode l end.

Definition of_tree (t : pyval) : value :=
  match t with PS s => VS s | _ => VRaw t end.

(** *** Allocation *)

Definition new_node (n : node) : M jval :=
  fun st => (Ok (JNode (length (nodes st))),
             mkstore (nodes st ++ [n]) (lazies st)).

Definition new_lazy (w : lazy) : M loc :=
  fun st => (Ok (length (lazies st)),
             mkstore (nodes st) (lazies st ++ [w])).

Definition get_node (l : loc) : M node :=
  fun st => match nodes st !! l with
            | Some n => (Ok n, st)
            | None => (Raise RuntimeError, st)     (* dangling: never built *)
            end.

Definition put_node (l : loc) (n : node) : M unit :=
  fun st => (Ok tt, mkstore (<[l := n]> (nodes st)) (lazies st)).

Definition get_lazy (l : loc) : M lazy :=
  fun st => match lazies st !! l with
            | Some w => (Ok w, st)
            | None => (Raise RuntimeError, st)
            end.

Definition put_lazy (l : loc) (w : lazy) : M unit :=
  fun st => (Ok tt, mkstore (nodes st) (<[l := w]> (lazies st))).

(** A plain tree becomes a canonical node when it is stored in one. *)
Fixpoint materialize (t : pyval) : M jval :=
  match t with
  | PS s => ret (JS s)
  | PList l =>
      items <- (fix each (l : list pyval) : M (list jval) :=
                  match l with
                  | [] => ret []
                  | x :: l' => j <- materialize x ;; r <- each l' ;;
                               ret (j :: r)
                  end) l ;;
      new_node (NList items)
  | PDict d =>
      items <- (fix each (d : list (pykey * pyval))
                  : M (list (pykey * jval)) :=
                  match d with
                  | [] => ret []
                  | (k, x) :: d' => j <- materialize x ;; r <- each d' ;;
                                    ret ((k, j) :: r)
                  end) d ;;
      new_node (NDict items)
  end.

(** *** Lists with Python indices *)

(** The position an index denotes in a list of length [n]. *)
Definition norm_index (n : nat) (i : Z) : option nat :=
  let i' := if i <? 0 then i + Z.of_nat n else i in
  if (0 <=? i') && (i' <? Z.of_nat n) then Some (Z.to_nat i') else None.

Definition list_set {A} (l : list A) (i : Z) (x : A) : option (list A) :=
  match norm_index (length l) i with
  | Some n => Some (<[n := x]> l)
  | None => None
  end.

Definition list_del {A} (l : list A) (i : Z) : option (list A) :=
  match norm_index (length l) i with
  | Some n => Some (delete n l)
  | None => None
  end.

Definition list_get {A} (l : list A) (i : Z) : option A :=
  match norm_index (length l) i with
  | Some n => l !! n
  | None => None
  end.

(** *** Operations on the canonical object [doc] *)

(** [doc[k]] *)
Definition node_getitem (doc : jval) (k : pykey) : M jval :=
  match doc with
  | JNode l =>
      n <- get_node l ;;
      match n, k with
      | NDict items, _ =>
          match dict_get k items with
          | Some j => ret j
          | None => raise KeyError
          end
      | NList items, KInt i =>
          match list_get items i with
          | Some j => ret j
          | None => raise IndexError
          end
      | NList _, KStr _ => raise TypeError
      end
  | JS (SStr x | SUni x) =>
      match k with
      | KInt i =>
          match list_get (list_ascii_of_string x) i with
          | Some c => ret (JS (match doc with
                               | JS (SUni _) => SUni (String c "")
                               | _ => SStr (String c "")
                               end))
          | None => raise IndexError
          end
      | KStr _ => raise TypeError
      end
  | JS _ => raise TypeError
  end.

(** [doc[k] = j] *)
Definition node_setitem (doc : jval) (k : pykey) (j : jval) : M unit :=
  match doc with
  | JNode l =>
      n <- get_node l ;;
      match n, k with
      | NDict items, _ => put_node l (NDict (dict_set k j items))
      | NList items, KInt i =>
          match list_set items i j with
          | Some items' => put_node l (NList items')
          | None => raise IndexError
          end
      | NList _, KStr _ => raise TypeError
      end
  | JS _ => raise TypeError
  end.

(** [del doc[k]] *)
Definition node_delitem (doc : jval) (k : pykey) : M unit :=
  match doc with
  | JNode l =>
      n <- get_node l ;;
      match n, k with
      | NDict items, _ =>
          if dict_has k items then put_node l (NDict (dict_del k items))
          else raise KeyError
      | NList items, KInt i =>
          match list_del items i with
          | Some items' => put_node l (NList items')
          | None => raise IndexError
          end
      | NList _, KStr _ => raise TypeError
      end
  | JS _ => raise TypeError
  end.

(** [doc.update({k: j})] *)
Definition node_update (doc : jval) (k : pykey) (j : jval) : M unit :=
  match doc with
  | JNode l =>
      n <- get_node l ;;
      match n with
      | NDict items => put_node l (NDict (dict_set k j items))
      | NList _ => raise AttributeError
      end
  | JS _ => raise AttributeError
  end.

(** [doc.setdefault(k, t)] for a plain tree [t] *)
Definition node_setdefault (doc : jval) (k : pykey) (t : pyval) : M unit :=
  match doc with
  | JNode l =>
      n <- get_node l ;;
      match n with
      | NDict items =>
          if dict_has k items then ret tt
          else j <- materialize t ;;
               put_node l (NDict (dict_set k j items))
      | NList _ => raise AttributeError
      end
  | JS _ => raise AttributeError
  end.

(** [doc.append(j)] *)
Definition node_append (doc : jval) (j : jval) : M unit :=
  match doc with
  | JNode l =>
      n <- get_node l ;;
      match n with
      | NList items => put_node l (NList (items ++ [j]))
      | NDict _ => raise AttributeError
      end
  | JS _ => raise AttributeError
  end.

(** [doc.clear()]; a Python 2 list has no [clear]. *)
Definition node_clear (doc : jval) : M unit :=
  match doc with
  | JNode l =>
      n <- get_node l ;;
      match n with
      | NDict _ => put_node l (NDict [])
      | NList _ => raise AttributeError
      end
  | JS _ => raise AttributeError
  end.

(** [k in doc] for a dict, as [DocumentSchema] asks of [_doc]. *)
Definition node_has (doc : jval) (k : pykey) : M bool :=
  match doc with
  | JNode l =>
      n <- get_node l ;;
      match n with
      | NDict items => ret (dict_has k items)
      | NList _ => ret false
      end
  | JS _ => raise TypeError
  end.

(** [doc.get(k)] *)
Definition node_get (doc : jval) (k : pykey) : M jval :=
  match doc with
  | JNode l =>
      n <- get_node l ;;
      match n with
      | NDict items => ret (default (JS SNone) (dict_get k items))
      | NList _ => raise AttributeError
      end
  | JS _ => raise AttributeError
  end.

(** *** Reading a container as a tree

    [dict(x)], [x.items()] and the recursive converters walk the objects a
    container refers to; the walk is bounded by the interpreter's recursion
    limit, beyond which Python raises [RuntimeError]. *)

Definition recursion_limit : nat := 1000.

Fixpoint all_ok {A B} (f : A -> result B) (l : list A) : result (list B) :=
  match l with
  | [] => Ok []
  | x :: l' =>
      match f x with
      | Ok y => match all_ok f l' with
                | Ok r => Ok (y :: r)
                | Raise e => Raise e
                end
      | Raise e => Raise e
      end
  end.

Definition on_snd {K A B} (f : A -> result B) (kv : K * A)
  : result (K * B) :=
  match f (snd kv) with
  | Ok y => Ok (fst kv, y)
  | Raise e => Raise e
  end.

Fixpoint read_j (fuel : nat) (st : store) (j : jval) : result pyval :=
  match j with
  | JS s => Ok (PS s)
  | JNode l =>
      match fuel with
      | O => Raise RuntimeError
      | S fuel' =>
          match nodes st !! l with
          | Some (NList items) =>
              match all_ok (read_j fuel' st) items with
              | Ok r => Ok (PList r)
              | Raise e => Raise e
              end
          | Some (NDict items) =>
              match all_ok (on_snd (read_j fuel' st)) items with
              | Ok r => Ok (PDict r)
              | Raise e => Raise e
              end
          | None => Raise RuntimeError
          end
      end
  end.

Fixpoint read_v (fuel : nat) (st : store) (v : value) : result pyval :=
  match v with
  | VS s => Ok (PS s)
  | VRaw t => Ok t
  | VNode l => read_j fuel st (JNode l)
  | VLazy l =>
      match fuel with
      | O => Raise RuntimeError
      | S fuel' =>
          match lazies st !! l with
          | Some (LList items _) =>
              match all_ok (read_v fuel' st) items with
              | Ok r => Ok (PList r)
              | Raise e => Raise e
              end
          | Some (LDict items _) =>
              match all_ok (on_snd (read_v fuel' st)) items with
              | Ok r => Ok (PDict r)
              | Raise e => Raise e
              end
          | None => Raise RuntimeError
          end
      end
  end.

Arguments read_j : simpl never.
Arguments read_v : simpl never.

Definition tree_of (v : value) : M pyval :=
  fun st => (read_v recursion_limit st v, st).

Definition tree_of_j (j : jval) : M pyval :=
  fun st => (read_j recursion_limit st j, st).

(** *** [LazyDict] and [LazyList] *)

Definition lazy_doc (self : loc) : M jval :=
  w <- get_lazy self ;;
  match w with
  | LDict _ doc | LList _ doc => ret doc
  end.

(** [dict.__setitem__(self, key, v)] on the wrapper's own storage *)
Definition own_dict_set (self : loc) (key : pykey) (v : value) : M unit :=
  w <- get_lazy self ;;
  match w with
  | LDict items doc => put_lazy self (LDict (dict_set key v items) doc)
  | LList _ _ => raise TypeError
  end.

(** [list.__setitem__(self, index, v)] *)
Definition own_list_set (self : loc) (index : Z) (v : value) : M unit :=
  w <- get_lazy self ;;
  match w with
  | LList items doc =>
      match list_set items index v with
      | Some items' => put_lazy self (LList items' doc)
      | None => raise IndexError
      end
  | LDict _ _ => raise TypeError
  end.

(** [len(self)] *)
Definition own_len (self : loc) : M Z :=
  w <- get_lazy self ;;
  match w with
  | LList items _ => ret (Z.of_nat (length items))
  | LDict items _ => ret (Z.of_nat (length items))
  end.

Section Setitem.
(** [LazyDict(value, doc)] and [LazyList(value, doc)] *)
Variable mk_dict : pyval -> jval -> M value.
Variable mk_list : pyval -> jval -> M value.

(** [LazyDict.__setitem__] *)
Definition LazyDict_setitem_ (self : loc) (key : pykey) (value : pyval)
  : M unit :=
  doc <- lazy_doc self ;;
  v <- match value with
       | PDict _ =>
           e <- new_node (NDict []) ;;
           node_setitem doc key e ;;          (* self.doc[key] = {} *)
           sub <- node_getitem doc key ;;
           mk_dict value sub
       | PList _ =>
           sub <- node_getitem doc key ;;     (* no sub-node is stored *)
           mk_list value sub
       | PS s =>
           node_update doc key (JS (scalar_to_json s)) ;;
           ret (VS s)
       end ;;
  own_dict_set self key v.

(** [LazyList.__setitem__] *)
Definition LazyList_setitem_ (self : loc) (index : Z) (value : pyval)
  : M unit :=
  doc <- lazy_doc self ;;
  v <- match value with
       | PDict _ =>
           e <- new_node (NDict []) ;;
           node_setitem doc (KInt index) e ;; (* self.doc[index] = {} *)
           sub <- node_getitem doc (KInt index) ;;
           mk_dict value sub
       | PList _ =>
           e <- new_node (NList []) ;;
           node_setitem doc (KInt index) e ;; (* self.doc[index] = [] *)
           sub <- node_getitem doc (KInt index) ;;
           mk_list value sub
       | PS s =>
           node_setitem doc (KInt index) (JS (scalar_to_json s)) ;;
           ret (VS s)
       end ;;
  own_list_set self index v.

(** [LazyList.append] *)
Definition LazyList_append_ (self : loc) (value : pyval) : M unit :=
  doc <- lazy_doc self ;;
  index <- own_len self ;;
  v <- match value with
       | PDict _ =>
           e <- new_node (NDict []) ;;
           node_append doc e ;;
           sub <- node_getitem doc (KInt index) ;;
           mk_dict value sub
       | PList _ =>
           e <- new_node (NList []) ;;
           node_append doc e ;;
           sub <- node_getitem doc (KInt index) ;;
           mk_list value sub
       | PS s =>
           node_append doc (JS (scalar_to_json s)) ;;
           ret (VS s)
       end ;;
  w <- get_lazy self ;;
  match w with
  | LList items d => put_lazy self (LList (items ++ [v]) d)
  | LDict _ _ => raise TypeError
  end.
End Setitem.

Definition key_scalar (k : pykey) : scalar :=
  match k with KStr x => SStr x | KInt z => SInt z end.

(** [LazyDict.__init__] and [LazyList.__init__], after the object is
    created: [d or {}] / [l or []], then one [__setitem__] per entry. *)
Fixpoint LazyDict_init (d : pyval) (doc : jval) {struct d} : M value :=
  self <- new_lazy (LDict [] doc) ;;
  match d with
  | PDict items =>
      (fix each (items : list (pykey * pyval)) : M unit :=
         match items with
         | [] => ret tt
         | (key, x) :: r =>
             LazyDict_setitem_ LazyDict_init LazyList_init self key x ;;
             each r
         end) items
  | _ => if truth d then raise AttributeError     (* no items() *)
         else ret tt
  end ;;
  ret (VLazy self)
with LazyList_init (l : pyval) (doc : jval) {struct l} : M value :=
  match l with
  | PList items =>
      self <- new_lazy (LList (map of_tree items) doc) ;;
      (fix each (idx : Z) (items : list pyval) : M unit :=
         match items with
         | [] => ret tt
         | x :: r =>
             LazyList_setitem_ LazyDict_init LazyList_init self idx x ;;
             each (idx + 1) r
         end) 0 items ;;
      ret (VLazy self)
  | PDict items =>
      (* list(d) is the list of the keys of d *)
      let keys := map (fun kv => key_scalar (fst kv)) items in
      self <- new_lazy (LList (map VS keys) doc) ;;
      (fix each (idx : Z) (keys : list scalar) : M unit :=
         match keys with
         | [] => ret tt
         | k :: r =>
             node_setitem doc (KInt idx) (JS (scalar_to_json k)) ;;
             own_list_set self idx (VS k) ;;
             each (idx + 1) r
         end) 0 keys ;;
      ret (VLazy self)
  | PS s =>
      if scalar_truth s then raise TypeError      (* not a sequence *)
      else self <- new_lazy (LList [] doc) ;; ret (VLazy self)
  end.

Definition LazyDict_setitem := LazyDict_setitem_ LazyDict_init LazyList_init.
Definition LazyList_setitem := LazyList_setitem_ LazyDict_init LazyList_init.
Definition LazyList_append := LazyList_append_ LazyDict_init LazyList_init.

(** [LazyDict.__delitem__] *)
Definition LazyDict_delitem (self : loc) (key : pykey) : M unit :=
  doc <- lazy_doc self ;;
  node_delitem doc key ;;
  w <- get_lazy self ;;
  match w with
  | LDict items d =>
      if dict_has key items then put_lazy self (LDict (dict_del key items) d)
      else raise KeyError
  | LList _ _ => raise TypeError
  end.

(** [LazyDict.pop]: the call [dict.pop(key, default=default)] passes a
    keyword argument, which [dict.pop] refuses. *)
Definition LazyDict_pop (self : loc) (key : pykey) : M value :=
  doc <- lazy_doc self ;;
  node_delitem doc key ;;
  raise TypeError.

(** [LazyDict.setdefault] *)
Definition LazyDict_setdefault (self : loc) (key : pykey) (dflt : pyval)
  : M value :=
  w <- get_lazy self ;;
  match w with
  | LDict items d =>
      match dict_get key items with
      | Some v => ret v
      | None =>
          doc <- lazy_doc self ;;
          node_setdefault doc key (value_to_json dflt) ;;
          put_lazy self (LDict (dict_set key (of_tree dflt) items) d) ;;
          ret (of_tree dflt)
      end
  | LList _ _ => raise TypeError
  end.

(** [LazyDict.update] *)
Definition LazyDict_update (self : loc) (value : pyval) : M unit :=
  match value with
  | PDict items =>
      (fix each (items : list (pykey * pyval)) : M unit :=
         match items with
         | [] => ret tt
         | (k, v) :: r => LazyDict_setitem self k v ;; each r
         end) items
  | _ => raise AttributeError
  end.

(** [LazyDict.popitem(value)]: [dict.popitem] takes no argument. *)
Definition LazyDict_popitem (self : loc) (arg : pyval) : M value :=
  raise TypeError.

(** [LazyDict.clear] *)
Definition LazyDict_clear (self : loc) : M unit :=
  doc <- lazy_doc self ;;
  node_clear doc ;;
  w <- get_lazy self ;;
  match w with
  | LDict _ d => put_lazy self (LDict [] d)
  | LList _ _ => raise TypeError
  end.

(** [LazyList.__delitem__] *)
Definition LazyList_delitem (self : loc) (index : Z) : M unit :=
  doc <- lazy_doc self ;;
  node_delitem doc (KInt index) ;;
  w <- get_lazy self ;;
  match w with
  | LList items d =>
      match list_del items index with
      | Some items' => put_lazy self (LList items' d)
      | None => raise IndexError
      end
  | LDict _ _ => raise TypeError
  end.

(** [LazyList] does not override [pop]: [list.pop(self, index)] acts on
    the wrapper's own items. *)
Definition LazyList_pop (self : loc) (index : Z) : M value :=
  w <- get_lazy self ;;
  match w with
  | LList items d =>
      match list_get items index, list_del items index with
      | Some v, Some items' =>
          put_lazy self (LList items' d) ;; ret v
      | _, _ => raise IndexError
      end
  | LDict _ _ => raise TypeError
  end.

(** *** The two views of a wrapper *)

(** The canonical node of a wrapper, as a tree. *)
Definition canonical_json (st : store) (self : loc) : result pyval :=
  match lazies st !! self with
  | Some (LDict _ doc) | Some (LList _ doc) => read_j recursion_limit st doc
  | None => Raise RuntimeError
  end.

(** The wrapper's current contents, converted to JSON. *)
Definition contents_json (st : store) (self : loc) : result pyval :=
  match read_v recursion_limit st (VLazy self) with
  | Ok t => Ok (value_to_json t)
  | Raise e => Raise e
  end.

Definition in_sync (st : store) (self : loc) : bool :=
  match canonical_json st self, contents_json st self with
  | Ok a, Ok b => py_eqb a b
  | _, _ => false
  end.

(** Run a computation for its store. *)
Definition exec {A} (m : M A) (st : store) : store := snd (m st).
Definition outcome {A} (m : M A) (st : store) : result A := fst (m st).

End Mem.

(** ** Property descriptors *)

Module Props.
Import PyStr Cal Py Mem.
Local Open Scope py_scope.

(** [default]: a literal, or a zero-argument callable. *)
Inductive default_spec : Type :=
| DLit (v : pyval)
| DCall (f : unit -> pyval).

(** A validator inspects the value and may raise. *)
Definition validator : Type := store -> value -> option exn.

(** [validators]: nothing, one callable, or a list of callables. *)
Inductive validators_spec : Type :=
| NoValidators
| OneValidator (f : validator)
| ListValidators (fs : list validator).

(** A configured descriptor: the class ([pkind]) and the attributes set by
    [__init__] and [__property_config__]. *)
Record Property : Type := mkProperty {
  pkind : kind;
  name : string;
  default : default_spec;
  required : bool;
  validators : validators_spec;
  choices : list scalar;            (* None or empty: no restriction *)
  auto_now : bool;                  (* DateTimeProperty and subclasses *)
  auto_now_add : bool;
  item_type : option pytype         (* ListProperty *)
}.

(** [bool(value)] *)
Definition value_truth (v : value) : M bool :=
  match v with
  | VS s => ret (scalar_truth s)
  | VRaw t => ret (truth t)
  | VNode l =>
      n <- get_node l ;;
      match n with
      | NDict [] | NList [] => ret false
      | _ => ret true
      end
  | VLazy l =>
      w <- get_lazy l ;;
      match w with
      | LDict [] _ | LList [] _ => ret false
      | _ => ret true
      end
  end.

Definition is_none (v : value) : bool :=
  match v with VS SNone => true | _ => false end.

(** [Property.empty], overridden by [IntegerProperty] only. *)
Definition empty (p : Property) (v : value) : M bool :=
  match pkind p with
  | KInteger => ret (is_none v)                     (* value is None *)
  | _ => t <- value_truth v ;; ret (negb t || is_none v)
                                          (* not value or value is None *)
  end.

(** [choice == value] for a scalar choice. *)
Definition choice_eq (c : scalar) (v : value) : bool :=
  match v with
  | VS s => scalar_eqb c s
  | _ => false
  end.

(** The loop over [self.choices] in [Property.validate]; the test of
    [match] stands inside the loop. *)
Fixpoint check_choices (cs : list scalar) (v : value) (matched : bool)
  : result unit :=
  match cs with
  | [] => Ok tt
  | choice :: rest =>
      let matched := if choice_eq choice v then true else matched in
      if negb matched then Raise (BadValueError NotAChoice)
      else check_choices rest v matched
  end.

Fixpoint run_validators (fs : list validator) (v : value) : M unit :=
  match fs with
  | [] => ret tt
  | f :: rest =>
      st <- get_store ;;
      match f st v with
      | Some e => raise e
      | None => run_validators rest v
      end
  end.

(** [Property.validate] *)
Definition Property_validate (p : Property) (v : value) (required_arg : bool)
  : M value :=
  e <- (if required_arg then empty p v else ret false) ;;
  (if required_arg && e
   then (if required p then raise (BadValueError Required) else ret tt)
   else match choices p with
        | [] => ret tt
        | cs => lift (check_choices cs v false)
        end) ;;
  match validators p with
  | NoValidators => ret tt
  | OneValidator f => run_validators [f] v
  | ListValidators fs => run_validators fs v
  end ;;
  ret v.

(** [isinstance(value, dict)] and [isinstance(value, list)] *)
Definition is_dict (v : value) : M bool :=
  match v with
  | VS _ => ret false
  | VRaw t => ret (match t with PDict _ => true | _ => false end)
  | VNode l => n <- get_node l ;;
               ret (match n with NDict _ => true | _ => false end)
  | VLazy l => w <- get_lazy l ;;
               ret (match w with LDict _ _ => true | _ => false end)
  end.

Definition is_list (v : value) : M bool :=
  match v with
  | VS _ => ret false
  | VRaw t => ret (match t with PList _ => true | _ => false end)
  | VNode l => n <- get_node l ;;
               ret (match n with NList _ => true | _ => false end)
  | VLazy l => w <- get_lazy l ;;
               ret (match w with LList _ _ => true | _ => false end)
  end.

(** The [isinstance] tests of the scalar classes. *)
Definition instance_of (k : kind) (s : scalar) : bool :=
  match k, s with
  | KString, (SStr _ | SUni _) => true                 (* basestring *)
  | KInteger, (SInt _ | SBool _) => true               (* (int, long) *)
  | KFloat, SFloat _ => true
  | KBoolean, SBool _ => true
  | KDateTime, SDateTime _ => true
  | KDate, (SDate _ | SDateTime _) => true     (* datetime is a date *)
  | KTime, STime _ => true
  | _, _ => false
  end.

(** [validate] of each class: the base check, then the class's own. *)
Definition validate (p : Property) (v : value) (required_arg : bool)
  : M value :=
  v <- Property_validate p v required_arg ;;
  match pkind p with
  | KProperty | KDecimal => ret v
  | KString | KInteger | KFloat | KBoolean =>
      if is_none v then ret v
      else match v with
           | VS s => if instance_of (pkind p) s then ret v
                     else raise (BadValueError WrongType)
           | _ => raise (BadValueError WrongType)
           end
  | KDateTime | KDate | KTime =>
      if is_none v then ret v
      else
        t <- value_truth v ;;
        match v with
        | VS s => if t && negb (instance_of (pkind p) s)
                  then raise (BadValueError WrongType) else ret v
        | _ => if t then raise (BadValueError WrongType) else ret v
        end
  | KDict =>
      t <- value_truth v ;;
      if t && negb (is_none v) then
        d <- is_dict v ;;
        if negb d then raise (BadValueError WrongType)
        else tr <- tree_of v ;;
             match tr with
             | PDict items =>
                 r <- lift (validate_dict_content None items) ;;
                 ret (of_tree r)
             | _ => raise (BadValueError WrongType)
             end
      else ret v
  | KList =>
      t <- value_truth v ;;
      if t && negb (is_none v) then
        l <- is_list v ;;
        if negb l then raise (BadValueError WrongType)
        else tr <- tree_of v ;;
             match tr with
             | PList items =>
                 r <- lift (validate_list_content (item_type p) items) ;;
                 ret (of_tree r)
             | _ => raise (BadValueError WrongType)
             end
      else ret v
  end.

(** [to_python]: from what the canonical document holds to a native
    value. *)
Definition to_python (env : interp) (p : Property) (j : jval) : M value :=
  match pkind p with
  | KDict =>
      t <- tree_of_j j ;; LazyDict_init (value_to_python env t) j
  | KList =>
      t <- tree_of_j j ;; LazyList_init (value_to_python env t) j
  | k =>
      match j with
      | JS s => r <- lift (to_python_scalar env k s) ;; ret (VS r)
      | JNode l =>
          match k with
          | KProperty | KString =>
              t <- tree_of_j j ;; ret (VS (SUni (tree_repr env t)))
          | KBoolean => t <- value_truth (VNode l) ;; ret (VS (SBool t))
          | KDateTime | KDate | KTime => ret (VNode l)
          | _ => raise TypeError
          end
      end
  end.

(** [to_json]: from a native value to what the canonical document holds;
    a list or dict is built afresh. *)
Definition to_json (env : interp) (p : Property) (v : value) : M jval :=
  match pkind p with
  | KDict | KList =>
      t <- tree_of v ;; materialize (value_to_json t)
  | k =>
      match v with
      | VS s => r <- lift (to_json_scalar env k (auto_now p) s) ;; ret (JS r)
      | _ =>
          match k with
          | KProperty | KString | KDecimal =>
              t <- tree_of v ;; ret (JS (SUni (tree_repr env t)))
          | KBoolean => t <- value_truth v ;; ret (JS (SBool t))
          | KDateTime =>
              if auto_now p then
                r <- lift (to_json_scalar env k true SNone) ;; ret (JS r)
              else raise AttributeError
          | KDate | KTime => raise AttributeError
          | _ => raise TypeError
          end
      end
  end.

(** [Property.default_value] *)
Definition Property_default_value (p : Property) : pyval :=
  match default p with
  | DLit v => v
  | DCall f => f tt
  end.

(** [default_value] of each class.  [TimeProperty.now] is a static method
    declared with a parameter, so calling it raises. *)
Definition default_value (env : interp) (p : Property) : M value :=
  match pkind p with
  | KDateTime =>
      if auto_now p || auto_now_add p then ret (VS (SDateTime (utcnow env)))
      else ret (of_tree (Property_default_value p))
  | KDate =>
      if auto_now p || auto_now_add p
      then ret (VS (SDate (dt_date (localnow env))))
      else ret (of_tree (Property_default_value p))
  | KTime =>
      if auto_now p || auto_now_add p then raise TypeError
      else ret (of_tree (Property_default_value p))
  | KDict =>
      match Property_default_value p with
      | PS SNone => ret (VRaw (PDict []))
      | PDict d => ret (VRaw (PDict d))                (* dict(value) *)
      | PList [] => ret (VRaw (PDict []))
      | _ => raise TypeError
      end
  | KList =>
      match Property_default_value p with
      | PS SNone => ret (VRaw (PList []))
      | PList l => ret (VRaw (PList l))                (* list(value) *)
      | PDict d =>
          ret (VRaw (PList (map (fun kv => PS (key_scalar (fst kv))) d)))
      | _ => raise TypeError
      end
  | _ => ret (of_tree (Property_default_value p))
  end.

(** [Property.__property_init__] *)
Definition property_init (env : interp) (p : Property) (doc : jval)
  (v : value) : M unit :=
  j <- (if negb (is_none v)
        then v' <- validate p v false ;; to_json env p v'
        else ret (JS SNone)) ;;
  node_setitem doc (KStr (name p)) j.

(** [Property.__get__] on an instance whose [_doc] is [doc] *)
Definition get (env : interp) (p : Property) (doc : jval) : M value :=
  j <- node_get doc (KStr (name p)) ;;
  match j with
  | JS SNone => ret (VS SNone)
  | _ => to_python env p j
  end.

(** [Property.__set__] *)
Definition set (env : interp) (p : Property) (doc : jval) (v : value)
  : M unit :=
  v' <- validate p v false ;;
  j <- to_json env p v' ;;
  node_setitem doc (KStr (name p)) j.

(** The constructors with their default arguments. *)
Definition make (k : kind) (n : string) : Property :=
  mkProperty k n
    (match k with
     | KDict => DLit (PDict [])
     | KList => DLit (PList [])
     | _ => DLit (PS SNone)
     end)
    false NoValidators [] false false None.

(** An interpretation to run examples with: the clock reads [now]; an
    integer becomes the float with that value; the texts of floats and
    containers, which the examples never compare, are placeholders. *)
Definition sample_env (now : datetime) : interp :=
  {| float_repr := fun _ => "<float>";
     float_of_Z := fun z =>
       if z =? 0 then S754_zero false
       else S754_finite (z <? 0) (Z.to_pos (Z.abs z)) 0;
     float_of_str := fun _ => None;
     tree_repr := fun _ => "<container>";
     utcnow := now;
     localnow := now |}.

End Props.

(** ** Documents *)

Module Doc.
Import PyStr Py Mem Props.
Local Open Scope py_scope.

Definition _RESERVED_WORDS : list string := ["_id"; "_rev"; "$schema"; "type"].

Definition str_in (x : string) (l : list string) : bool :=
  existsb (String.eqb x) l.

Definition check_reserved_words (attr_name : string) : M unit :=
  if str_in attr_name _RESERVED_WORDS then raise ReservedWordError
  else ret tt.

(** [valid_id] *)
Definition valid_id (v : pyval) : M pyval :=
  match v with
  | PS (SStr x | SUni x) =>
      if negb (startswith "_" x) then ret v else raise TypeError
  | _ => raise TypeError
  end.

(** A document class: what the metaclass leaves in [_properties] (keyed by
    attribute name), the tag, the switch for dynamic properties, and the
    names of the other public attributes of the class, which [dir] lists. *)
Record schema : Type := mkschema {
  _properties : list (string * Property);
  _doc_type : string;
  _allow_dynamic_properties : bool;
  class_attrs : list string
}.

(** The public methods and attributes of [Document]. *)
Definition Document_attrs : list string :=
  ["all_properties"; "build"; "bulk_save"; "clone"; "delete";
   "delete_attachment"; "dynamic_properties"; "fetch_attachment"; "get";
   "get_db"; "get_or_create"; "items"; "iteritems"; "new_document";
   "properties"; "put_attachment"; "save"; "set_db"; "store"; "temp_view";
   "to_json"; "validate"; "view"; "wrap"].

(** An instance: [_doc], [_dynamic_properties], and the other attributes
    set on the object itself. *)
Record instance : Type := mkinstance {
  _doc : jval;
  _dynamic_properties : list (string * value);
  own_attrs : list (string * value)
}.

Fixpoint lookup {A} (k : string) (l : list (string * A)) : option A :=
  match l with
  | [] => None
  | (k', a) :: r => if String.eqb k k' then Some a else lookup k r
  end.

Fixpoint assign {A} (k : string) (a : A) (l : list (string * A))
  : list (string * A) :=
  match l with
  | [] => [(k, a)]
  | (k', a') :: r =>
      if String.eqb k k' then (k, a) :: r else (k', a') :: assign k a r
  end.

Definition has_key {A} (k : string) (l : list (string * A)) : bool :=
  match lookup k l with Some _ => true | None => false end.

(** [key in dir(self)] for a public name. *)
Definition in_dir (sch : schema) (self : instance) (key : string) : bool :=
  has_key key (_properties sch) || str_in key (class_attrs sch)
  || has_key key (own_attrs self).

(** [hasattr(self, key)]: the attribute lookup, which runs the descriptor
    of a declared property and reports any exception as absence. *)
Definition hasattr (env : interp) (sch : schema) (self : instance)
  (key : string) : M bool :=
  match lookup key (_properties sch) with
  | Some p =>
      fun st => match get env p (_doc self) st with
                | (Ok _, st') => (Ok true, st')
                | (Raise _, st') => (Ok false, st')
                end
  | None =>
      ret (str_in key (class_attrs sch) || has_key key (own_attrs self)
           || has_key key (_dynamic_properties self)
           || String.eqb key "_id" || String.eqb key "_rev"
           || String.eqb key "_doc" || String.eqb key "_db"
           || String.eqb key "_dynamic_properties"
           || String.eqb key "_allow_dynamic_properties"
           || String.eqb key "_properties" || String.eqb key "_doc_type")
  end.

(** [DocumentSchema.__setattr__] for a value given as a tree. *)
Definition setattr (env : interp) (sch : schema) (self : instance)
  (key : string) (value : pyval) : M instance :=
  is_id <- (if String.eqb key "_id"
            then v <- valid_id value ;; ret (truth v) else ret false) ;;
  if is_id then
    j <- materialize value ;;
    node_setitem (_doc self) (KStr "_id") j ;; ret self
  else
    check_reserved_words key ;;
    h <- hasattr env sch self key ;;
    if negb h && negb (_allow_dynamic_properties sch) then
      raise AttributeError
    else if negb (startswith "_" key)
            && negb (has_key key (_properties sch))
            && negb (in_dir sch self key) then
      (* type(value) is always one of ALLOWED_PROPERTY_TYPES here *)
      match value with
      | PDict _ =>
          has <- node_has (_doc self) (KStr key) ;;
          (if negb has || negb (truth value)
           then e <- new_node (NDict []) ;;
                node_setitem (_doc self) (KStr key) e
           else ret tt) ;;
          sub <- node_getitem (_doc self) (KStr key) ;;
          w <- LazyDict_init value sub ;;
          ret (mkinstance (_doc self)
                 (assign key w (_dynamic_properties self))
                 (own_attrs self))
      | PList _ =>
          has <- node_has (_doc self) (KStr key) ;;
          (if negb has || negb (truth value)
           then e <- new_node (NList []) ;;
                node_setitem (_doc self) (KStr key) e
           else ret tt) ;;
          sub <- node_getitem (_doc self) (KStr key) ;;
          w <- LazyList_init value sub ;;
          ret (mkinstance (_doc self)
                 (assign key w (_dynamic_properties self))
                 (own_attrs self))
      | PS s =>
          c <- lift (convert_property env value) ;;
          j <- materialize c ;;
          node_setitem (_doc self) (KStr key) j ;;
          ret (mkinstance (_doc self)
                 (assign key (VS s) (_dynamic_properties self))
                 (own_attrs self))
      end
    else
      (* object.__setattr__: the descriptor of a declared property, or an
         attribute of the object *)
      match lookup key (_properties sch) with
      | Some p =>
          Props.set env p (_doc self) (of_tree value) ;; ret self
      | None =>
          ret (mkinstance (_doc self) (_dynamic_properties self)
                 (assign key (of_tree value) (own_attrs self)))
      end.

(** The loop of [__init__] and of [wrap] over [self._properties.values()]:
    [pick] chooses the value each property is initialised with. *)
Fixpoint init_properties (env : interp) (doc : jval)
  (pick : Property -> M value) (ps : list (string * Property)) : M unit :=
  match ps with
  | [] => ret tt
  | (_, prop) :: rest =>
      v <- pick prop ;;
      property_init env prop doc v ;;
      init_properties env doc pick rest
  end.

Fixpoint remove {A} (k : string) (l : list (string * A))
  : list (string * A) :=
  match l with
  | [] => []
  | (k', a) :: r =>
      if String.eqb k k' then remove k r else (k', a) :: remove k r
  end.

(** [DocumentSchema.__init__(self, **properties)] *)
Definition DocumentSchema_init (env : interp) (sch : schema)
  (properties : list (string * pyval)) : M instance :=
  doc <- new_node (NDict []) ;;
  node_setitem doc (KStr "doc_type") (JS (SStr (_doc_type sch))) ;;
  init_properties env doc
    (fun prop =>
       match lookup (name prop) properties with
       | Some (PS SNone) | None => default_value env prop
       | Some v => ret (of_tree v)
       end)
    (_properties sch) ;;
  let rest :=
    fold_left (fun acc kp => remove (name (snd kp)) acc)
      (_properties sch) properties in
  (fix dynamic (l : list (string * pyval)) (self : instance) : M instance :=
     match l with
     | [] => ret self
     | (attr_name, v) :: r =>
         if negb (has_key attr_name (_properties sch))
            && negb (match v with PS SNone => true | _ => false end)
         then self' <- setattr env sch self attr_name v ;; dynamic r self'
         else dynamic r self
     end) rest (mkinstance doc [] []).

Definition keys_of (n : node) : list pykey :=
  match n with
  | NDict items => map fst items
  | NList _ => []
  end.

(** [DocumentSchema.wrap(cls, data)] *)
Definition wrap (env : interp) (sch : schema) (data : jval) : M instance :=
  instance0 <- DocumentSchema_init env sch [] ;;       (* cls() *)
  let self := mkinstance data (_dynamic_properties instance0)
                (own_attrs instance0) in            (* instance._doc = data *)
  init_properties env data
    (fun prop =>
       has <- node_has data (KStr (name prop)) ;;
       if has then
         j <- node_getitem data (KStr (name prop)) ;;
         match j with
         | JS SNone => default_value env prop
         | _ => to_python env prop j
         end
       else default_value env prop)
    (_properties sch) ;;
  if _allow_dynamic_properties sch then
    keys <- match data with
            | JNode l => n <- get_node l ;; ret (keys_of n)
            | JS _ => raise AttributeError
            end ;;
    (fix each (keys : list pykey) (self : instance) : M instance :=
       match keys with
       | [] => ret self
       | KStr attr_name :: r =>
           j <- node_getitem data (KStr attr_name) ;;
           if has_key attr_name (_properties sch) then each r self
           else match j with
                | JS SNone => each r self
                | _ =>
                    if startswith "_" attr_name then each r self
                    else if String.eqb attr_name "doc_type" then each r self
                    else
                      t <- tree_of_j j ;;
                      self' <- setattr env sch self attr_name
                                 (value_to_python env t) ;;
                      each r self'
                end
       | KInt i :: r =>
           j <- node_getitem data (KInt i) ;;
           match j with
           | JS SNone => each r self
           | _ => raise AttributeError       (* attr_name.startswith *)
           end
       end) keys self
  else ret self.

(** [getattr(self, attr_name)] for the name of a declared property. *)
Definition getattr_declared (env : interp) (p : Property) (self : instance)
  : M value :=
  Props.get env p (_doc self).

(** [DocumentSchema.validate] *)
Definition validate (env : interp) (sch : schema) (self : instance)
  (required_arg : bool) : M bool :=
  keys <- match _doc self with
          | JNode l => n <- get_node l ;; ret (keys_of n)
          | JS _ => raise AttributeError
          end ;;
  (fix each (keys : list pykey) : M unit :=
     match keys with
     | [] => ret tt
     | KStr attr_name :: r =>
         match lookup attr_name (_properties sch) with
         | Some p =>
             v <- getattr_declared env p self ;;
             Props.validate p v required_arg ;;
             each r
         | None => each r
         end
     | KInt _ :: r => each r
     end) keys ;;
  ret true.

(** [DocumentSchema.to_json] *)
Definition to_json (sch : schema) (self : instance) : M jval :=
  t <- node_get (_doc self) (KStr "doc_type") ;;
  match t with
  | JS SNone =>
      node_setitem (_doc self) (KStr "doc_type") (JS (SStr (_doc_type sch)))
  | _ => ret tt
  end ;;
  ret (_doc self).

(** *** Persistence

    The database is a collaborator: [save_doc] receives the document and
    answers with an id and a revision, or fails.  [sent] records, in
    order, every document handed to it. *)

Record database : Type := {
  save_doc : pyval -> result (string * string)
}.

Record world : Type := mkworld {
  mem : store;
  sent : list pyval
}.

Definition W (A : Type) : Type := world -> result A * world.

(** A computation on the store alone, run in the world. *)
Definition in_mem {A} (m : M A) : W A :=
  fun w => let '(r, st) := m (mem w) in (r, mkworld st (sent w)).

Definition wbind {A B} (m : W A) (f : A -> W B) : W B :=
  fun w => match m w with
           | (Ok a, w') => f a w'
           | (Raise e, w') => (Raise e, w')
           end.

(** [self._db.save_doc(doc)]: the document goes out, and the answer is
    written into it. *)
Definition db_save_doc (db : database) (doc : jval) : W unit :=
  wbind (in_mem (tree_of_j doc)) (fun t =>
  fun w =>
    let w' := mkworld (mem w) (sent w ++ [t]) in
    match save_doc db t with
    | Ok (id, rev) =>
        in_mem (node_update doc (KStr "_id") (JS (SUni id)) ;;
                node_update doc (KStr "_rev") (JS (SUni rev))) w'
    | Raise e => (Raise e, w')
    end).

(** [DocumentBase.save] *)
Definition save (env : interp) (sch : schema) (db : option database)
  (self : instance) : W unit :=
  wbind (in_mem (validate env sch self true)) (fun _ =>
  match db with
  | None => fun w => (Raise TypeError, w)
  | Some d =>
      wbind (in_mem (to_json sch self)) (fun doc =>
      wbind (db_save_doc d doc) (fun _ =>
      (* '_id' and '_rev' of doc are copied into self._doc, which is doc *)
      fun w => (Ok tt, w)))
  end).

End Doc.

(** ** Notions used in the statements *)

Module Notions.
Import PyStr Re Cal Iso Dec Py Mem Props Doc.
Local Open Scope py_scope.

(** One line of the table that [month_day_of] is checked against: day
    [d] of month [m] is found again from its number within the year. *)
Definition month_day_case (leap : bool) (m d : nat) : bool :=
  let mz := Z.of_nat m in let dz := Z.of_nat d in
  implb ((1 <=? mz) && (mz <=? 12) && (1 <=? dz)
         && (dz <=? days_in_month_l leap mz))
    (let '(m', d') :=
       month_day_of leap (days_before_month_l leap mz + dz - 1) in
     (m' =? mz) && (d' =? dz)).

(** The text ends in no white space, so [strip] leaves its end alone. *)
Definition ends_ok (s : string) : Prop := rstrip_p is_space s = s.

(** The pieces of the text of a finite decimal: integer part, fraction
    and exponent. *)
Definition frac_text (fp : option string) : string :=
  match fp with Some f => "." ++ f | None => "" end.

Definition exp_text (ex : option Z) : string :=
  match ex with Some e => "E" ++ fmt_exp e | None => "" end.

Definition body (ip : string) (fp : option string) (ex : option Z) : string :=
  ip ++ frac_text fp ++ exp_text ex.

(** The order in which [value_to_python] tries the patterns, with the
    property class each one selects. *)
Definition precedence : list (Re.regex * kind) :=
  [(Re.re_date, KDate); (Re.re_time, KTime);
   (Re.re_datetime, KDateTime); (Re.re_decimal, KDecimal)].

(** The class of the first pattern, in that order, that matches. *)
Definition classify (x : string) : option kind :=
  match find (fun rk => Re.matches (fst rk) x) precedence with
  | Some rk => Some (snd rk)
  | None => None
  end.

(** The kinds whose values are scalars with a round trip to speak of. *)
Definition supported (k : kind) : bool :=
  match k with
  | KString | KInteger | KFloat | KBoolean | KDecimal
  | KDate | KTime | KDateTime => true
  | _ => false
  end.

(** The native values of a kind for which the round trip is claimed: an
    ASCII [str] or any [unicode]; any integer or boolean; a float or a
    decimal other than NaN; a date, a time or a datetime (naive, as the
    embedding has them) with no microseconds. *)
Definition non_pathological (k : kind) (s : scalar) : bool :=
  match k, s with
  | KString, SStr x => all_chars is_ascii x
  | KString, SUni _ => true
  | KInteger, SInt _ => true
  | KFloat, SFloat f => match f with S754_nan => false | _ => true end
  | KBoolean, SBool _ => true
  | KDecimal, SDecimal x => negb (Dec.is_nan x)
  | KDate, SDate x => date_ok x
  | KTime, STime x => time_ok x && (microsecond x =? 0)
  | KDateTime, SDateTime x => datetime_ok x && (microsecond (dt_time x) =? 0)
  | _, _ => false
  end.

(** [to_python(to_json(v)) == v] *)
Definition round_trips (env : interp) (k : kind) (auto_now : bool)
  (v : scalar) : bool :=
  match to_json_scalar env k auto_now v with
  | Ok j => match to_python_scalar env k j with
            | Ok v' => scalar_eqb v' v
            | Raise _ => false
            end
  | Raise _ => false
  end.

(** No full stop in the text: [split] on it returns the text whole. *)
Definition no_dot (s : string) : bool :=
  all_chars (fun a => negb (Ascii.eqb a ".")) s.

(** The store with the node at [l] replaced. *)
Definition with_node (st : store) (l : loc) (n : node) : store :=
  mkstore (<[l := n]> (nodes st)) (lazies st).

(** A [LazyDict] over a canonical node holding [t], built the way
    [DictProperty.to_python] builds it: the node is in the store, and the
    wrapper is constructed from its converted contents. *)
Definition lazy_dict_over (t : pyval) : M loc :=
  doc <- materialize t ;;
  w <- LazyDict_init t doc ;;
  match w with VLazy self => ret self | _ => raise RuntimeError end.

Definition lazy_list_over (t : pyval) : M loc :=
  doc <- materialize t ;;
  w <- LazyList_init t doc ;;
  match w with VLazy self => ret self | _ => raise RuntimeError end.

(** Every dict node of [st] is still a dict node in [st'] and has kept
    all its keys. *)
Definition keys_grow (st st' : store) : Prop :=
  forall l items, nodes st !! l = Some (NDict items) ->
    exists items', nodes st' !! l = Some (NDict items')
      /\ forall k, dict_has k items = true -> dict_has k items' = true.

(** A computation after which all dict nodes have kept their keys,
    whatever it returns or raises. *)
Definition mono {A} (m : M A) : Prop :=
  forall st r st', m st = (r, st') -> keys_grow st st'.

(** The canonical dict at [l] has an entry under [k]. *)
Definition has_field (st : store) (l : loc) (k : pykey) : Prop :=
  exists items, nodes st !! l = Some (NDict items)
                /\ dict_has k items = true.

(** [P] holds of whatever the computation returns. *)
Definition returns {A} (P : A -> Prop) (m : M A) : Prop :=
  forall st a st', m st = (Ok a, st') -> P a.

(** The loop of [wrap] over the keys of [data]. *)
Definition wrap_dynamic (env : interp) (sch : schema) (data : jval) :=
  fix each (keys : list pykey) (self : instance) : M instance :=
    match keys with
    | [] => ret self
    | KStr attr_name :: r =>
        j <- node_getitem data (KStr attr_name) ;;
        if has_key attr_name (_properties sch) then each r self
        else match j with
             | JS SNone => each r self
             | _ =>
                 if startswith "_" attr_name then each r self
                 else if String.eqb attr_name "doc_type" then each r self
                 else
                   t <- tree_of_j j ;;
                   self' <- setattr env sch self attr_name
                              (value_to_python env t) ;;
                   each r self'
             end
    | KInt i :: r =>
        j <- node_getitem data (KInt i) ;;
        match j with
        | JS SNone => each r self
        | _ => raise AttributeError
        end
    end.

(** A scalar that JSON can hold as it is. *)
Definition json_scalar (s : scalar) : bool :=
  match s with
  | SNone | SBool _ | SInt _ | SFloat _ | SStr _ | SUni _ => true
  | SDecimal _ | SDate _ | STime _ | SDateTime _ => false
  end.

(** A property of every scalar of a tree, at any depth. *)
Fixpoint all_leaves (P : scalar -> bool) (v : pyval) : bool :=
  match v with
  | PS s => P s
  | PList l => forallb (all_leaves P) l
  | PDict d => forallb (fun kv => all_leaves P (snd kv)) d
  end.

(** [type(value) == item_type], or no item type asked for. *)
Definition type_ok (item_type : option pytype) (s : scalar) : bool :=
  match item_type with
  | Some t => pytype_eqb (type_of_scalar s) t
  | None => true
  end.

(** [isinstance(value, basestring)] as a test. *)
Definition is_text (s : scalar) : bool :=
  match s with SStr _ | SUni _ => true | _ => false end.

(** A computation that leaves the store as it found it, whatever it
    returns or raises. *)
Definition pure {A} (m : M A) : Prop := forall st, snd (m st) = st.

(** [self.empty(value)] on a scalar. *)
Definition empty_scalar (k : kind) (s : scalar) : bool :=
  match k with
  | KInteger => match s with SNone => true | _ => false end
  | _ => negb (scalar_truth s)
  end.

(** The scalars that the type test of each class lets through. *)
Definition accepts (k : kind) (s : scalar) : bool :=
  match k with
  | KProperty | KDecimal => true
  | KString | KInteger | KFloat | KBoolean =>
      match s with SNone => true | _ => instance_of k s end
  | KDateTime | KDate | KTime => negb (scalar_truth s) || instance_of k s
  | KDict | KList => negb (scalar_truth s)
  end.

(** The descriptor with its [required] flag set to [b]. *)
Definition with_required (b : bool) (p : Property) : Property :=
  mkProperty (pkind p) (name p) (default p) b (validators p) (choices p)
    (auto_now p) (auto_now_add p) (item_type p).

(** What a wrapper of scalars holds, and what its canonical node holds
    when the two are in step: the same keys or positions in the same
    order, with the JSON form of each value. *)
Definition own_entries (items : list (pykey * scalar))
  : list (pykey * value) :=
  map (fun kv => (fst kv, VS (snd kv))) items.

Definition json_entries (items : list (pykey * scalar))
  : list (pykey * jval) :=
  map (fun kv => (fst kv, JS (scalar_to_json (snd kv)))) items.

(** A [LazyDict] of scalars in step with its canonical dict. *)
Definition flat_dict (st : store) (self : loc) : Prop :=
  exists (items : list (pykey * scalar)) (l : loc),
    lazies st !! self = Some (LDict (own_entries items) (JNode l))
    /\ nodes st !! l = Some (NDict (json_entries items)).

(** The store in which the wrapper [self] and its canonical dict [l] hold
    [items]. *)
Definition with_flat_dict (st : store) (self l : loc)
  (items : list (pykey * scalar)) : store :=
  mkstore (<[l := NDict (json_entries items)]> (nodes st))
    (<[self := LDict (own_entries items) (JNode l)]> (lazies st)).

(** A [LazyList] of scalars in step with its canonical list. *)
Definition flat_list (st : store) (self : loc) : Prop :=
  exists (items : list scalar) (l : loc),
    lazies st !! self = Some (LList (map VS items) (JNode l))
    /\ nodes st !! l
       = Some (NList (map (fun s => JS (scalar_to_json s)) items)).

(** The store in which the wrapper [self] and its canonical list [l] hold
    [items]. *)
Definition with_flat_list (st : store) (self l : loc) (items : list scalar)
  : store :=
  mkstore (<[l := NList (map (fun s => JS (scalar_to_json s)) items)]>
             (nodes st))
    (<[self := LList (map VS items) (JNode l)]> (lazies st)).

(** The mutations of a [LazyDict] with scalar values. *)
Inductive dict_op : Type :=
| DSet (key : pykey) (s : scalar)             (* d[key] = s *)
| DDel (key : pykey)                          (* del d[key] *)
| DSetdefault (key : pykey) (s : scalar)      (* d.setdefault(key, s) *)
| DUpdate (items : list (pykey * scalar))     (* d.update({...}) *)
| DClear.                                     (* d.clear() *)

Definition run_dict_op (self : loc) (op : dict_op) : M unit :=
  match op with
  | DSet key s => LazyDict_setitem self key (PS s)
  | DDel key => LazyDict_delitem self key
  | DSetdefault key s => LazyDict_setdefault self key (PS s) ;; ret tt
  | DUpdate items =>
      LazyDict_update self (PDict (map (fun kv => (fst kv, PS (snd kv))) items))
  | DClear => LazyDict_clear self
  end.

(** The mutations of a [LazyList] with scalar values. *)
Inductive list_op : Type :=
| LSet (index : Z) (s : scalar)               (* l[index] = s *)
| LDel (index : Z)                            (* del l[index] *)
| LAppend (s : scalar).                       (* l.append(s) *)

Definition run_list_op (self : loc) (op : list_op) : M unit :=
  match op with
  | LSet index s => LazyList_setitem self index (PS s)
  | LDel index => LazyList_delitem self index
  | LAppend s => LazyList_append self (PS s)
  end.

(** The store after a sequence of computations, each run whether or not
    the one before raised. *)
Definition after {A} (ms : list (M A)) (st : store) : store :=
  fold_left (fun st m => exec m st) ms st.

(** The loop of [__init__] over the keyword arguments that are left. *)
Definition init_dynamic (env : interp) (sch : schema) :=
  fix dynamic (l : list (string * pyval)) (self : instance) : M instance :=
    match l with
    | [] => ret self
    | (attr_name, v) :: r =>
        if negb (has_key attr_name (_properties sch))
           && negb (match v with PS SNone => true | _ => false end)
        then self' <- setattr env sch self attr_name v ;; dynamic r self'
        else dynamic r self
    end.

(** A name that [hasattr] does not find on the instance. *)
Definition unknown (sch : schema) (self : instance) (key : string) : bool :=
  negb (has_key key (_properties sch))
  && negb (str_in key (class_attrs sch))
  && negb (has_key key (own_attrs self))
  && negb (has_key key (_dynamic_properties self))
  && negb (str_in key ["_id"; "_rev"; "_doc"; "_db"; "_dynamic_properties";
                       "_allow_dynamic_properties"; "_properties";
                       "_doc_type"]).

(** [value.replace(microsecond=0)] on a time or a datetime. *)
Definition whole_seconds (s : scalar) : scalar :=
  match s with
  | SDateTime x =>
      SDateTime (mkdatetime (dt_date x) (replace_microsecond0 (dt_time x)))
  | STime x => STime (replace_microsecond0 x)
  | _ => s
  end.

(** A datetime for [DateTimeProperty] or a time for [TimeProperty], with
    its fields in range. *)
Definition moment_ok (k : kind) (s : scalar) : bool :=
  match k, s with
  | KDateTime, SDateTime x => datetime_ok x
  | KTime, STime x => time_ok x
  | _, _ => false
  end.

(** A canonical dict or list that holds scalars only. *)
Definition scalar_entries (js : list (pykey * scalar)) : list (pykey * jval) :=
  map (fun kv => (fst kv, JS (snd kv))) js.

(** The entries with [value_to_python] applied to each value. *)
Definition python_entries (env : interp) (js : list (pykey * scalar))
  : list (pykey * scalar) :=
  map (fun kv => (fst kv, scalar_to_python env (snd kv))) js.

(** No two entries under the same key, as in any dict. *)
Fixpoint distinct_keys {V} (d : list (pykey * V)) : bool :=
  match d with
  | [] => true
  | (k, _) :: d' => negb (dict_has k d') && distinct_keys d'
  end.

(** The loop of [LazyDict.__init__]: one [__setitem__] per entry. *)
Definition LazyDict_fill (self : loc) :=
  fix each (items : list (pykey * pyval)) : M unit :=
    match items with
    | [] => ret tt
    | (key, x) :: r => bind (LazyDict_setitem self key x) (fun _ => each r)
    end.

(** The loop of [LazyList.__init__]: one [__setitem__] per position. *)
Definition LazyList_fill (self : loc) :=
  fix each (idx : Z) (items : list pyval) : M unit :=
    match items with
    | [] => ret tt
    | x :: r =>
        bind (LazyList_setitem self idx x) (fun _ => each (idx + 1) r)
    end.

(** The longest text an expression can consume, when there is one. *)
Fixpoint max_len (r : regex) : option nat :=
  match r with
  | Eps => Some O
  | Chr _ => Some 1%nat
  | Seq r1 r2 =>
      match max_len r1, max_len r2 with
      | Some a, Some b => Some (a + b)%nat
      | _, _ => None
      end
  | Alt r1 r2 =>
      match max_len r1, max_len r2 with
      | Some a, Some b => Some (Nat.max a b)
      | _, _ => None
      end
  | Opt r1 => max_len r1
  | Plus _ => None
  end.

(** The expression can consume exactly the text [p], whatever follows. *)
Definition consumes (r : regex) (p : string) : Prop :=
  forall rest k, k rest = true -> run r (p ++ rest) k = true.

(** The scalars that [value_to_json] followed by [value_to_python] gives
    back: those JSON holds as they are, text that looks like no date,
    time or decimal, and dates, times and datetimes with fields in range
    and no microseconds. *)
Definition plain (s : scalar) : bool :=
  match s with
  | SNone | SBool _ | SInt _ | SFloat _ => true
  | SStr x | SUni x =>
      match detect_type x with None => true | Some _ => false end
  | SDecimal _ => false
  | SDate x => date_ok x
  | STime x => time_ok x && (microsecond x =? 0)
  | SDateTime x => datetime_ok x && (microsecond (dt_time x) =? 0)
  end.

(** The classes whose values are scalars. *)
Definition scalar_kind (k : kind) : bool :=
  match k with KDict | KList => false | _ => true end.

(** The loop of [DocumentSchema.validate] over the keys of [_doc]. *)
Definition validate_each (env : interp) (sch : schema) (self : instance)
  (required_arg : bool) :=
  fix each (keys : list pykey) : M unit :=
    match keys with
    | [] => ret tt
    | KStr attr_name :: r =>
        match lookup attr_name (_properties sch) with
        | Some p =>
            v <- getattr_declared env p self ;;
            Props.validate p v required_arg ;;
            each r
        | None => each r
        end
    | KInt _ :: r => each r
    end.

End Notions.

(** ** Sample values *)

Module Samples.
Import PyStr Cal Py Mem Props Doc Notions.
Local Open Scope py_scope.

(** The reading of the clock in the examples. *)
Definition noon_2020 : datetime :=
  mkdatetime (mkdate 2020 1 1) (mktime 12 0 0 0).

Definition created_2008 : scalar :=
  SDateTime (mkdatetime (mkdate 2008 11 10) (mktime 8 0 0 0)).

(** [StringProperty(name="name", default=u"x")] *)
Definition name_with_default_x : Property :=
  mkProperty KString "name" (DLit (PS (SUni "x"))) false NoValidators []
    false false None.

(** A document whose canonical dict no longer has the key, as after
    [del doc.name]. *)
Definition store_empty_doc : store := mkstore [NDict []] [].

Definition store_named_doc : store :=
  mkstore [NDict [(KStr "name", JS (SUni "y"))]] [].

(** [StringProperty(name="letter", choices=["a", "b"])] *)
Definition letter_a_or_b : Property :=
  mkProperty KString "letter" (DLit (PS SNone)) false NoValidators
    [SStr "a"; SStr "b"] false false None.

(** A required property of class [k]. *)
Definition required_of (k : kind) : Property :=
  mkProperty k "field" (DLit (PS SNone)) true NoValidators []
    false false None.

Definition plain_name : Property := make KString "name".

(** The list [1, 2], alone and under the key "a". *)
Definition one_two : pyval := PList [PS (SInt 1); PS (SInt 2)].

Definition a_one_two : pyval := PDict [(KStr "a", one_two)].

(** The wrapper over {"a": [1, 2]}, then [d["a"] = [7]]. *)
Definition st_before : store := exec (lazy_dict_over a_one_two) empty_store.

Definition assign_a_7 : M unit :=
  LazyDict_setitem 0%nat (KStr "a") (PList [PS (SInt 7)]).

Definition st_after : store := exec assign_a_7 st_before.

(** A [LazyDict] over {} and a [LazyList] over [0]. *)
Definition st_empty_dict : store := exec (lazy_dict_over (PDict [])) empty_store.

Definition st_list_zero : store :=
  exec (lazy_list_over (PList [PS (SInt 0)])) empty_store.

(** A class with a required string [name] and an integer [count]. *)
Definition Person : schema :=
  mkschema
    [("name", mkProperty KString "name" (DLit (PS SNone)) true
                NoValidators [] false false None);
     ("count", make KInteger "count")]
    "Person" true [].

(** The caller's mapping, with a null name and a key that is not
    declared. *)
Definition st_data : store :=
  mkstore [NDict [(KStr "name", JS SNone); (KStr "tag", JS (SUni "x"))]] [].

Definition wrapped_Person : result instance * store :=
  wrap (sample_env noon_2020) Person (JNode 0) st_data.

Definition Person_instance : instance :=
  match fst wrapped_Person with
  | Ok self => self
  | Raise _ => mkinstance (JS SNone) [] []
  end.

(** A database that accepts every document. *)
Definition accepting : database :=
  {| save_doc := fun _ => Ok ("person-1", "1-abc") |}.

(** An instance over that mapping, in a world where nothing has been
    sent. *)
Definition unnamed : instance := mkinstance (JNode 0) [] [].

Definition w_unnamed : world := mkworld st_data [].

(** [Person] as a class that allows no dynamic properties. *)
Definition StaticPerson : schema :=
  mkschema (_properties Person) "Person" false [].

(** An instance over a canonical document that holds a name. *)
Definition named : instance := mkinstance (JNode 0) [] [].

Definition w_named : world := mkworld store_named_doc [].

(** A canonical document whose field "d" is a dict of scalars and whose
    field "l" is a list of scalars. *)
Definition st_flat : store :=
  mkstore
    [NDict [(KStr "d", JNode 1); (KStr "l", JNode 2)];
     NDict [(KStr "day", JS (SStr "2008-11-10")); (KStr "n", JS (SInt 3))];
     NList [JS (SStr "08:30:15"); JS SNone]]
    [].

(** A [LazyDict] over the canonical dict {"n": 3}. *)
Definition st_wrapped : store :=
  mkstore [NDict [(KStr "n", JS (SInt 3))]]
    [LDict [(KStr "n", VS (SInt 3))] (JNode 0)].

End Samples.


(** * Properties *)

Example re_date_ex : Re.matches Re.re_date "2008-11-10" = true.
Proof. reflexivity. Qed.
Example re_time_ex : Re.matches Re.re_time "08:00:00" = true.
Proof. reflexivity. Qed.
Example re_datetime_ex :
  Re.matches Re.re_datetime "2008-11-10T08:00:00Z" = true
  /\ Re.matches Re.re_date "2008-11-10T08:00:00Z" = false
  /\ Re.matches Re.re_time "2008-11-10T08:00:00Z" = false.
Proof. repeat split; reflexivity. Qed.
Example re_decimal_ex :
  Re.matches Re.re_decimal "1.5" = true
  /\ Re.matches Re.re_decimal "12345" = true
  /\ Re.matches Re.re_decimal "abc" = false.
Proof. repeat split; reflexivity. Qed.

Module StrFacts.
Import PyStr Notions Samples.

Lemma app_assoc (a b c : string) : ((a ++ b) ++ c = a ++ (b ++ c))%string.
Proof. induction a; simpl; congruence. Qed.

Lemma app_nil_r (a : string) : (a ++ "")%string = a.
Proof. induction a; simpl; congruence. Qed.

Lemma length_app (a b : string) :
  String.length (a ++ b) = (String.length a + String.length b)%nat.
Proof. induction a; simpl; congruence. Qed.

Lemma length_replicate n c : String.length (replicate_chr n c) = n.
Proof. induction n; simpl; congruence. Qed.

Lemma all_chars_app p (a b : string) :
  all_chars p (a ++ b) = all_chars p a && all_chars p b.
Proof. induction a; simpl; [reflexivity|]. rewrite IHa, andb_assoc. reflexivity. Qed.

Lemma take_drop n (s : string) : (take n s ++ drop n s)%string = s.
Proof. revert s. induction n; intros [|a s]; simpl; try reflexivity. rewrite IHn. reflexivity. Qed.

Lemma length_drop n (s : string) :
  String.length (drop n s) = (String.length s - n)%nat.
Proof. revert s. induction n; intros [|a s]; simpl; auto. Qed.

Lemma length_take n (s : string) :
  (n <= String.length s)%nat -> String.length (take n s) = n.
Proof.
  revert s. induction n; intros [|a s]; simpl; intros H; try reflexivity; try lia.
  rewrite IHn by lia. reflexivity.
Qed.

Lemma span_digits_app (ds r : string) :
  all_chars is_digit ds = true ->
  match r with String a _ => is_digit a = false | EmptyString => True end ->
  span_digits (ds ++ r) = (ds, r).
Proof.
  intros Hd Hr. induction ds as [|a ds IH]; simpl in *.
  - destruct r as [|a r]; [reflexivity|]. simpl. rewrite Hr. reflexivity.
  - apply andb_true_iff in Hd. destruct Hd as [Ha Hd]. rewrite Ha, (IH Hd). reflexivity.
Qed.

Lemma digits_string_of_uint d :
  all_chars is_digit (NilEmpty.string_of_uint d) = true.
Proof. induction d; simpl; auto. Qed.

Lemma digits_of_N_digits n : all_chars is_digit (digits_of_N n) = true.
Proof.
  unfold digits_of_N, NilZero.string_of_uint.
  destruct (N.to_uint n) eqn:E; try reflexivity; rewrite <- E; apply digits_string_of_uint.
Qed.

Lemma digits_of_N_cons n : exists a r, digits_of_N n = String a r /\ is_digit a = true.
Proof.
  pose proof (digits_of_N_digits n) as H.
  destruct (digits_of_N n) as [|a r] eqn:E.
  - unfold digits_of_N, NilZero.string_of_uint in E.
    destruct (N.to_uint n); discriminate.
  - simpl in H. apply andb_true_iff in H. exists a, r. tauto.
Qed.

Lemma N_to_uint_nonnil n : N.to_uint n <> Decimal.Nil.
Proof.
  destruct n; simpl; [discriminate|]. apply DecimalPos.Unsigned.to_uint_nonnil.
Qed.

Lemma N_of_digits_of_N n : N_of_digits (digits_of_N n) = Some n.
Proof.
  unfold N_of_digits, digits_of_N.
  rewrite NilZero.usu by apply N_to_uint_nonnil. simpl.
  rewrite DecimalN.Unsigned.of_to. reflexivity.
Qed.

Lemma N_of_digits_zero (s : string) :
  s <> "" -> N_of_digits (String "0" s) = N_of_digits s.
Proof.
  intros H. destruct s as [|a s]; [congruence|].
  unfold N_of_digits, NilZero.uint_of_string.
  change (NilEmpty.uint_of_string (String "0" (String a s)))
    with (uint_of_char "0" (NilEmpty.uint_of_string (String a s))).
  destruct (NilEmpty.uint_of_string (String a s)); reflexivity.
Qed.

Lemma N_of_digits_zeros k (s : string) :
  s <> "" -> N_of_digits (replicate_chr k "0" ++ s) = N_of_digits s.
Proof.
  intros H. induction k; simpl; [reflexivity|].
  rewrite N_of_digits_zero; [assumption|].
  destruct k; simpl; [assumption|discriminate].
Qed.

Lemma rstrip_p_keep p (s : string) (c : ascii) :
  p c = false -> rstrip_p p (s ++ String c "") = (s ++ String c "")%string.
Proof.
  intros H. induction s as [|a s IH]; simpl.
  - rewrite H. reflexivity.
  - rewrite IH. destruct s; reflexivity.
Qed.

Lemma digit_not_space a : is_digit a = true -> is_space a = false.
Proof.
  destruct a as [[|] [|] [|] [|] [|] [|] [|] [|]]; vm_compute; congruence.
Qed.

(** A non-empty digit string ends with a digit. *)
Lemma digits_snoc (s : string) :
  s <> "" -> all_chars is_digit s = true ->
  exists s' c, s = (s' ++ String c "")%string /\ is_digit c = true.
Proof.
  induction s as [|a s IH]; [congruence|]. intros _ H. simpl in H.
  apply andb_true_iff in H. destruct H as [Ha Hs].
  destruct s as [|b s].
  - exists "", a. auto.
  - destruct IH as (s' & c & E & Hc); [discriminate|assumption|].
    exists (String a s'), c. simpl. rewrite E. auto.
Qed.

End StrFacts.

Module CalFacts.
Import Cal Notions Samples.

Lemma days_before_year_split (a b c e : Z) :
  0 <= b < 4 -> 0 <= c < 25 -> 0 <= e < 4 ->
  days_before_year (400 * a + 100 * b + 4 * c + e + 1)
  = 146097 * a + 36524 * b + 1461 * c + 365 * e.
Proof.
  intros Hb Hc He. unfold days_before_year. cbv zeta.
  replace (400 * a + 100 * b + 4 * c + e + 1 - 1)
    with (400 * a + 100 * b + 4 * c + e) by lia.
  assert (H4 : (400 * a + 100 * b + 4 * c + e) / 4 = 100 * a + 25 * b + c)
    by (symmetry; apply Z.div_unique with e; lia).
  assert (H100 : (400 * a + 100 * b + 4 * c + e) / 100 = 4 * a + b)
    by (symmetry; apply Z.div_unique with (4 * c + e); lia).
  assert (H400 : (400 * a + 100 * b + 4 * c + e) / 400 = a)
    by (symmetry; apply Z.div_unique with (100 * b + 4 * c + e); lia).
  rewrite H4, H100, H400. lia.
Qed.

Lemma is_leap_split (a b c e : Z) :
  0 <= b < 4 -> 0 <= c < 25 -> 0 <= e < 4 ->
  is_leap (400 * a + 100 * b + 4 * c + e + 1)
  = (e =? 3) && (negb (c =? 24) || (b =? 3)).
Proof.
  intros Hb Hc He. unfold is_leap.
  set (y := 400 * a + 100 * b + 4 * c + e + 1).
  assert (M4 : y mod 4 = (e + 1) mod 4).
  { unfold y. replace (400 * a + 100 * b + 4 * c + e + 1)
      with ((e + 1) + (100 * a + 25 * b + c) * 4) by lia.
    apply Z.mod_add. lia. }
  assert (M100 : y mod 100 = (4 * c + e + 1) mod 100).
  { unfold y. replace (400 * a + 100 * b + 4 * c + e + 1)
      with ((4 * c + e + 1) + (4 * a + b) * 100) by lia.
    apply Z.mod_add. lia. }
  assert (M400 : y mod 400 = (100 * b + 4 * c + e + 1) mod 400).
  { unfold y. replace (400 * a + 100 * b + 4 * c + e + 1)
      with ((100 * b + 4 * c + e + 1) + a * 400) by lia.
    apply Z.mod_add. lia. }
  rewrite M4, M100, M400.
  destruct (Z.eqb_spec e 3) as [->|Ne].
  - destruct (Z.eqb_spec c 24) as [->|Nc].
    + destruct (Z.eqb_spec b 3) as [->|Nb]; [reflexivity|].
      assert (b = 0 \/ b = 1 \/ b = 2) as [->|[->| ->]] by lia; reflexivity.
    + replace ((3 + 1) mod 4) with 0 by reflexivity. simpl.
      rewrite (Z.mod_small (4 * c + 3 + 1) 100) by lia.
      destruct (Z.eqb_spec (4 * c + 3 + 1) 0); [lia|reflexivity].
  - rewrite (Z.mod_small (e + 1) 4) by lia.
    destruct (Z.eqb_spec (e + 1) 0); [lia|reflexivity].
Qed.

Lemma month_day_table :
  forallb (fun leap =>
    forallb (fun m => forallb (month_day_case leap m) (seq 0 32))
      (seq 0 13)) [true; false] = true.
Proof. vm_compute. reflexivity. Qed.

Lemma month_day_of_correct (leap : bool) (m d : Z) :
  1 <= m <= 12 -> 1 <= d <= days_in_month_l leap m ->
  month_day_of leap (days_before_month_l leap m + d - 1) = (m, d).
Proof.
  intros Hm Hd.
  assert (Hd31 : d <= 31).
  { unfold days_in_month_l, days_in_month_tbl, b2z in Hd.
    destruct leap;
      assert (m = 1 \/ m = 2 \/ m = 3 \/ m = 4 \/ m = 5 \/ m = 6 \/ m = 7
              \/ m = 8 \/ m = 9 \/ m = 10 \/ m = 11 \/ m = 12) as Hc by lia;
      repeat (destruct Hc as [->|Hc]); try subst m; simpl in Hd; lia. }
  pose proof month_day_table as T.
  rewrite forallb_forall in T.
  assert (Hl : In leap [true; false]) by (destruct leap; simpl; auto).
  specialize (T leap Hl). rewrite forallb_forall in T.
  assert (Hmi : In (Z.to_nat m) (seq 0 13)) by (apply in_seq; lia).
  specialize (T _ Hmi). rewrite forallb_forall in T.
  assert (Hdi : In (Z.to_nat d) (seq 0 32)) by (apply in_seq; lia).
  specialize (T _ Hdi). unfold month_day_case in T.
  rewrite !Z2Nat.id in T by lia. cbv zeta in T.
  assert (G : (1 <=? m) && (m <=? 12) && (1 <=? d)
              && (d <=? days_in_month_l leap m) = true).
  { rewrite !andb_true_iff. repeat split; apply Z.leb_le; lia. }
  rewrite G in T. simpl in T.
  destruct (month_day_of leap (days_before_month_l leap m + d - 1))
    as [m' d'].
  apply andb_true_iff in T. destruct T as [T1 T2].
  apply Z.eqb_eq in T1, T2. congruence.
Qed.

Lemma days_before_month_l_range (leap : bool) (m d : Z) :
  1 <= m <= 12 -> 1 <= d <= days_in_month_l leap m ->
  0 <= days_before_month_l leap m + d - 1 < 365 + b2z leap.
Proof.
  intros Hm Hd. unfold days_before_month_l, days_in_month_l in *.
  assert (m = 1 \/ m = 2 \/ m = 3 \/ m = 4 \/ m = 5 \/ m = 6 \/ m = 7
          \/ m = 8 \/ m = 9 \/ m = 10 \/ m = 11 \/ m = 12) as Hc by lia.
  destruct leap; repeat (destruct Hc as [->|Hc]); try subst m;
    simpl in *; lia.
Qed.

Lemma divmod_eq (x k q r : Z) :
  0 <= r < k -> x = k * q + r -> x / k = q /\ x mod k = r.
Proof.
  intros Hr Hx. split; symmetry.
  - apply Z.div_unique with r; lia.
  - apply Z.mod_unique with q; lia.
Qed.

Ltac divmod k q r :=
  match goal with
  | |- context [ ?x / k ] =>
      let H := fresh in
      destruct (divmod_eq x k q r) as [H ?]; [lia | lia |];
      rewrite ?H; clear H
  end;
  match goal with
  | H : _ mod k = _ |- _ => rewrite ?H; clear H
  end.

Lemma ord2ymd_split (a b c e n : Z) :
  0 <= b < 4 -> 0 <= c < 25 -> 0 <= e < 4 -> 0 <= n <= 365 ->
  (n = 365 -> e = 3 /\ (c <> 24 \/ b = 3)) ->
  ord2ymd (146097 * a + 36524 * b + 1461 * c + 365 * e + n + 1)
  = if n =? 365 then (400 * a + 100 * b + 4 * c + e + 1, 12, 31)
    else let '(m, d) :=
           month_day_of ((e =? 3) && (negb (c =? 24) || (b =? 3))) n in
         (400 * a + 100 * b + 4 * c + e + 1, m, d).
Proof.
  intros Hb Hc He Hn Hl. unfold ord2ymd. cbv zeta.
  replace (146097 * a + 36524 * b + 1461 * c + 365 * e + n + 1 - 1)
    with (146097 * a + 36524 * b + 1461 * c + 365 * e + n) by lia.
  destruct (Z.eqb_spec n 365) as [E|NE].
  - destruct (Hl E) as [-> Hcb]. subst n.
    divmod 146097 a (36524 * b + 1461 * c + 1460).
    destruct (Z.eq_dec c 24) as [->|Nc].
    + assert (b = 3) by lia. subst b.
      divmod 36524 4 0. rewrite Zmod_0_l, !Zdiv_0_l. simpl. f_equal. f_equal. lia.
    + divmod 36524 b (1461 * c + 1460).
      divmod 1461 c 1460.
      change (1460 / 365) with 4. simpl. f_equal. f_equal. lia.
  - divmod 146097 a (36524 * b + 1461 * c + 365 * e + n).
    divmod 36524 b (1461 * c + 365 * e + n).
    divmod 1461 c (365 * e + n).
    divmod 365 e n.
    destruct (Z.eqb_spec e 4); [lia|].
    destruct (Z.eqb_spec b 4); [lia|]. simpl.
    destruct (month_day_of _ n). f_equal. f_equal. lia.
Qed.

Lemma ord2ymd_ymd2ord (y m d : Z) :
  1 <= m <= 12 -> 1 <= d <= days_in_month y m ->
  ord2ymd (ymd2ord y m d) = (y, m, d).
Proof.
  intros Hm Hd.
  set (Y := y - 1).
  set (a := Y / 400). set (r := Y mod 400).
  set (b := r / 100). set (r2 := r mod 100).
  set (c := r2 / 4). set (e := r2 mod 4).
  assert (HY : y = 400 * a + 100 * b + 4 * c + e + 1).
  { unfold a, b, c, e, r2, r.
    pose proof (Z.div_mod Y 400 ltac:(lia)).
    pose proof (Z.div_mod (Y mod 400) 100 ltac:(lia)).
    pose proof (Z.div_mod ((Y mod 400) mod 100) 4 ltac:(lia)).
    unfold Y in *. lia. }
  assert (Hb : 0 <= b < 4).
  { unfold b, r. pose proof (Z.mod_pos_bound Y 400 ltac:(lia)).
    split; [apply Z.div_pos; lia | apply Z.div_lt_upper_bound; lia]. }
  assert (Hc : 0 <= c < 25).
  { unfold c, r2. pose proof (Z.mod_pos_bound r 100 ltac:(lia)).
    split; [apply Z.div_pos; lia | apply Z.div_lt_upper_bound; lia]. }
  assert (He : 0 <= e < 4) by (unfold e; apply Z.mod_pos_bound; lia).
  clearbody a b c e. clear Y r r2.
  unfold days_in_month in Hd.
  pose proof (days_before_month_l_range (is_leap y) m d Hm Hd) as Hn.
  pose proof (month_day_of_correct (is_leap y) m d Hm Hd) as Hmd.
  unfold ymd2ord, days_before_month.
  replace (days_before_year y + days_before_month_l (is_leap y) m + d)
    with (days_before_year y
          + (days_before_month_l (is_leap y) m + d - 1) + 1) by lia.
  set (n := days_before_month_l (is_leap y) m + d - 1) in *.
  clearbody n. subst y.
  rewrite days_before_year_split by assumption.
  rewrite is_leap_split in * by assumption.
  set (leap := (e =? 3) && (negb (c =? 24) || (b =? 3))) in *.
  assert (Hleap : n = 365 -> e = 3 /\ (c <> 24 \/ b = 3)).
  { intros E. destruct leap eqn:L; [|simpl in Hn; lia].
    unfold leap in L. apply andb_true_iff in L. destruct L as [L1 L2].
    apply Z.eqb_eq in L1. apply orb_true_iff in L2. split; [assumption|].
    destruct L2 as [L2|L2];
      [left; apply negb_true_iff, Z.eqb_neq in L2; assumption
      |right; apply Z.eqb_eq in L2; assumption]. }
  assert (Hn' : 0 <= n <= 365) by (destruct leap; simpl in Hn; lia).
  rewrite ord2ymd_split by assumption. fold leap. rewrite Hmd.
  destruct (Z.eqb_spec n 365) as [E|NE]; [|reflexivity].
  (* the last day of a leap year *)
  rewrite E in Hmd.
  assert (L : leap = true) by (destruct leap; [reflexivity|simpl in Hn; lia]).
  rewrite L in Hmd. vm_compute in Hmd. congruence.
Qed.

Lemma utcfromtimestamp_timegm (dt : datetime) :
  datetime_ok dt = true -> microsecond (dt_time dt) = 0 ->
  let d := dt_date dt in let t := dt_time dt in
  utcfromtimestamp
    (timegm (year d) (month d) (day d) (hour t) (minute t) (second t))
  = Some dt.
Proof.
  destruct dt as [[y m d] [hh mm ss us]]. unfold datetime_ok, date_ok, time_ok.
  simpl. intros H Hus. subst us.
  repeat (apply andb_true_iff in H; destruct H as [H ?]).
  repeat match goal with
         | H : (_ <=? _) = true |- _ => apply Z.leb_le in H
         | H : (_ <? _) = true |- _ => apply Z.ltb_lt in H
         end.
  unfold utcfromtimestamp, timegm. cbv zeta.
  set (o := ymd2ord y m 1).
  assert (Ho : ymd2ord y m d = o + d - 1) by (unfold o, ymd2ord; lia).
  destruct (divmod_eq
              ((((o - EPOCH_ORD + d - 1) * 24 + hh) * 60 + mm) * 60 + ss)
              86400 (o - EPOCH_ORD + d - 1) (hh * 3600 + mm * 60 + ss))
    as [-> ->]; [lia | lia |].
  replace (o - EPOCH_ORD + d - 1 + EPOCH_ORD) with (ymd2ord y m d) by lia.
  rewrite ord2ymd_ymd2ord by lia.
  assert (G : (1 <=? y) && (y <=? 9999) = true)
    by (apply andb_true_iff; split; apply Z.leb_le; lia).
  rewrite G.
  destruct (divmod_eq (hh * 3600 + mm * 60 + ss) 3600 hh (mm * 60 + ss))
    as [-> ->]; [lia | lia |].
  destruct (divmod_eq (mm * 60 + ss) 60 mm ss) as [-> _]; [lia | lia |].
  destruct (divmod_eq (hh * 3600 + mm * 60 + ss) 60 (hh * 60 + mm) ss)
    as [_ ->]; [lia | lia |].
  reflexivity.
Qed.

End CalFacts.

Module IsoFacts.
Import PyStr Cal Iso StrFacts Notions Samples.

Lemma hd_pbind {A B} (p : parser A) (f : A -> parser B) s a r x :
  hd_error (p s) = Some (a, r) -> hd_error (f a r) = Some x ->
  hd_error (pbind p f s) = Some x.
Proof.
  unfold pbind. destruct (p s) as [|[a' r'] tl]; [discriminate|].
  simpl. intros [= -> ->]. destruct (f a r); [discriminate|].
  simpl. auto.
Qed.

Lemma whole_hd {A} (p : parser A) s a :
  hd_error (p s) = Some (a, "") -> whole p s = Some a.
Proof.
  unfold whole. destruct (p s) as [|[a' r'] tl]; [discriminate|].
  simpl. intros [= -> ->]. reflexivity.
Qed.

(** Enumerate an integer known to lie in [lo, lo + n). *)
Ltac enum x lo n :=
  let k := fresh "k" in let i := fresh "i" in let Hi := fresh "Hi" in
  assert (k : exists i : nat, (i < n)%nat /\ x = lo + Z.of_nat i);
    [ exists (Z.to_nat (x - lo)); lia | ];
  destruct k as [i [Hi ->]];
  repeat (destruct i as [|i]; [ | apply <- Nat.succ_lt_mono in Hi ]);
  [ .. | exfalso; inversion Hi ].

Lemma digit_chr_ok (x : Z) :
  0 <= x <= 9 -> is_digit (digit_chr x) = true /\ digit_val (digit_chr x) = x.
Proof. intros H. enum x 0 10%nat; split; reflexivity. Qed.

Lemma d_Y_fmt4 (y : Z) (r : string) :
  0 <= y <= 9999 -> hd_error (d_Y (fmt4 y ++ r)) = Some (y, r).
Proof.
  intros H. unfold fmt4, fmt2. simpl.
  assert (D3 : 0 <= y / 1000 <= 9).
  { assert (y / 1000 < 10) by (apply Z.div_lt_upper_bound; lia).
    assert (0 <= y / 1000) by (apply Z.div_pos; lia). lia. }
  assert (D2 : 0 <= y / 100 mod 10 <= 9)
    by (pose proof (Z.mod_pos_bound (y / 100) 10); lia).
  assert (D1 : 0 <= y mod 100 / 10 <= 9).
  { pose proof (Z.mod_pos_bound y 100).
    assert (y mod 100 / 10 < 10) by (apply Z.div_lt_upper_bound; lia).
    assert (0 <= y mod 100 / 10) by (apply Z.div_pos; lia). lia. }
  assert (D0 : 0 <= y mod 100 mod 10 <= 9)
    by (pose proof (Z.mod_pos_bound (y mod 100) 10); lia).
  destruct (digit_chr_ok _ D3) as [a3 b3].
  destruct (digit_chr_ok _ D2) as [a2 b2].
  destruct (digit_chr_ok _ D1) as [a1 b1].
  destruct (digit_chr_ok _ D0) as [a0 b0].
  unfold d_Y, pbind, two, pret. simpl.
  rewrite a3, a2. simpl. rewrite a1, a0. simpl.
  rewrite b3, b2, b1, b0. f_equal. f_equal.
  pose proof (Z.div_mod y 100 ltac:(lia)).
  pose proof (Z.div_mod (y mod 100) 10 ltac:(lia)).
  pose proof (Z.div_mod (y / 100) 10 ltac:(lia)).
  assert (y / 100 / 10 = y / 1000) by (rewrite Z.div_div by lia; reflexivity).
  lia.
Qed.

Lemma d_m_fmt2 (m : Z) (r : string) :
  1 <= m <= 12 -> hd_error (d_m (fmt2 m ++ r)) = Some (m, r).
Proof. intros H. enum m 1 12%nat; reflexivity. Qed.

Lemma d_d_fmt2 (x : Z) (r : string) :
  1 <= x <= 31 -> hd_error (d_d (fmt2 x ++ r)) = Some (x, r).
Proof. intros H. enum x 1 31%nat; reflexivity. Qed.

Lemma d_H_fmt2 (x : Z) (r : string) :
  0 <= x < 24 -> hd_error (d_H (fmt2 x ++ r)) = Some (x, r).
Proof. intros H. enum x 0 24%nat; reflexivity. Qed.

Lemma d_M_fmt2 (x : Z) (r : string) :
  0 <= x < 60 -> hd_error (d_M (fmt2 x ++ r)) = Some (x, r).
Proof. intros H. enum x 0 60%nat; reflexivity. Qed.

Lemma d_S_fmt2 (x : Z) (r : string) :
  0 <= x < 60 -> hd_error (d_S (fmt2 x ++ r)) = Some (x, r).
Proof. intros H. enum x 0 60%nat; reflexivity. Qed.

Lemma days_in_month_le_31 (y m : Z) : days_in_month y m <= 31.
Proof.
  unfold days_in_month, days_in_month_l, days_in_month_tbl, b2z.
  destruct (is_leap y); destruct m as [|p|p]; simpl; try lia;
    repeat (destruct p as [p|p|]; simpl; try lia).
Qed.

Lemma p_ymd_isoformat (d : date) (r : string) :
  date_ok d = true ->
  hd_error (p_ymd (date_isoformat d ++ r)) = Some ((year d, month d, day d), r).
Proof.
  destruct d as [y m d]. unfold date_ok, date_isoformat.
  cbn [year month day]. intros H.
  repeat (apply andb_true_iff in H; destruct H as [H ?]).
  repeat match goal with
         | H : (_ <=? _) = true |- _ => apply Z.leb_le in H
         end.
  pose proof (days_in_month_le_31 y m).
  unfold p_ymd. rewrite !app_assoc.
  eapply hd_pbind; [apply d_Y_fmt4; lia|].
  eapply hd_pbind; [reflexivity|].
  eapply hd_pbind; [apply d_m_fmt2; lia|].
  eapply hd_pbind; [reflexivity|].
  eapply hd_pbind; [apply d_d_fmt2; lia|].
  reflexivity.
Qed.

Lemma p_hms_isoformat (t : time) (r : string) :
  time_ok t = true -> microsecond t = 0 ->
  hd_error (p_hms (time_isoformat t ++ r))
  = Some ((hour t, minute t, second t), r).
Proof.
  destruct t as [hh mm ss us]. unfold time_ok, time_isoformat.
  cbn [hour minute second microsecond]. intros H ->.
  repeat (apply andb_true_iff in H; destruct H as [H ?]).
  repeat match goal with
         | H : (_ <=? _) = true |- _ => apply Z.leb_le in H
         | H : (_ <? _) = true |- _ => apply Z.ltb_lt in H
         end.
  unfold p_hms. change (0 =? 0) with true. cbv iota.
  rewrite !app_assoc.
  eapply hd_pbind; [apply d_H_fmt2; lia|].
  eapply hd_pbind; [reflexivity|].
  eapply hd_pbind; [apply d_M_fmt2; lia|].
  eapply hd_pbind; [reflexivity|].
  eapply hd_pbind; [apply d_S_fmt2; lia|].
  reflexivity.
Qed.

Lemma strptime_ymd_isoformat (d : date) :
  date_ok d = true ->
  strptime_ymd (date_isoformat d) = Some (year d, month d, day d).
Proof.
  intros H. unfold strptime_ymd.
  rewrite (whole_hd p_ymd _ (year d, month d, day d)).
  - destruct d as [y m dd]. simpl in *. rewrite H. reflexivity.
  - rewrite <- (app_nil_r (date_isoformat d)).
    apply p_ymd_isoformat. assumption.
Qed.

Lemma strptime_hms_isoformat (t : time) :
  time_ok t = true -> microsecond t = 0 ->
  strptime_hms (time_isoformat t) = Some (hour t, minute t, second t).
Proof.
  intros H U. unfold strptime_hms. apply whole_hd.
  rewrite <- (app_nil_r (time_isoformat t)).
  apply p_hms_isoformat; assumption.
Qed.

Lemma strptime_ymd_T_hms_isoformat (dt : datetime) :
  datetime_ok dt = true -> microsecond (dt_time dt) = 0 ->
  let d := dt_date dt in let t := dt_time dt in
  strptime_ymd_T_hms (datetime_isoformat "T" dt)
  = Some ((year d, month d, day d), (hour t, minute t, second t)).
Proof.
  destruct dt as [d t]. unfold datetime_ok. simpl. intros H U.
  apply andb_true_iff in H. destruct H as [Hd Ht].
  unfold strptime_ymd_T_hms.
  rewrite (whole_hd p_ymd_T_hms _
             ((year d, month d, day d), (hour t, minute t, second t))).
  - destruct d as [y m dd]. simpl in *. rewrite Hd. reflexivity.
  - unfold datetime_isoformat, p_ymd_T_hms. simpl.
    eapply hd_pbind; [apply p_ymd_isoformat; assumption|].
    eapply hd_pbind; [reflexivity|].
    eapply hd_pbind.
    + rewrite <- (app_nil_r (time_isoformat t)).
      apply p_hms_isoformat; assumption.
    + reflexivity.
Qed.

End IsoFacts.

Module DecFacts.
Import PyStr Dec StrFacts Notions Samples.

Lemma ends_ok_app (a b : string) : b <> "" -> ends_ok b -> ends_ok (a ++ b).
Proof.
  unfold ends_ok. intros Hb E. induction a as [|x a IH]; simpl; [assumption|].
  rewrite IH. destruct (a ++ b)%string eqn:Eab; [|reflexivity].
  destruct a; simpl in Eab; congruence.
Qed.

Lemma ends_ok_digits (s : string) :
  s <> "" -> all_chars is_digit s = true -> ends_ok s.
Proof.
  intros Hs Hd. destruct (digits_snoc s Hs Hd) as (s' & c & -> & Hc).
  apply rstrip_p_keep, digit_not_space, Hc.
Qed.

Lemma digits_of_N_nonempty n : digits_of_N n <> "".
Proof. destruct (digits_of_N_cons n) as (a & r & -> & _). discriminate. Qed.

Lemma parse_exp_text ex :
  parse_exp (exp_text ex) = Some (default 0 ex).
Proof.
  destruct ex as [e|]; [|reflexivity]. simpl. unfold fmt_exp.
  destruct (Z.ltb_spec e 0); simpl; rewrite N_of_digits_of_N; f_equal; lia.
Qed.

Lemma exp_text_head ex :
  match exp_text ex with
  | String a _ => is_digit a = false
  | EmptyString => True
  end.
Proof. destruct ex; simpl; auto. Qed.

Lemma exp_text_E ex :
  exp_text ex = "" \/ exists r, exp_text ex = String "E" r.
Proof. destruct ex; simpl; eauto. Qed.

Lemma ends_ok_body ip fp ex :
  ip <> "" -> all_chars is_digit ip = true ->
  (forall f, fp = Some f -> all_chars is_digit f = true) ->
  ends_ok (body ip fp ex).
Proof.
  intros Hip Hd Hf. unfold body.
  destruct ex as [e|]; simpl.
  - rewrite <- app_assoc. apply ends_ok_app; [discriminate|].
    unfold fmt_exp. change (String "E" ?x) with ("E" ++ x)%string.
    rewrite <- app_assoc. apply ends_ok_app.
    + apply digits_of_N_nonempty.
    + apply ends_ok_digits; [apply digits_of_N_nonempty|apply digits_of_N_digits].
  - rewrite app_nil_r. destruct fp as [f|]; simpl.
    + destruct f as [|a f].
      * apply ends_ok_app; [discriminate|reflexivity].
      * change (String "." (String a f)) with ("." ++ String a f)%string.
        rewrite <- app_assoc. apply ends_ok_app; [discriminate|].
        apply ends_ok_digits; [discriminate|]. apply Hf. reflexivity.
    + rewrite app_nil_r. apply ends_ok_digits; assumption.
Qed.

Lemma of_str_body neg ip fp ex c :
  ip <> "" -> all_chars is_digit ip = true ->
  (forall f, fp = Some f -> all_chars is_digit f = true) ->
  N_of_digits (ip ++ default "" fp) = Some c ->
  of_str (sign_str neg ++ body ip fp ex)
  = Some (Finite neg c
            (default 0 ex - Z.of_nat (String.length (default "" fp)))).
Proof.
  intros Hip Hd Hf Hc. unfold of_str.
  assert (Hstrip : strip (sign_str neg ++ body ip fp ex)
                   = (sign_str neg ++ body ip fp ex)%string).
  { unfold strip.
    assert (E : ends_ok (sign_str neg ++ body ip fp ex)).
    { apply ends_ok_app; [|apply ends_ok_body; assumption].
      unfold body. destruct ip; [congruence|discriminate]. }
    rewrite E. destruct ip as [|a ip]; [congruence|].
    simpl in Hd. apply andb_true_iff in Hd. destruct Hd as [Ha _].
    destruct neg; simpl; [reflexivity|].
    rewrite (digit_not_space a Ha). reflexivity. }
  rewrite Hstrip.
  assert (Hsign : take_sign (sign_str neg ++ body ip fp ex)
                  = (neg, body ip fp ex)).
  { destruct neg; [reflexivity|]. simpl.
    destruct ip as [|a ip]; [congruence|].
    simpl in Hd. apply andb_true_iff in Hd. destruct Hd as [Ha _].
    simpl. destruct a as [[|] [|] [|] [|] [|] [|] [|] [|]];
      try reflexivity; vm_compute in Ha; discriminate. }
  rewrite Hsign. unfold parse_finite, body.
  assert (Hfin :
    (let '(ip0, r) := span_digits (ip ++ frac_text fp ++ exp_text ex) in
     let '(fp0, r') :=
       match r with
       | String "." r1 => span_digits r1
       | _ => (EmptyString, r)
       end in (ip0, fp0, r')) = (ip, default "" fp, exp_text ex)).
  { destruct fp as [f|]; simpl frac_text.
    - rewrite span_digits_app; [|assumption|reflexivity].
      change (String "." f ++ exp_text ex)%string
        with (String "." (f ++ exp_text ex)).
      cbv beta iota.
      rewrite span_digits_app; [reflexivity|apply Hf; reflexivity|].
      apply exp_text_head.
    - change ("" ++ exp_text ex)%string with (exp_text ex).
      rewrite span_digits_app; [|assumption|apply exp_text_head].
      cbv beta iota.
      destruct (exp_text_E ex) as [->|[r ->]]; reflexivity. }
  destruct (span_digits (ip ++ frac_text fp ++ exp_text ex)) as [ip0 r].
  destruct (match r with
            | String "." r1 => span_digits r1
            | _ => (EmptyString, r)
            end) as [fp0 r'].
  injection Hfin as -> -> ->.
  rewrite parse_exp_text, Hc. reflexivity.
Qed.

(** [Decimal(str(x))] rebuilds a finite decimal exactly. *)
Lemma of_str_to_str_finite neg c e :
  of_str (to_str (Finite neg c e)) = Some (Finite neg c e).
Proof.
  unfold to_str. cbv zeta.
  pose proof (digits_of_N_digits c) as Hd.
  pose proof (digits_of_N_nonempty c) as Hne.
  pose proof (N_of_digits_of_N c) as Hc.
  set (int := digits_of_N c) in *.
  set (len := Z.of_nat (String.length int)).
  assert (Hlen : 0 < len).
  { unfold len. destruct int; [congruence|]. simpl String.length. lia. }
  set (dp := if (e <=? 0) && (-6 <? e + len) then e + len else 1).
  assert (Hdp : dp = e + len /\ e <= 0 \/ dp = 1).
  { unfold dp. destruct (Z.leb_spec e 0); simpl; [|auto].
    destruct (-6 <? e + len); auto. }
  destruct (Z.leb_spec dp 0) as [Hle|Hgt].
  - (* 0.000ddd *)
    assert (Edp : dp = e + len) by lia.
    rewrite Edp, Z.eqb_refl.
    change (sign_str neg ++ "0" ++ ("." ++ zeros (- (e + len)) ++ int) ++ "")%string
      with (sign_str neg ++ body "0" (Some (zeros (- (e + len)) ++ int)%string) None)%string.
    rewrite (of_str_body _ _ _ _ c); [|discriminate|reflexivity| |].
    + simpl default. unfold zeros.
      rewrite length_app, length_replicate. f_equal. f_equal. fold len. lia.
    + intros f [= <-]. rewrite all_chars_app, Hd, andb_true_r.
      unfold zeros. induction (Z.to_nat (- (e + len))); simpl; auto.
    + simpl default. simpl ("0" ++ _)%string.
      rewrite N_of_digits_zero.
      * unfold zeros. rewrite N_of_digits_zeros by assumption. exact Hc.
      * destruct (zeros (- (e + len))); simpl; [assumption|discriminate].
  - destruct (Z.leb_spec len dp) as [Hge|Hlt].
    + (* ddd with no fractional part *)
      assert (Ez : zeros (dp - len) = "").
      { unfold zeros. replace (dp - len) with 0 by lia. reflexivity. }
      rewrite Ez, app_nil_r.
      destruct (Z.eqb_spec (e + len) dp) as [E|NE].
      * change (sign_str neg ++ int ++ "" ++ "")%string
          with (sign_str neg ++ body int None None)%string.
        rewrite (of_str_body _ _ _ _ c);
          [|assumption|assumption|discriminate
           |simpl default; rewrite app_nil_r; exact Hc].
        f_equal. f_equal. simpl. lia.
      * change (sign_str neg ++ int ++ "" ++ "E" ++ fmt_exp (e + len - dp))%string
          with (sign_str neg ++ body int None (Some (e + len - dp)))%string.
        rewrite (of_str_body _ _ _ _ c);
          [|assumption|assumption|discriminate
           |simpl default; rewrite app_nil_r; exact Hc].
        f_equal. f_equal. simpl. lia.
    + (* d.ddd *)
      assert (Hfd : all_chars is_digit (drop (Z.to_nat dp) int) = true).
      { rewrite <- (take_drop (Z.to_nat dp) int), all_chars_app in Hd.
        apply andb_true_iff in Hd. tauto. }
      assert (Htd : all_chars is_digit (take (Z.to_nat dp) int) = true).
      { rewrite <- (take_drop (Z.to_nat dp) int), all_chars_app in Hd.
        apply andb_true_iff in Hd. tauto. }
      assert (Htn : take (Z.to_nat dp) int <> "").
      { intros E. pose proof (length_take (Z.to_nat dp) int) as L.
        rewrite E in L. simpl in L. unfold len in *. lia. }
      assert (Hld : Z.of_nat (String.length (drop (Z.to_nat dp) int))
                    = len - dp).
      { rewrite length_drop. unfold len in *. lia. }
      destruct (Z.eqb_spec (e + len) dp) as [E|NE].
      * change (sign_str neg ++ take (Z.to_nat dp) int
                ++ ("." ++ drop (Z.to_nat dp) int) ++ "")%string
          with (sign_str neg ++ body (take (Z.to_nat dp) int)
                  (Some (drop (Z.to_nat dp) int)) None)%string.
        rewrite (of_str_body _ _ _ _ c);
          [|assumption|assumption|intros f [= <-]; assumption
           |simpl default; rewrite take_drop; exact Hc].
        simpl default. rewrite Hld. f_equal. f_equal. lia.
      * change (sign_str neg ++ take (Z.to_nat dp) int
                ++ ("." ++ drop (Z.to_nat dp) int)
                ++ "E" ++ fmt_exp (e + len - dp))%string
          with (sign_str neg ++ body (take (Z.to_nat dp) int)
                  (Some (drop (Z.to_nat dp) int))
                  (Some (e + len - dp)))%string.
        rewrite (of_str_body _ _ _ _ c);
          [|assumption|assumption|intros f [= <-]; assumption
           |simpl default; rewrite take_drop; exact Hc].
        simpl default. rewrite Hld. f_equal. f_equal. lia.
Qed.

Lemma of_str_to_str x : of_str (to_str x) = Some x.
Proof.
  destruct x as [neg c e|neg|neg sig].
  - apply of_str_to_str_finite.
  - destruct neg; reflexivity.
  - destruct neg, sig; reflexivity.
Qed.

Lemma eqb_refl x : is_nan x = false -> eqb x x = true.
Proof.
  destruct x as [neg c e|neg|neg sig]; simpl; intros H.
  - apply Z.eqb_refl.
  - destruct neg; reflexivity.
  - discriminate.
Qed.

End DecFacts.
Module Conversions.
Import PyStr Cal Iso Dec Py StrFacts CalFacts IsoFacts DecFacts Notions Samples.

Lemma detect_type_classify (x : string) :
  match detect_type x with
  | Some t => MAP_TYPES_PROPERTIES t
  | None => None
  end = classify x.
Proof.
  unfold detect_type, classify, precedence. simpl.
  destruct (Re.matches Re.re_date x); [reflexivity|].
  destruct (Re.matches Re.re_time x); [reflexivity|].
  destruct (Re.matches Re.re_datetime x); [reflexivity|].
  destruct (Re.matches Re.re_decimal x); reflexivity.
Qed.

Lemma scalar_to_python_text env (s : scalar) (x : string) :
  is_basestring s = Some x ->
  scalar_to_python env s
  = match classify x with
    | Some k => match to_python_scalar env k s with
                | Ok v => v
                | Raise _ => s
                end
    | None => s
    end.
Proof.
  intros H. unfold scalar_to_python. rewrite H.
  rewrite <- detect_type_classify.
  destruct (detect_type x) as [t|]; [|reflexivity].
  destruct (MAP_TYPES_PROPERTIES t); reflexivity.
Qed.

(** C8. Speculative detection on a stored text (a [str] or a [unicode])
    tries date, then time, then datetime, then decimal: the converter of
    the first pattern that matches the whole text is applied, its failure
    leaves the original text, and a text that matches no pattern is
    returned unchanged; no case raises. *)
Theorem value_to_python_precedence env (x : string) :
  let convert (s : scalar) : pyval :=
    PS (if Re.matches Re.re_date x then
          match to_python_scalar env KDate s with
          | Ok v => v | Raise _ => s end
        else if Re.matches Re.re_time x then
          match to_python_scalar env KTime s with
          | Ok v => v | Raise _ => s end
        else if Re.matches Re.re_datetime x then
          match to_python_scalar env KDateTime s with
          | Ok v => v | Raise _ => s end
        else if Re.matches Re.re_decimal x then
          match to_python_scalar env KDecimal s with
          | Ok v => v | Raise _ => s end
        else s) in
  value_to_python env (PS (SStr x)) = convert (SStr x)
  /\ value_to_python env (PS (SUni x)) = convert (SUni x).
Proof.
  cbv zeta. simpl.
  rewrite (scalar_to_python_text env (SStr x) x) by reflexivity.
  rewrite (scalar_to_python_text env (SUni x) x) by reflexivity.
  unfold classify, precedence. simpl.
  destruct (Re.matches Re.re_date x); [split; reflexivity|].
  destruct (Re.matches Re.re_time x); [split; reflexivity|].
  destruct (Re.matches Re.re_datetime x); [split; reflexivity|].
  destruct (Re.matches Re.re_decimal x); split; reflexivity.
Qed.

Section Examples.
Variable env : interp.

Example detect_date :
  value_to_python env (PS (SUni "2008-11-10"))
  = PS (SDate (mkdate 2008 11 10)).
Proof. reflexivity. Qed.

Example detect_time :
  value_to_python env (PS (SUni "08:30:05"))
  = PS (STime (mktime 8 30 5 0)).
Proof. reflexivity. Qed.

Example detect_datetime :
  value_to_python env (PS (SUni "2008-11-10T08:00:00Z"))
  = PS (SDateTime (mkdatetime (mkdate 2008 11 10) (mktime 8 0 0 0))).
Proof. reflexivity. Qed.

Example detect_decimal :
  value_to_python env (PS (SUni "1.50"))
  = PS (SDecimal (Finite false 150 (-2))).
Proof. reflexivity. Qed.

(** The compact form matches [re_date] and fails to parse: the text
    stays. *)
Example detect_compact_date :
  Re.matches Re.re_date "20081110" = true
  /\ value_to_python env (PS (SUni "20081110")) = PS (SUni "20081110").
Proof. split; reflexivity. Qed.

(** A text that both [re_time] and [re_decimal] accept is taken for a
    time, fails to parse as one, and stays. *)
Example detect_time_before_decimal :
  Re.matches Re.re_time "120101.123" = true
  /\ Re.matches Re.re_decimal "120101.123" = true
  /\ value_to_python env (PS (SUni "120101.123"))
     = PS (SUni "120101.123").
Proof. repeat split; reflexivity. Qed.

Example detect_nothing :
  value_to_python env (PS (SUni "hello")) = PS (SUni "hello").
Proof. reflexivity. Qed.
End Examples.

(** *** Round trips *)

Lemma SFeqb_refl f : f <> S754_nan -> SFeqb f f = true.
Proof.
  destruct f as [s|s| |s m e]; try congruence; intros _;
    unfold SFeqb, SFcompare.
  - reflexivity.
  - destruct s; reflexivity.
  - rewrite Z.compare_refl.
    destruct s; rewrite ?Pos.compare_cont_refl; try reflexivity;
      unfold CompOpp; rewrite Pos.compare_cont_refl; reflexivity.
Qed.

Lemma rstrip_Z_keep (s : string) (c : ascii) :
  c <> "Z"%char -> rstrip "Z" (s ++ String c "Z") = (s ++ String c "")%string.
Proof.
  intros H. unfold rstrip. induction s as [|a s IH]; simpl.
  - destruct (Ascii.eqb_spec c "Z"); [congruence|reflexivity].
  - rewrite IH. destruct s; reflexivity.
Qed.

End Conversions.
Module RoundTrip.
Import PyStr Cal Iso Dec Py StrFacts CalFacts IsoFacts DecFacts Conversions Notions Samples.

Lemma before_first_no_dot (s : string) :
  no_dot s = true -> before_first "." s = s.
Proof.
  unfold no_dot. induction s as [|a s IH]; simpl; [reflexivity|].
  intros H. apply andb_true_iff in H. destruct H as [Ha Hs].
  apply negb_true_iff in Ha. rewrite Ha, (IH Hs). reflexivity.
Qed.

Lemma digit_no_dot a : is_digit a = true -> negb (Ascii.eqb a ".") = true.
Proof.
  destruct a as [[|] [|] [|] [|] [|] [|] [|] [|]]; vm_compute; congruence.
Qed.

Lemma digits_no_dot (s : string) :
  all_chars is_digit s = true -> no_dot s = true.
Proof.
  unfold no_dot. induction s as [|a s IH]; simpl; [reflexivity|].
  intros H. apply andb_true_iff in H. destruct H as [Ha Hs].
  rewrite (digit_no_dot a Ha), (IH Hs). reflexivity.
Qed.

Lemma no_dot_app (a b : string) : no_dot (a ++ b) = no_dot a && no_dot b.
Proof. apply all_chars_app. Qed.

Lemma fmt2_digits (n : Z) :
  0 <= n < 100 -> all_chars is_digit (fmt2 n) = true.
Proof.
  intros H. unfold fmt2. simpl.
  assert (D1 : 0 <= n / 10 <= 9).
  { assert (n / 10 < 10) by (apply Z.div_lt_upper_bound; lia).
    assert (0 <= n / 10) by (apply Z.div_pos; lia). lia. }
  assert (D0 : 0 <= n mod 10 <= 9)
    by (pose proof (Z.mod_pos_bound n 10); lia).
  destruct (digit_chr_ok _ D1) as [-> _].
  destruct (digit_chr_ok _ D0) as [-> _]. reflexivity.
Qed.

Lemma fmt4_digits (n : Z) :
  0 <= n <= 9999 -> all_chars is_digit (fmt4 n) = true.
Proof.
  intros H. unfold fmt4.
  assert (D3 : 0 <= n / 1000 <= 9).
  { assert (n / 1000 < 10) by (apply Z.div_lt_upper_bound; lia).
    assert (0 <= n / 1000) by (apply Z.div_pos; lia). lia. }
  assert (D2 : 0 <= n / 100 mod 10 <= 9)
    by (pose proof (Z.mod_pos_bound (n / 100) 10); lia).
  cbn [all_chars].
  destruct (digit_chr_ok _ D3) as [-> _].
  destruct (digit_chr_ok _ D2) as [-> _].
  rewrite fmt2_digits; [reflexivity|].
  pose proof (Z.mod_pos_bound n 100). lia.
Qed.

Lemma date_ok_bounds (d : date) :
  date_ok d = true ->
  1 <= year d <= 9999 /\ 1 <= month d <= 12 /\ 1 <= day d <= 31.
Proof.
  unfold date_ok. intros H.
  repeat (apply andb_true_iff in H; destruct H as [H ?]).
  repeat match goal with
         | H : (_ <=? _) = true |- _ => apply Z.leb_le in H
         end.
  pose proof (days_in_month_le_31 (year d) (month d)). lia.
Qed.

Lemma time_ok_bounds (t : time) :
  time_ok t = true ->
  0 <= hour t < 24 /\ 0 <= minute t < 60 /\ 0 <= second t < 60.
Proof.
  unfold time_ok. intros H.
  repeat (apply andb_true_iff in H; destruct H as [H ?]).
  repeat match goal with
         | H : (_ <=? _) = true |- _ => apply Z.leb_le in H
         | H : (_ <? _) = true |- _ => apply Z.ltb_lt in H
         end.
  lia.
Qed.

Lemma no_dot_date (d : date) :
  date_ok d = true -> no_dot (date_isoformat d) = true.
Proof.
  intros H. destruct (date_ok_bounds d H) as (Hy & Hm & Hd).
  unfold date_isoformat. rewrite !no_dot_app.
  rewrite (digits_no_dot _ (fmt4_digits (year d) ltac:(lia))).
  rewrite (digits_no_dot _ (fmt2_digits (month d) ltac:(lia))).
  rewrite (digits_no_dot _ (fmt2_digits (day d) ltac:(lia))).
  reflexivity.
Qed.

Lemma time_isoformat_us0 (t : time) :
  microsecond t = 0 ->
  time_isoformat t
  = (fmt2 (hour t) ++ ":" ++ fmt2 (minute t) ++ ":" ++ fmt2 (second t))%string.
Proof.
  intros H. unfold time_isoformat. rewrite H. simpl (0 =? 0).
  cbv iota. rewrite !app_nil_r. reflexivity.
Qed.

Lemma no_dot_time (t : time) :
  time_ok t = true -> microsecond t = 0 ->
  no_dot (time_isoformat t) = true.
Proof.
  intros H U. destruct (time_ok_bounds t H) as (Hh & Hm & Hs).
  rewrite time_isoformat_us0 by assumption. rewrite !no_dot_app.
  rewrite (digits_no_dot _ (fmt2_digits (hour t) ltac:(lia))).
  rewrite (digits_no_dot _ (fmt2_digits (minute t) ltac:(lia))).
  rewrite (digits_no_dot _ (fmt2_digits (second t) ltac:(lia))).
  reflexivity.
Qed.

Lemma replace_microsecond0_id (t : time) :
  microsecond t = 0 -> replace_microsecond0 t = t.
Proof. destruct t; simpl; intros ->; reflexivity. Qed.

Lemma digit_not_Z a : is_digit a = true -> a <> "Z"%char.
Proof.
  destruct a as [[|] [|] [|] [|] [|] [|] [|] [|]]; vm_compute; congruence.
Qed.

(** The text [to_json] writes for a datetime, read back. *)
Lemma DateTimeProperty_parse_isoformat (dt : datetime) :
  datetime_ok dt = true -> microsecond (dt_time dt) = 0 ->
  DateTimeProperty_parse (datetime_isoformat "T" dt ++ "Z") = Some dt.
Proof.
  intros H U. pose proof H as H'. unfold datetime_ok in H'.
  apply andb_true_iff in H'. destruct H' as [Hd Ht].
  destruct (time_ok_bounds _ Ht) as (Hh & Hm & Hs).
  unfold DateTimeProperty_parse.
  assert (E1 : before_first "." (datetime_isoformat "T" dt ++ "Z")
               = (datetime_isoformat "T" dt ++ "Z")%string).
  { apply before_first_no_dot. unfold datetime_isoformat.
    rewrite no_dot_app.
    change (String "T" (time_isoformat (dt_time dt)))
      with ("T" ++ time_isoformat (dt_time dt))%string.
    rewrite !no_dot_app, no_dot_date, no_dot_time by assumption.
    reflexivity. }
  rewrite E1.
  assert (E2 : rstrip "Z" (datetime_isoformat "T" dt ++ "Z")
               = datetime_isoformat "T" dt).
  { unfold datetime_isoformat.
    rewrite time_isoformat_us0 by assumption.
    pose proof (fmt2_digits (second (dt_time dt)) ltac:(lia)) as Hdg.
    unfold fmt2 in *. simpl in Hdg.
    apply andb_true_iff in Hdg. destruct Hdg as [_ Hdg].
    apply andb_true_iff in Hdg. destruct Hdg as [Hdg _].
    set (c1 := digit_chr (second (dt_time dt) / 10)).
    set (c0 := digit_chr (second (dt_time dt) mod 10)) in *.
    set (P := (date_isoformat (dt_date dt)
               ++ String "T"
                    (String (digit_chr (hour (dt_time dt) / 10))
                       (String (digit_chr (hour (dt_time dt) mod 10)) "")
                     ++ ":"
                     ++ String (digit_chr (minute (dt_time dt) / 10))
                          (String (digit_chr (minute (dt_time dt) mod 10)) "")
                     ++ ":" ++ String c1 ""))%string).
    assert (EP : forall tail,
               ((date_isoformat (dt_date dt)
                 ++ String "T"
                      (String (digit_chr (hour (dt_time dt) / 10))
                         (String (digit_chr (hour (dt_time dt) mod 10)) "")
                       ++ ":"
                       ++ String (digit_chr (minute (dt_time dt) / 10))
                            (String (digit_chr (minute (dt_time dt) mod 10)) "")
                       ++ ":" ++ String c1 (String c0 ""))) ++ tail)%string
               = (P ++ String c0 tail)%string).
    { intros tail. unfold P. rewrite !app_assoc. simpl. reflexivity. }
    rewrite (EP "Z"). rewrite rstrip_Z_keep by (apply digit_not_Z; exact Hdg).
    rewrite <- (EP ""). rewrite app_nil_r. reflexivity. }
  rewrite E2.
  rewrite (strptime_ymd_T_hms_isoformat dt H U). cbv zeta.
  apply utcfromtimestamp_timegm; assumption.
Qed.

Lemma DateProperty_parse_isoformat (d : date) :
  date_ok d = true -> DateProperty_parse (date_isoformat d) = Some d.
Proof.
  intros H. unfold DateProperty_parse.
  rewrite strptime_ymd_isoformat by assumption. destruct d; reflexivity.
Qed.

Lemma TimeProperty_parse_isoformat (t : time) :
  time_ok t = true -> microsecond t = 0 ->
  TimeProperty_parse (time_isoformat t) = Some t.
Proof.
  intros H U. destruct (time_ok_bounds t H) as (Hh & Hm & Hs).
  unfold TimeProperty_parse.
  rewrite before_first_no_dot by (apply no_dot_time; assumption).
  rewrite strptime_hms_isoformat by assumption.
  destruct (Z.ltb_spec (second t) 60); [|lia].
  destruct t; simpl in *; subst; reflexivity.
Qed.

Lemma scalar_eqb_date d : scalar_eqb (SDate d) (SDate d) = true.
Proof. simpl. rewrite !Z.eqb_refl. reflexivity. Qed.

Lemma scalar_eqb_time t : scalar_eqb (STime t) (STime t) = true.
Proof. simpl. rewrite !Z.eqb_refl. reflexivity. Qed.

Lemma scalar_eqb_datetime t : scalar_eqb (SDateTime t) (SDateTime t) = true.
Proof. simpl. rewrite !Z.eqb_refl. reflexivity. Qed.

(** C2 (amended). For every supported kind and every non-pathological
    native value of that kind, a descriptor whose [auto_now] is off
    converts the value to its canonical form and back to an equal value. *)
Theorem round_trip env (k : kind) (v : scalar) :
  supported k = true -> non_pathological k v = true ->
  round_trips env k false v = true.
Proof.
  intros Hk Hv. unfold round_trips.
  destruct k; try discriminate Hk; destruct v; try discriminate Hv;
    simpl in Hv; cbn [to_json_scalar].
  - (* str *)
    simpl. rewrite Hv. simpl. rewrite Hv, String.eqb_refl. reflexivity.
  - (* unicode *)
    simpl. apply String.eqb_refl.
  - (* int *)
    simpl. apply Z.eqb_refl.
  - (* float *)
    simpl. apply SFeqb_refl. destruct f; congruence.
  - (* bool *)
    simpl. destruct b; reflexivity.
  - (* Decimal *)
    simpl. rewrite of_str_to_str. simpl. apply DecFacts.eqb_refl.
    apply negb_true_iff. exact Hv.
  - (* datetime *)
    apply andb_true_iff in Hv. destruct Hv as [Hok Hus].
    apply Z.eqb_eq in Hus.
    cbn [replace_us_isoformat].
    rewrite replace_microsecond0_id by assumption.
    replace (mkdatetime (dt_date x) (dt_time x)) with x by (destruct x; reflexivity).
    cbn [to_python_scalar is_basestring].
    rewrite DateTimeProperty_parse_isoformat by assumption.
    apply scalar_eqb_datetime.
  - (* date *)
    cbn [isoformat to_python_scalar is_basestring].
    rewrite DateProperty_parse_isoformat by assumption.
    apply scalar_eqb_date.
  - (* time *)
    apply andb_true_iff in Hv. destruct Hv as [Hok Hus].
    apply Z.eqb_eq in Hus.
    cbn [replace_us_isoformat].
    rewrite replace_microsecond0_id by assumption.
    cbn [to_python_scalar is_basestring].
    rewrite TimeProperty_parse_isoformat by assumption.
    apply scalar_eqb_time.
Qed.

End RoundTrip.
Module Descriptors.
Import PyStr Cal Py Mem Props Conversions RoundTrip Notions Samples.
Local Open Scope py_scope.

Lemma round_trip_witness :
  round_trips (sample_env noon_2020) KDateTime false created_2008 = true.
Proof. apply round_trip; reflexivity. Defined.

(** With [auto_now] set, [to_json] writes the clock's time instead of the
    value, so the value read back is the clock's. *)
Lemma round_trip_auto_now_counterexample :
  supported KDateTime = true
  /\ non_pathological KDateTime created_2008 = true
  /\ round_trips (sample_env noon_2020) KDateTime true created_2008 = false.
Proof. repeat split; reflexivity. Qed.

(** *** Reading a property *)

Lemma node_get_dict (l : loc) items (k : pykey) (st : store) :
  nodes st !! l = Some (NDict items) ->
  node_get (JNode l) k st
  = (Ok (option.default (JS SNone) (dict_get k items)), st).
Proof.
  intros H. unfold node_get, bind, get_node. rewrite H. reflexivity.
Qed.

(** C4 (amended). Reading a declared property returns the native
    conversion of the canonical value when the field key is present and
    not null, and [None] when the key is absent or null: the read path
    does not consult the default. *)
Theorem get_reads_canonical env (p : Property) (l : loc) items (st : store) :
  nodes st !! l = Some (NDict items) ->
  get env p (JNode l) st
  = match dict_get (KStr (name p)) items with
    | Some (JS SNone) | None => (Ok (VS SNone), st)
    | Some j => to_python env p j st
    end.
Proof.
  intros H. unfold get, bind. rewrite (node_get_dict l items _ st H).
  destruct (dict_get (KStr (name p)) items) as [[s|l']|]; simpl;
    try reflexivity.
  destruct s; reflexivity.
Qed.

Lemma get_reads_canonical_witness :
  get (sample_env noon_2020) name_with_default_x (JNode 0%nat) store_named_doc
  = (Ok (VS (SUni "y")), store_named_doc).
Proof.
  rewrite (get_reads_canonical _ _ 0%nat
             [(KStr "name", JS (SUni "y"))]); reflexivity.
Defined.

(** The key is absent and the descriptor's default is [u"x"]: the read
    returns [None], not the default. *)
Lemma get_absent_counterexample :
  get (sample_env noon_2020) name_with_default_x (JNode 0%nat) store_empty_doc
  = (Ok (VS SNone), store_empty_doc)
  /\ default_value (sample_env noon_2020) name_with_default_x store_empty_doc
     = (Ok (VS (SUni "x")), store_empty_doc).
Proof. split; reflexivity. Qed.

(** *** Choices *)

(** What the loop computes: it passes exactly when the first choice
    equals the value. *)
Lemma check_choices_first (c : scalar) (cs : list scalar) (v : value) :
  check_choices (c :: cs) v false
  = if choice_eq c v then Ok tt else Raise (BadValueError NotAChoice).
Proof.
  simpl. destruct (choice_eq c v); simpl; [|reflexivity].
  induction cs as [|c' cs IH]; simpl; [reflexivity|].
  destruct (choice_eq c' v); simpl; exact IH.
Qed.

(** C5 (the code at the failing input). With choices ['a', 'b'] the value
    'b', a member of the choices, is rejected as not being one of them,
    while the first member 'a' passes. *)
Theorem choices_second_member_rejected (st : store) :
  In (SStr "b") (choices letter_a_or_b)
  /\ validate letter_a_or_b (VS (SStr "b")) true st
     = (Raise (BadValueError NotAChoice), st)
  /\ validate letter_a_or_b (VS (SStr "a")) true st
     = (Ok (VS (SStr "a")), st).
Proof. repeat split; simpl; auto. Qed.

(** *** Emptiness *)

(** C6 (the code at the failing inputs). For a required integer property
    0 passes the required check; for a required boolean property [False]
    and for a required float property 0.0 are taken for empty and fail it,
    since only [IntegerProperty] overrides [empty]. *)
Theorem empty_is_overridden_for_integer_only (st : store) :
  validate (required_of KInteger) (VS (SInt 0)) true st
  = (Ok (VS (SInt 0)), st)
  /\ validate (required_of KBoolean) (VS (SBool false)) true st
     = (Raise (BadValueError Required), st)
  /\ validate (required_of KFloat) (VS (SFloat (S754_zero false))) true st
     = (Raise (BadValueError Required), st)
  /\ validate (required_of KString) (VS (SUni "")) true st
     = (Raise (BadValueError Required), st).
Proof. repeat split; reflexivity. Qed.

(** *** Writing [None] *)

Lemma run_validators_pure (fs : list validator) (v : value) (st : store) :
  run_validators fs v st = (Ok tt, st)
  \/ exists e, run_validators fs v st = (Raise e, st).
Proof.
  induction fs as [|f fs IH]; simpl; [left; reflexivity|].
  unfold bind, get_store. destruct (f st v) as [e|]; [right; eauto|].
  exact IH.
Qed.

Lemma Property_validate_none (p : Property) (st : store) :
  Property_validate p (VS SNone) false st = (Ok (VS SNone), st)
  \/ exists e, Property_validate p (VS SNone) false st = (Raise e, st).
Proof.
  unfold Property_validate.
  assert (V : (match validators p with
               | NoValidators => ret tt
               | OneValidator f => run_validators [f] (VS SNone)
               | ListValidators fs => run_validators fs (VS SNone)
               end) st = (Ok tt, st)
              \/ exists e, (match validators p with
                            | NoValidators => ret tt
                            | OneValidator f => run_validators [f] (VS SNone)
                            | ListValidators fs =>
                                run_validators fs (VS SNone)
                            end) st = (Raise e, st)).
  { destruct (validators p) as [|f|fs]; [left; reflexivity| |];
      apply run_validators_pure. }
  set (vs := match validators p with
             | NoValidators => ret tt
             | OneValidator f => run_validators [f] (VS SNone)
             | ListValidators fs => run_validators fs (VS SNone)
             end) in *.
  clearbody vs.
  destruct (choices p) as [|c cs].
  - unfold bind, ret. simpl.
    destruct V as [V|[e V]]; rewrite V; [left; reflexivity|right; eauto].
  - remember (check_choices (c :: cs) (VS SNone) false) as cc.
    unfold bind, ret, lift. cbn [andb].
    destruct cc as [[]|e]; [|right; eauto].
    destruct V as [V|[e V]]; rewrite V; [left; reflexivity|right; eauto].
Qed.

Lemma validate_none_string (p : Property) (st : store) :
  pkind p = KString ->
  validate p (VS SNone) false st = (Ok (VS SNone), st)
  \/ exists e, validate p (VS SNone) false st = (Raise e, st).
Proof.
  intros K. unfold validate, bind.
  destruct (Property_validate_none p st) as [R|[e R]]; rewrite R.
  - rewrite K. left. reflexivity.
  - right. eauto.
Qed.

(** C9. On a string property, a write of [None] that is accepted stores
    the text [u"None"] under the field key, not a null; it is accepted
    whenever the descriptor has no choices and no validators; and the
    initialisation at construction stores a null for [None]. *)
Theorem set_none_stores_text env (p : Property) (l : loc) items (st : store) :
  pkind p = KString -> nodes st !! l = Some (NDict items) ->
  (forall st', Props.set env p (JNode l) (VS SNone) st = (Ok tt, st') ->
     st' = with_node st l
             (NDict (dict_set (KStr (name p)) (JS (SUni "None")) items)))
  /\ (choices p = [] -> validators p = NoValidators ->
      fst (Props.set env p (JNode l) (VS SNone) st) = Ok tt)
  /\ property_init env p (JNode l) (VS SNone) st
     = (Ok tt, with_node st l
                 (NDict (dict_set (KStr (name p)) (JS SNone) items))).
Proof.
  intros K H.
  assert (W : forall j,
             node_setitem (JNode l) (KStr (name p)) j st
             = (Ok tt, with_node st l
                         (NDict (dict_set (KStr (name p)) j items)))).
  { intros j. unfold node_setitem, bind, get_node. rewrite H. reflexivity. }
  assert (J : to_json env p (VS SNone) st = (Ok (JS (SUni "None")), st)).
  { unfold to_json. rewrite K. reflexivity. }
  repeat split.
  - intros st'. unfold Props.set, bind.
    destruct (validate_none_string p st K) as [R|[e R]]; rewrite R;
      [|discriminate].
    rewrite J, W. intros [= <-]. reflexivity.
  - intros C V. unfold Props.set, bind.
    assert (R : validate p (VS SNone) false st = (Ok (VS SNone), st)).
    { unfold validate, Property_validate. rewrite C, V, K.
      reflexivity. }
    rewrite R, J, W. reflexivity.
  - unfold property_init, bind. simpl. apply W.
Qed.

Lemma set_none_stores_text_witness :
  Props.set (sample_env noon_2020) plain_name (JNode 0%nat) (VS SNone)
    store_named_doc
  = (Ok tt, mkstore [NDict [(KStr "name", JS (SUni "None"))]] []).
Proof.
  pose proof (set_none_stores_text (sample_env noon_2020) plain_name 0%nat
                [(KStr "name", JS (SUni "y"))] store_named_doc
                eq_refl eq_refl) as (H1 & H2 & _).
  specialize (H2 eq_refl eq_refl).
  destruct (Props.set (sample_env noon_2020) plain_name (JNode 0%nat)
              (VS SNone) store_named_doc) as [r st'] eqn:E.
  simpl in H2. subst r. rewrite (H1 st' eq_refl). reflexivity.
Defined.

End Descriptors.
Module Containers.
Import PyStr Py Mem Notions Samples.
Local Open Scope py_scope.

(** C1 (the code at the failing input). A [LazyDict] over the canonical
    node {"a": [1, 2]} is in step with it; after [d["a"] = [7]], which
    raises nothing, the canonical node reads {"a": [7, 2]} while the
    wrapper's contents convert to {"a": [7]}. *)
Theorem setitem_list_diverges :
  outcome (lazy_dict_over a_one_two) empty_store = Ok 0%nat
  /\ in_sync st_before 0%nat = true
  /\ outcome assign_a_7 st_before = Ok tt
  /\ canonical_json st_after 0%nat
     = Ok (PDict [(KStr "a", PList [PS (SInt 7); PS (SInt 2)])])
  /\ contents_json st_after 0%nat
     = Ok (PDict [(KStr "a", PList [PS (SInt 7)])])
  /\ in_sync st_after 0%nat = false.
Proof. vm_compute. repeat split; reflexivity. Qed.

(** [pop] on either wrapper leaves the two views apart as well:
    [LazyDict.pop] removes the key from the canonical node and then fails
    in [dict.pop]; [LazyList] inherits [list.pop], which never reaches the
    canonical node. *)
Example pop_diverges :
  let d := exec (lazy_dict_over (PDict [(KStr "k", PS (SInt 1))]))
             empty_store in
  let l := exec (lazy_list_over one_two) empty_store in
  outcome (LazyDict_pop 0%nat (KStr "k")) d = Raise TypeError
  /\ in_sync (exec (LazyDict_pop 0%nat (KStr "k")) d) 0%nat = false
  /\ outcome (LazyList_pop 0%nat 0) l = Ok (VS (SInt 1))
  /\ in_sync (exec (LazyList_pop 0%nat 0) l) 0%nat = false.
Proof. vm_compute. repeat split; reflexivity. Qed.

(** The operations that mirror each step keep the views together. *)
Example mirrored_operations_in_step :
  let d := exec (lazy_dict_over (PDict [])) empty_store in
  let d1 := exec (LazyDict_setitem 0%nat (KStr "s") (PS (SUni "test"))) d in
  let d2 := exec (LazyDict_setitem 0%nat (KStr "t")
                    (PDict [(KStr "b", PS (SUni "essai"))])) d1 in
  let d3 := exec (LazyDict_delitem 0%nat (KStr "s")) d2 in
  let d4 := exec (LazyDict_clear 0%nat) d3 in
  in_sync d 0%nat = true /\ in_sync d1 0%nat = true
  /\ in_sync d2 0%nat = true /\ in_sync d3 0%nat = true
  /\ in_sync d4 0%nat = true
  /\ canonical_json d2 0%nat
     = Ok (PDict [(KStr "s", PS (SUni "test"));
                  (KStr "t", PDict [(KStr "b", PS (SUni "essai"))])]).
Proof. vm_compute. repeat split; reflexivity. Qed.

(** C3 (the code at the failing input). On a [LazyDict] over an empty
    canonical node, [d["a"] = []] raises [KeyError]: no sub-node is
    allocated, no child is built and nothing is stored, in either view.
    The same assignment of a dict, and the assignment of a list into a
    [LazyList], do allocate the empty sub-node first. *)
Theorem LazyDict_setitem_list_allocates_nothing :
  LazyDict_setitem 0%nat (KStr "a") (PList []) st_empty_dict
  = (Raise KeyError, st_empty_dict)
  /\ st_empty_dict = mkstore [NDict []] [LDict [] (JNode 0%nat)]
  /\ LazyDict_setitem 0%nat (KStr "a") (PDict []) st_empty_dict
     = (Ok tt, mkstore [NDict [(KStr "a", JNode 1%nat)]; NDict []]
                 [LDict [(KStr "a", VLazy 1%nat)] (JNode 0%nat);
                  LDict [] (JNode 1%nat)])
  /\ LazyList_setitem 0%nat 0 (PList []) st_list_zero
     = (Ok tt, mkstore [NList [JNode 1%nat]; NList []]
                 [LList [VLazy 1%nat] (JNode 0%nat);
                  LList [] (JNode 1%nat)]).
Proof. vm_compute. repeat split; reflexivity. Qed.

(** A non-empty list assigned into a [LazyList] gets its empty sub-node,
    and the child's constructor then writes past the end of it. *)
Example LazyList_setitem_nonempty_list :
  outcome (LazyList_setitem 0%nat 0 (PList [PS (SInt 1)])) st_list_zero
  = Raise IndexError
  /\ canonical_json
       (exec (LazyList_setitem 0%nat 0 (PList [PS (SInt 1)])) st_list_zero)
       0%nat = Ok (PList [PList []])
  /\ contents_json
       (exec (LazyList_setitem 0%nat 0 (PList [PS (SInt 1)])) st_list_zero)
       0%nat = Ok (PList [PS (SInt 0)]).
Proof. vm_compute. repeat split; reflexivity. Qed.

End Containers.
Module Frame.
Import PyStr Py Mem Notions Samples.
Local Open Scope py_scope.

(** *** Induction on trees *)

Lemma pyval_nested_ind (P : pyval -> Prop) :
  (forall s, P (PS s)) ->
  (forall l, Forall P l -> P (PList l)) ->
  (forall d, Forall (fun kv => P (snd kv)) d -> P (PDict d)) ->
  forall v, P v.
Proof.
  intros HS HL HD.
  fix IH 1. intros [s|l|d].
  - apply HS.
  - apply HL. induction l as [|x l IHl]; constructor; [apply IH|exact IHl].
  - apply HD. induction d as [|[k x] d IHd]; constructor;
      [apply IH|exact IHd].
Qed.

(** *** Dict nodes only gain keys

    [keys_grow st st'] says that every dict node of [st] is still a dict
    node in [st'] and has kept all its keys.  The operations that build
    and wrap never delete, so they all satisfy [mono]. *)

Lemma keys_grow_refl st : keys_grow st st.
Proof. intros l items H. eauto. Qed.

Lemma keys_grow_trans st1 st2 st3 :
  keys_grow st1 st2 -> keys_grow st2 st3 -> keys_grow st1 st3.
Proof.
  intros H12 H23 l items H.
  destruct (H12 l items H) as (i2 & H2 & K2).
  destruct (H23 l i2 H2) as (i3 & H3 & K3).
  exists i3. split; [assumption|]. auto.
Qed.

Lemma keys_grow_same_nodes st st' :
  nodes st' = nodes st -> keys_grow st st'.
Proof. intros E l items H. rewrite E. eauto. Qed.

Lemma mono_ret {A} (a : A) : mono (ret a).
Proof. intros st r st' [= _ <-]. apply keys_grow_refl. Qed.

Lemma mono_raise {A} (e : exn) : mono (@raise A e).
Proof. intros st r st' [= _ <-]. apply keys_grow_refl. Qed.

Lemma mono_lift {A} (x : result A) : mono (lift x).
Proof. intros st r st' [= _ <-]. apply keys_grow_refl. Qed.

Lemma mono_get_store : mono get_store.
Proof. intros st r st' [= _ <-]. apply keys_grow_refl. Qed.

Lemma mono_bind {A B} (m : M A) (f : A -> M B) :
  mono m -> (forall a, mono (f a)) -> mono (bind m f).
Proof.
  intros Hm Hf st r st'. unfold bind.
  destruct (m st) as [[a|e] st1] eqn:E.
  - intros H. eapply keys_grow_trans; [eapply Hm; eassumption|].
    eapply Hf; eassumption.
  - intros [= _ <-]. eapply Hm; eassumption.
Qed.

Lemma dict_has_set {V} (k k' : pykey) (v : V) items :
  dict_has k' items = true -> dict_has k' (dict_set k v items) = true.
Proof.
  unfold dict_has. induction items as [|[k0 v0] items IH]; simpl.
  - discriminate.
  - destruct (key_eqb k k0) eqn:E; simpl.
    + destruct (key_eqb k' k0) eqn:E'.
      * assert (key_eqb k' k = true) as ->; [|reflexivity].
        destruct k, k0, k'; simpl in *; try discriminate.
        -- apply String.eqb_eq in E, E'. subst. apply String.eqb_refl.
        -- apply Z.eqb_eq in E, E'. subst. apply Z.eqb_refl.
      * assert (key_eqb k' k = false) as ->; [|tauto].
        destruct k, k0, k'; simpl in *; try discriminate; try reflexivity.
        -- apply String.eqb_eq in E. subst. assumption.
        -- apply Z.eqb_eq in E. subst. assumption.
    + destruct (key_eqb k' k0); [reflexivity|exact IH].
Qed.

Lemma dict_has_set_same {V} (k : pykey) (v : V) items :
  dict_has k (dict_set k v items) = true.
Proof.
  assert (R : key_eqb k k = true).
  { destruct k; simpl; [apply String.eqb_refl|apply Z.eqb_refl]. }
  unfold dict_has. induction items as [|[k0 v0] items IH]; simpl.
  - rewrite R. reflexivity.
  - destruct (key_eqb k k0) eqn:E; simpl.
    + rewrite R. reflexivity.
    + rewrite E. exact IH.
Qed.

Lemma mono_new_node n : mono (new_node n).
Proof.
  intros st r st' [= _ <-] l items H. exists items. split; [|auto].
  simpl. apply lookup_app_l_Some. exact H.
Qed.

Lemma mono_new_lazy w : mono (new_lazy w).
Proof. intros st r st' [= _ <-]. apply keys_grow_same_nodes. reflexivity. Qed.

Lemma mono_get_node l : mono (get_node l).
Proof.
  intros st r st'. unfold get_node. destruct (nodes st !! l);
    intros [= _ <-]; apply keys_grow_refl.
Qed.

Lemma mono_get_lazy l : mono (get_lazy l).
Proof.
  intros st r st'. unfold get_lazy. destruct (lazies st !! l);
    intros [= _ <-]; apply keys_grow_refl.
Qed.

Lemma mono_put_lazy l w : mono (put_lazy l w).
Proof. intros st r st' [= _ <-]. apply keys_grow_same_nodes. reflexivity. Qed.

(** Replacing a dict node by one with more keys, or a list node by
    anything. *)
Lemma keys_grow_put st l n :
  (forall items, nodes st !! l = Some (NDict items) ->
     exists items', n = NDict items'
       /\ forall k, dict_has k items = true -> dict_has k items' = true) ->
  keys_grow st (mkstore (<[l := n]> (nodes st)) (lazies st)).
Proof.
  intros Hn l' items H. simpl.
  destruct (Nat.eq_dec l l') as [->|Ne].
  - destruct (Hn items H) as (items' & -> & K). exists items'.
    split; [|exact K]. apply list_lookup_insert_eq.
    apply lookup_lt_Some in H. exact H.
  - exists items. split; [|auto].
    rewrite list_lookup_insert_ne by assumption. exact H.
Qed.

Create HintDb mono.

Ltac mono_step :=
  first
    [ solve [auto with mono]
    | apply mono_ret | apply mono_raise | apply mono_lift
    | apply mono_get_store | apply mono_get_node | apply mono_get_lazy
    | apply mono_put_lazy | apply mono_new_node | apply mono_new_lazy
    | match goal with
      | |- mono (bind _ _) => apply mono_bind; [ | intros ]
      | |- mono (match ?x with _ => _ end) => destruct x
      | |- mono (if ?x then _ else _) => destruct x
      end ].

Ltac mono_tac := repeat mono_step.

Lemma mono_node_getitem doc k : mono (node_getitem doc k).
Proof. unfold node_getitem. mono_tac. Qed.

Lemma mono_node_has doc k : mono (node_has doc k).
Proof. unfold node_has. mono_tac. Qed.

Lemma mono_node_get doc k : mono (node_get doc k).
Proof. unfold node_get. mono_tac. Qed.

(** A write to a node: the node read is the node replaced. *)
Lemma mono_write (l : loc) (f : node -> M unit) :
  (forall n st r st', nodes st !! l = Some n -> f n st = (r, st') ->
     keys_grow st st') ->
  mono (bind (get_node l) f).
Proof.
  intros Hf st r st'. unfold bind, get_node.
  destruct (nodes st !! l) as [n|] eqn:E.
  - apply Hf. exact E.
  - intros [= _ <-]. apply keys_grow_refl.
Qed.

Lemma put_dict_grows st l items items' r st' :
  nodes st !! l = Some (NDict items) ->
  (forall k, dict_has k items = true -> dict_has k items' = true) ->
  put_node l (NDict items') st = (r, st') -> keys_grow st st'.
Proof.
  intros E K [= _ <-]. apply keys_grow_put. intros items0 H0.
  rewrite E in H0. injection H0 as <-. eauto.
Qed.

Lemma put_over_list_grows st l items n r st' :
  nodes st !! l = Some (NList items) ->
  put_node l n st = (r, st') -> keys_grow st st'.
Proof.
  intros E [= _ <-]. apply keys_grow_put. intros items0 H0.
  rewrite E in H0. discriminate.
Qed.

Lemma raise_grows {A} (e : exn) st (r : result A) st' :
  raise e st = (r, st') -> keys_grow st st'.
Proof. intros [= _ <-]. apply keys_grow_refl. Qed.

Lemma mono_node_setitem doc k j : mono (node_setitem doc k j).
Proof.
  unfold node_setitem. destruct doc as [s|l]; [apply mono_raise|].
  apply mono_write. intros [items|items] st r st' E.
  - apply (put_dict_grows st l items); [exact E|]. intros k'.
    apply dict_has_set.
  - destruct k as [x|i]; [apply raise_grows|].
    destruct (list_set items i j); [|apply raise_grows].
    apply (put_over_list_grows st l items). exact E.
Qed.

Lemma mono_node_update doc k j : mono (node_update doc k j).
Proof.
  unfold node_update. destruct doc as [s|l]; [apply mono_raise|].
  apply mono_write. intros [items|items] st r st' E.
  - apply (put_dict_grows st l items); [exact E|]. intros k'.
    apply dict_has_set.
  - apply raise_grows.
Qed.

Lemma mono_node_append doc j : mono (node_append doc j).
Proof.
  unfold node_append. destruct doc as [s|l]; [apply mono_raise|].
  apply mono_write. intros [items|items] st r st' E.
  - apply raise_grows.
  - apply (put_over_list_grows st l items). exact E.
Qed.

#[local] Hint Resolve mono_node_getitem mono_node_has mono_node_get
  mono_node_setitem mono_node_update mono_node_append : mono.

Lemma mono_materialize t : mono (materialize t).
Proof.
  induction t as [s|l IH|d IH] using pyval_nested_ind; simpl.
  - apply mono_ret.
  - apply mono_bind; [|intros; apply mono_new_node].
    induction IH as [|x l Hx Hl IHl]; [apply mono_ret|].
    mono_tac; assumption.
  - apply mono_bind; [|intros; apply mono_new_node].
    induction IH as [|[k x] d Hx Hd IHd]; [apply mono_ret|].
    mono_tac; assumption.
Qed.

Lemma mono_tree_of v : mono (tree_of v).
Proof.
  intros st r st'. unfold tree_of.
  generalize (read_v recursion_limit st v). intros x [= _ <-].
  apply keys_grow_refl.
Qed.

Lemma mono_tree_of_j j : mono (tree_of_j j).
Proof.
  intros st r st'. unfold tree_of_j.
  generalize (read_j recursion_limit st j). intros x [= _ <-].
  apply keys_grow_refl.
Qed.

#[local] Hint Resolve mono_materialize mono_tree_of mono_tree_of_j : mono.

Lemma mono_lazy_doc self : mono (lazy_doc self).
Proof. unfold lazy_doc. mono_tac. Qed.

Lemma mono_own_dict_set self key v : mono (own_dict_set self key v).
Proof. unfold own_dict_set. mono_tac. Qed.

Lemma mono_own_list_set self index v : mono (own_list_set self index v).
Proof. unfold own_list_set. mono_tac. Qed.

Lemma mono_own_len self : mono (own_len self).
Proof. unfold own_len. mono_tac. Qed.

#[local] Hint Resolve mono_lazy_doc mono_own_dict_set mono_own_list_set
  mono_own_len : mono.

Section Constructors.
Variable mk_dict : pyval -> jval -> M value.
Variable mk_list : pyval -> jval -> M value.
Variable value : pyval.
Hypothesis mono_mk_dict : forall doc, mono (mk_dict value doc).
Hypothesis mono_mk_list : forall doc, mono (mk_list value doc).

Lemma mono_LazyDict_setitem_ self key :
  mono (LazyDict_setitem_ mk_dict mk_list self key value).
Proof. unfold LazyDict_setitem_. mono_tac; auto. Qed.

Lemma mono_LazyList_setitem_ self index :
  mono (LazyList_setitem_ mk_dict mk_list self index value).
Proof. unfold LazyList_setitem_. mono_tac; auto. Qed.
End Constructors.

Lemma mono_Lazy_init t :
  (forall doc, mono (LazyDict_init t doc))
  /\ (forall doc, mono (LazyList_init t doc)).
Proof.
  induction t as [s|l IH|d IH] using pyval_nested_ind.
  - split; intros doc; simpl; mono_tac.
  - split; intros doc; simpl.
    + mono_tac.
    + apply mono_bind; [apply mono_new_lazy|]. intros self.
      apply mono_bind; [|intros; apply mono_ret].
      generalize 0. induction IH as [|x l Hx Hl IHl]; intros idx;
        [apply mono_ret|].
      apply mono_bind; [|intros; apply IHl].
      apply mono_LazyList_setitem_; apply Hx.
  - split; intros doc; simpl.
    + apply mono_bind; [apply mono_new_lazy|]. intros self.
      apply mono_bind; [|intros; apply mono_ret].
      induction IH as [|[k x] d Hx Hd IHd]; [apply mono_ret|].
      apply mono_bind; [|intros; apply IHd].
      apply mono_LazyDict_setitem_; apply Hx.
    + apply mono_bind; [apply mono_new_lazy|]. intros self.
      apply mono_bind; [|intros; apply mono_ret].
      generalize 0.
      induction (map (fun kv => key_scalar (fst kv)) d) as [|k ks IHk];
        intros idx; mono_tac.
Qed.

Lemma mono_LazyDict_init t doc : mono (LazyDict_init t doc).
Proof. apply mono_Lazy_init. Qed.

Lemma mono_LazyList_init t doc : mono (LazyList_init t doc).
Proof. apply mono_Lazy_init. Qed.

End Frame.
Module Documents.
Import PyStr Py Mem Props Doc Frame Notions Samples.
Local Open Scope py_scope.

#[local] Hint Resolve mono_node_getitem mono_node_has mono_node_get
  mono_node_setitem mono_node_update mono_node_append
  mono_materialize mono_tree_of mono_tree_of_j
  mono_lazy_doc mono_own_dict_set mono_own_list_set mono_own_len
  mono_LazyDict_init mono_LazyList_init : mono.

Ltac mono_tac := repeat Frame.mono_step.

Lemma mono_value_truth v : mono (value_truth v).
Proof. unfold value_truth. mono_tac. Qed.

Lemma mono_is_dict v : mono (is_dict v).
Proof. unfold is_dict. mono_tac. Qed.

Lemma mono_is_list v : mono (is_list v).
Proof. unfold is_list. mono_tac. Qed.

#[local] Hint Resolve mono_value_truth mono_is_dict mono_is_list : mono.

Lemma mono_empty p v : mono (empty p v).
Proof. unfold empty. mono_tac. Qed.

Lemma mono_run_validators fs v : mono (run_validators fs v).
Proof. induction fs as [|f fs IH]; simpl; mono_tac. Qed.

#[local] Hint Resolve mono_empty mono_run_validators : mono.

Lemma mono_Property_validate p v b : mono (Property_validate p v b).
Proof. unfold Property_validate. mono_tac. Qed.

#[local] Hint Resolve mono_Property_validate : mono.

Lemma mono_validate p v b : mono (Props.validate p v b).
Proof. unfold Props.validate. mono_tac. Qed.

Lemma mono_to_python env p j : mono (to_python env p j).
Proof. unfold to_python. mono_tac. Qed.

Lemma mono_to_json env p v : mono (Props.to_json env p v).
Proof. unfold Props.to_json. mono_tac. Qed.

Lemma mono_default_value env p : mono (default_value env p).
Proof. unfold default_value. mono_tac. Qed.

#[local] Hint Resolve mono_validate mono_to_python mono_to_json
  mono_default_value : mono.

Lemma mono_property_init env p doc v : mono (property_init env p doc v).
Proof. unfold property_init. mono_tac. Qed.

Lemma mono_get env p doc : mono (Props.get env p doc).
Proof. unfold Props.get. mono_tac. Qed.

Lemma mono_set env p doc v : mono (Props.set env p doc v).
Proof. unfold Props.set. mono_tac. Qed.

#[local] Hint Resolve mono_property_init mono_get mono_set : mono.

Lemma mono_hasattr env sch self key : mono (hasattr env sch self key).
Proof.
  unfold hasattr. destruct (lookup key (_properties sch)) as [p|];
    [|apply mono_ret].
  intros st r st'.
  destruct (Props.get env p (_doc self) st) as [[v|e] st1] eqn:E;
    intros [= _ <-]; eapply mono_get; eassumption.
Qed.

Lemma mono_check_reserved_words key : mono (check_reserved_words key).
Proof. unfold check_reserved_words. mono_tac. Qed.

Lemma mono_valid_id v : mono (valid_id v).
Proof. unfold valid_id. mono_tac. Qed.

#[local] Hint Resolve mono_hasattr mono_check_reserved_words mono_valid_id
  : mono.

Lemma mono_setattr env sch self key value : mono (setattr env sch self key value).
Proof. unfold setattr. mono_tac. Qed.

#[local] Hint Resolve mono_setattr : mono.

Lemma mono_init_properties env doc pick ps :
  (forall p, mono (pick p)) -> mono (init_properties env doc pick ps).
Proof.
  intros Hp. induction ps as [|[a p] ps IH]; simpl; mono_tac.
Qed.

(** *** The canonical dict of a location has a key *)

Lemma has_field_grow st st' l k :
  keys_grow st st' -> has_field st l k -> has_field st' l k.
Proof.
  intros G (items & H & K). destruct (G l items H) as (items' & H' & K').
  exists items'. auto.
Qed.

Lemma node_setitem_sets l k j st st' :
  node_setitem (JNode l) (KStr k) j st = (Ok tt, st') ->
  has_field st' l (KStr k).
Proof.
  unfold node_setitem, bind, get_node.
  destruct (nodes st !! l) as [[items|items]|] eqn:E; try discriminate.
  intros [= <-]. exists (dict_set (KStr k) j items). split.
  - simpl. apply list_lookup_insert_eq. apply lookup_lt_Some in E. exact E.
  - apply dict_has_set_same.
Qed.

Lemma bind_ok {A B} (m : M A) (f : A -> M B) st b st' :
  bind m f st = (Ok b, st') ->
  exists a st1, m st = (Ok a, st1) /\ f a st1 = (Ok b, st').
Proof.
  unfold bind. destruct (m st) as [[a|e] st1]; [eauto|discriminate].
Qed.

Lemma property_init_sets env p l v st st' :
  property_init env p (JNode l) v st = (Ok tt, st') ->
  has_field st' l (KStr (name p)).
Proof.
  unfold property_init. intros H.
  apply bind_ok in H. destruct H as (j & st1 & _ & H).
  eapply node_setitem_sets. eassumption.
Qed.

Lemma init_properties_sets env l pick ps st st' :
  (forall p, mono (pick p)) ->
  init_properties env (JNode l) pick ps st = (Ok tt, st') ->
  forall a p, In (a, p) ps -> has_field st' l (KStr (name p)).
Proof.
  intros Hp. revert st. induction ps as [|[a0 p0] ps IH]; intros st H a p Hin.
  - destruct Hin.
  - simpl in H. unfold bind in H.
    destruct (pick p0 st) as [[v|e] st1]; [|discriminate].
    destruct (property_init env p0 (JNode l) v st1) as [[[]|e] st2] eqn:E;
      [|discriminate].
    destruct Hin as [[= -> ->]|Hin].
    + eapply has_field_grow;
        [eapply mono_init_properties; eassumption|].
      eapply property_init_sets. eassumption.
    + eapply IH; eassumption.
Qed.

(** *** What a computation returns *)

Lemma returns_ret {A} (P : A -> Prop) a : P a -> returns P (ret a).
Proof. intros H st a' st' [= <- _]. exact H. Qed.

Lemma returns_raise {A} (P : A -> Prop) e : returns P (raise e).
Proof. intros st a st' [=]. Qed.

Lemma returns_bind {A B} (P : B -> Prop) (m : M A) (f : A -> M B) :
  (forall a, returns P (f a)) -> returns P (bind m f).
Proof.
  intros Hf st b st'. unfold bind.
  destruct (m st) as [[a|e] st1]; [apply Hf|discriminate].
Qed.

Ltac returns_tac :=
  repeat first
    [ apply returns_raise
    | apply returns_ret; reflexivity
    | match goal with
      | |- returns _ (bind _ _) => apply returns_bind; intros
      | |- returns _ (match ?x with _ => _ end) => destruct x
      | |- returns _ (if ?x then _ else _) => destruct x
      end ].

Lemma setattr_keeps_doc env sch self key value :
  returns (fun self' => _doc self' = _doc self)
    (setattr env sch self key value).
Proof. unfold setattr. returns_tac. Qed.

Lemma mono_wrap_dynamic env sch data keys self :
  mono (wrap_dynamic env sch data keys self).
Proof.
  revert self. induction keys as [|[attr_name|i] keys IH]; intros self;
    simpl; mono_tac.
Qed.

Lemma wrap_dynamic_keeps_doc env sch data keys self :
  returns (fun self' => _doc self' = _doc self)
    (wrap_dynamic env sch data keys self).
Proof.
  revert self. induction keys as [|[attr_name|i] keys IH]; intros self;
    simpl.
  - returns_tac.
  - apply returns_bind. intros j.
    destruct (has_key attr_name (_properties sch)); [apply IH|].
    assert (G : returns (fun self' => _doc self' = _doc self)
                  (if startswith "_" attr_name
                   then wrap_dynamic env sch data keys self
                   else if String.eqb attr_name "doc_type"
                        then wrap_dynamic env sch data keys self
                        else bind (tree_of_j j) (fun t =>
                             bind (setattr env sch self attr_name
                                     (value_to_python env t))
                               (fun self' =>
                                  wrap_dynamic env sch data keys self')))).
    { destruct (startswith "_" attr_name); [apply IH|].
      destruct (String.eqb attr_name "doc_type"); [apply IH|].
      apply returns_bind. intros t.
      intros st a st'. unfold bind.
      destruct (setattr env sch self attr_name (value_to_python env t) st)
        as [[self1|e] st1] eqn:E; [|discriminate].
      intros H. rewrite (IH self1 _ _ _ H).
      eapply setattr_keeps_doc. eassumption. }
    destruct j as [s|l']; [destruct s|]; first [apply IH | exact G].
  - apply returns_bind. intros j.
    destruct j as [s|l']; [destruct s|]; first [apply IH | apply returns_raise].
Qed.



(** *** Saving *)

Lemma in_mem_sent {A} (m : M A) w r w' :
  in_mem m w = (r, w') -> sent w' = sent w.
Proof.
  unfold in_mem. destruct (m (mem w)) as [r0 st]. intros [= _ <-].
  reflexivity.
Qed.

(** C7. When the validation of the declared fields fails, [save] raises
    that same error, in the state validation left, and nothing has been
    handed to the database. *)
Theorem save_validates_first env (sch : schema) (db : option database)
  (self : instance) (w w' : world) (e : exn) :
  in_mem (Doc.validate env sch self true) w = (Raise e, w') ->
  save env sch db self w = (Raise e, w') /\ sent w' = sent w.
Proof.
  intros H. split.
  - unfold save, wbind. rewrite H. reflexivity.
  - eapply in_mem_sent. eassumption.
Qed.

Lemma save_validates_first_witness :
  save (sample_env noon_2020) Person (Some accepting) unnamed
    w_unnamed
    = (Raise (BadValueError Required), w_unnamed)
  /\ sent w_unnamed = sent w_unnamed.
Proof.
  apply save_validates_first. vm_compute. reflexivity.
Defined.

(** Conversely, a document reaches the database only after its validation
    has succeeded. *)
Lemma sent_only_after_validate env sch db self w :
  sent (snd (save env sch db self w)) <> sent w ->
  exists w1, in_mem (Doc.validate env sch self true) w = (Ok true, w1).
Proof.
  intros H.
  destruct (in_mem (Doc.validate env sch self true) w) as [[b|e] w1] eqn:E.
  - assert (b = true) as ->; [|eauto].
    unfold in_mem in E. unfold Doc.validate, bind in E.
    destruct ((match _doc self with
               | JS _ => raise AttributeError
               | JNode l => fun st => let (r, st') := get_node l st in
                   match r with
                   | Ok a => ret (keys_of a) st'
                   | Raise e => (Raise e, st')
                   end
               end) (mem w)) as [[ks|e] st1]; [|discriminate].
    match type of E with
    | context [?loop ks st1] => destruct (loop ks st1) as [[[]|e] st2]
    end; [|discriminate].
    injection E as <- _. reflexivity.
  - exfalso. apply H.
    unfold save, wbind. rewrite E. simpl.
    eapply in_mem_sent. eassumption.
Qed.

End Documents.

Module Trees.
Import PyStr Py Mem Props Notions Samples Frame.

Lemma scalar_to_json_is_json (s : scalar) : json_scalar (scalar_to_json s) = true.
Proof. destruct s; reflexivity. Qed.

Lemma json_scalar_fixed (s : scalar) :
  json_scalar s = true -> scalar_to_json s = s.
Proof. destruct s; simpl; congruence. Qed.

(** X1. Every scalar that [value_to_json] leaves in a tree is one JSON holds
    as it is: dates, times and decimals have all become text, at any depth. *)
Theorem value_to_json_is_json (v : pyval) :
  all_leaves json_scalar (value_to_json v) = true.
Proof.
  induction v as [s|l IH|d IH] using pyval_nested_ind; simpl.
  - apply scalar_to_json_is_json.
  - induction IH as [|x l Hx _ IHl]; simpl; [reflexivity|].
    rewrite Hx. exact IHl.
  - induction IH as [|[k x] d Hx _ IHd]; simpl; [reflexivity|].
    simpl in Hx. rewrite Hx. exact IHd.
Qed.

Lemma json_tree_fixed (v : pyval) :
  all_leaves json_scalar v = true -> value_to_json v = v.
Proof.
  induction v as [s|l IH|d IH] using pyval_nested_ind; simpl; intros H.
  - f_equal. apply json_scalar_fixed. exact H.
  - f_equal. induction IH as [|x l Hx _ IHl]; simpl in *; [reflexivity|].
    apply andb_prop in H. destruct H as [H1 H2].
    rewrite (Hx H1), (IHl H2). reflexivity.
  - f_equal. induction IH as [|[k x] d Hx _ IHd]; simpl in *; [reflexivity|].
    apply andb_prop in H. destruct H as [H1 H2].
    rewrite (Hx H1), (IHd H2). reflexivity.
Qed.

(** X2. [value_to_json] is idempotent: converting a value that has been
    converted changes nothing. *)
Theorem value_to_json_idempotent (v : pyval) :
  value_to_json (value_to_json v) = value_to_json v.
Proof.
  induction v as [s|l IH|d IH] using pyval_nested_ind; simpl.
  - f_equal. apply json_scalar_fixed, scalar_to_json_is_json.
  - f_equal. induction IH as [|x l Hx _ IHl]; simpl; [reflexivity|].
    rewrite Hx, IHl. reflexivity.
  - f_equal. induction IH as [|[k x] d Hx _ IHd]; simpl; [reflexivity|].
    simpl in Hx. rewrite Hx, IHd. reflexivity.
Qed.

(** X3. [value_to_python] converts text only: a tree with no [str] or
    [unicode] in it comes back as it is. *)
Theorem value_to_python_without_text env (v : pyval) :
  all_leaves (fun s => negb (is_text s)) v = true ->
  value_to_python env v = v.
Proof.
  induction v as [s|l IH|d IH] using pyval_nested_ind; simpl; intros H.
  - f_equal. destruct s; try reflexivity; discriminate.
  - f_equal. induction IH as [|x l Hx _ IHl]; simpl in *; [reflexivity|].
    apply andb_prop in H. destruct H as [H1 H2].
    rewrite (Hx H1), (IHl H2). reflexivity.
  - f_equal. induction IH as [|[k x] d Hx _ IHd]; simpl in *; [reflexivity|].
    apply andb_prop in H. destruct H as [H1 H2].
    rewrite (Hx H1), (IHd H2). reflexivity.
Qed.

Lemma value_to_python_without_text_witness :
  value_to_python (sample_env noon_2020)
    (PDict [(KStr "n", PList [PS (SInt 3); PS SNone])])
  = PDict [(KStr "n", PList [PS (SInt 3); PS SNone])].
Proof. apply value_to_python_without_text. reflexivity. Defined.

(** *** [validate_content] *)

Lemma type_in_allowed (s : scalar) :
  type_in (type_of_scalar s) ALLOWED_PROPERTY_TYPES = true.
Proof. destruct s; reflexivity. Qed.

(** X4. [validate_content] returns the value it was given when every scalar
    in it, at any depth, has exactly the item type (any type when none is
    asked for), and raises [BadValueError] otherwise; lists and dicts on the
    way are walked through, never compared with the item type. *)
Theorem validate_content_checks_leaves (item_type : option pytype) (v : pyval) :
  validate_content item_type v
  = if all_leaves (type_ok item_type) v then Ok v
    else Raise (BadValueError BadItems).
Proof.
  induction v as [s|l IH|d IH] using pyval_nested_ind.
  - cbn [validate_content all_leaves type_ok].
    rewrite type_in_allowed.
    destruct item_type as [t|]; cbn [negb type_ok]; [|reflexivity].
    destruct (pytype_eqb (type_of_scalar s) t); reflexivity.
  - cbn [validate_content all_leaves].
    induction IH as [|x l Hx _ IHl]; [reflexivity|].
    cbn [forallb]. rewrite Hx.
    destruct (all_leaves (type_ok item_type) x); [|reflexivity].
    cbn [andb].
    destruct (forallb (all_leaves (type_ok item_type)) l).
    + match type of IHl with
      | match ?g with _ => _ end = _ => destruct g; [|discriminate]
      end.
      injection IHl as ->. reflexivity.
    + match type of IHl with
      | match ?g with _ => _ end = _ => destruct g; [discriminate|]
      end.
      injection IHl as ->. reflexivity.
  - cbn [validate_content all_leaves].
    induction IH as [|[k x] d Hx _ IHd]; [reflexivity|].
    cbn [forallb snd]. cbn [snd] in Hx. rewrite Hx.
    destruct (all_leaves (type_ok item_type) x); [|reflexivity].
    cbn [andb].
    destruct (forallb (fun kv => all_leaves (type_ok item_type) (snd kv)) d).
    + match type of IHd with
      | match ?g with _ => _ end = _ => destruct g; [|discriminate]
      end.
      injection IHd as ->. reflexivity.
    + match type of IHd with
      | match ?g with _ => _ end = _ => destruct g; [discriminate|]
      end.
      injection IHd as ->. reflexivity.
Qed.

(** [StringListProperty] asks for [str] items: a [unicode] item is
    refused, and so is any item when the item type is [basestring], which
    is the type of no value. *)
Example str_items_only :
  validate_list_content (Some TStr) [PS (SStr "a"); PS (SUni "b")]
  = Raise (BadValueError BadItems)
  /\ validate_list_content (Some TBasestring) [PS (SStr "a")]
     = Raise (BadValueError BadItems)
  /\ validate_list_content (Some TStr) [PList [PS (SStr "a")]; PS (SStr "b")]
     = Ok (PList [PList [PS (SStr "a")]; PS (SStr "b")]).
Proof. repeat split; reflexivity. Qed.

(** X5. [convert_property] goes through the property class of the value's
    type and [value_to_json] does not; the two give the same JSON except on
    a [str], which [StringProperty] turns into [unicode], raising
    [UnicodeDecodeError] when it is not ASCII. *)
Theorem convert_property_is_value_to_json env (v : pyval) :
  convert_property env v
  = match v with
    | PS (SStr x) =>
        if all_chars is_ascii x then Ok (PS (SUni x))
        else Raise UnicodeDecodeError
    | _ => Ok (value_to_json v)
    end.
Proof.
  destruct v as [s|l|d]; [|reflexivity..].
  destruct s as [|b|z|f|x|x|x|x|x|x]; simpl; try reflexivity.
  destruct (all_chars is_ascii x); reflexivity.
Qed.
End Trees.

Module Validation.
Import PyStr Cal Py Mem Props Notions Samples.
Local Open Scope py_scope.

(** *** Computations that only read *)

Lemma pure_ret {A} (a : A) : pure (ret a).
Proof. intros st. reflexivity. Qed.

Lemma pure_raise {A} e : pure (@raise A e).
Proof. intros st. reflexivity. Qed.

Lemma pure_lift {A} (r : result A) : pure (lift r).
Proof. intros st. reflexivity. Qed.

Lemma pure_get_store : pure get_store.
Proof. intros st. reflexivity. Qed.

Lemma pure_get_node l : pure (get_node l).
Proof. intros st. unfold get_node. destruct (nodes st !! l); reflexivity. Qed.

Lemma pure_get_lazy l : pure (get_lazy l).
Proof. intros st. unfold get_lazy. destruct (lazies st !! l); reflexivity. Qed.

Lemma pure_bind {A B} (m : M A) (f : A -> M B) :
  pure m -> (forall a, pure (f a)) -> pure (bind m f).
Proof.
  intros Hm Hf st. unfold bind. specialize (Hm st).
  destruct (m st) as [[a|e] st1]; simpl in Hm; subst st1; [apply Hf|].
  reflexivity.
Qed.

Lemma pure_tree_of v : pure (tree_of v).
Proof. intros st. reflexivity. Qed.

Lemma pure_tree_of_j j : pure (tree_of_j j).
Proof. intros st. reflexivity. Qed.

Create HintDb pure.
#[local] Hint Resolve pure_ret pure_raise pure_lift pure_get_store
  pure_get_node pure_get_lazy pure_tree_of pure_tree_of_j : pure.

Ltac pure_step :=
  first
    [ solve [auto with pure]
    | match goal with
      | |- pure (bind _ _) => apply pure_bind; [|intros]
      | |- pure (match ?x with _ => _ end) => destruct x
      | |- pure (if ?x then _ else _) => destruct x
      end ].
Ltac pure_tac := repeat pure_step.

Lemma pure_value_truth v : pure (value_truth v).
Proof. unfold value_truth. pure_tac. Qed.

Lemma pure_is_dict v : pure (is_dict v).
Proof. unfold is_dict. pure_tac. Qed.

Lemma pure_is_list v : pure (is_list v).
Proof. unfold is_list. pure_tac. Qed.

#[local] Hint Resolve pure_value_truth pure_is_dict pure_is_list : pure.

Lemma pure_empty p v : pure (empty p v).
Proof. unfold empty. pure_tac. Qed.

Lemma pure_run_validators fs v : pure (run_validators fs v).
Proof. induction fs as [|f fs IH]; simpl; pure_tac. Qed.

#[local] Hint Resolve pure_empty pure_run_validators : pure.

Lemma pure_Property_validate p v r : pure (Property_validate p v r).
Proof. unfold Property_validate. pure_tac. Qed.

#[local] Hint Resolve pure_Property_validate : pure.

(** X6. Validation only reads: whatever the class of the descriptor, the
    value and the outcome, the store is afterwards what it was. *)
Theorem validate_leaves_store (p : Property) (v : value) (r : bool) :
  pure (validate p v r).
Proof. unfold validate. pure_tac. Qed.

(** *** What the classes accept *)

Lemma validators_ok_or_raise (p : Property) (v : value) (st : store) :
  let vs := match validators p with
            | NoValidators => ret tt
            | OneValidator f => run_validators [f] v
            | ListValidators fs => run_validators fs v
            end in
  vs st = (Ok tt, st) \/ exists e, vs st = (Raise e, st).
Proof.
  cbv zeta.
  assert (P : pure (match validators p with
                    | NoValidators => ret tt
                    | OneValidator f => run_validators [f] v
                    | ListValidators fs => run_validators fs v
                    end)) by pure_tac.
  specialize (P st).
  destruct ((match validators p with
             | NoValidators => ret tt
             | OneValidator f => run_validators [f] v
             | ListValidators fs => run_validators fs v
             end) st) as [[[]|e] st1]; simpl in P; subst st1; eauto.
Qed.

(** The base check returns the value it was given or raises. *)
Lemma Property_validate_returns (p : Property) (v : value) (r : bool)
  (st st' : store) (v' : value) :
  Property_validate p v r st = (Ok v', st') -> v' = v /\ st' = st.
Proof.
  intros H. pose proof (pure_Property_validate p v r st) as P.
  rewrite H in P. simpl in P. split; [|exact P].
  revert H. unfold Property_validate.
  intros H.
  repeat (apply Documents.bind_ok in H; destruct H as (? & ? & _ & H)).
  injection H as <- _. reflexivity.
Qed.

Lemma validate_returns_scalar (p : Property) (s : scalar) (r : bool)
  (st st' : store) (v' : value) :
  validate p (VS s) r st = (Ok v', st') -> v' = VS s.
Proof.
  unfold validate. intros H.
  apply Documents.bind_ok in H. destruct H as (v1 & st1 & E & H).
  apply Property_validate_returns in E. destruct E as [-> ->].
  revert H. unfold value_truth, is_none, bind, ret, raise.
  destruct (pkind p); destruct s; cbv beta iota;
    repeat match goal with
           | |- context [if ?c then _ else _] => destruct c
           end;
    intros [= <- _] || discriminate; reflexivity.
Qed.

(** X7. When a descriptor validates a scalar, what it returns is that
    scalar, and the scalar is one its class accepts: [None] or an instance
    of the class's type for strings, integers (booleans among them), floats
    and booleans; for the date classes also any other falsy value; anything
    for [Property] and [DecimalProperty], which test no type. *)
Theorem validate_accepts (p : Property) (s : scalar) (r : bool)
  (st st' : store) (v' : value) :
  validate p (VS s) r st = (Ok v', st') ->
  v' = VS s /\ accepts (pkind p) s = true.
Proof.
  unfold validate. intros H.
  apply Documents.bind_ok in H. destruct H as (v1 & st1 & E & H).
  apply Property_validate_returns in E. destruct E as [-> ->].
  unfold accepts.
  destruct (pkind p).
  1, 6: injection H as <- _; auto.
  1-4: destruct s; try (injection H as <- _; auto);
       cbn [is_none] in H;
       match type of H with
       | context [instance_of ?k ?x] => destruct (instance_of k x)
       end; try discriminate; injection H as <- _; auto.
  1-3: destruct s; try (injection H as <- _; auto);
       cbn [is_none value_truth bind ret] in H;
       match type of H with
       | context [scalar_truth ?x] => destruct (scalar_truth x)
       end;
       match type of H with
       | context [instance_of ?k ?x] => destruct (instance_of k x)
       end; try discriminate; injection H as <- _; auto.
  1-2: cbn [value_truth bind ret] in H;
       destruct (scalar_truth s) eqn:T; [|injection H as <- _; auto];
       destruct s; try discriminate.
Qed.

Lemma validate_accepts_witness :
  VS (SBool true) = VS (SBool true) /\ accepts KInteger (SBool true) = true.
Proof.
  apply (validate_accepts (make KInteger "count") (SBool true) true
           empty_store empty_store).
  reflexivity.
Defined.

(** X8. On a write, where required fields are not checked, a descriptor with
    no choices and no validators accepts exactly those scalars, and refuses
    the others with a [BadValueError]. *)
Theorem validate_on_write (p : Property) (s : scalar) (st : store) :
  choices p = [] -> validators p = NoValidators ->
  validate p (VS s) false st
  = (if accepts (pkind p) s then Ok (VS s)
     else Raise (BadValueError WrongType), st).
Proof.
  intros C V. unfold validate, Property_validate, accepts.
  rewrite C, V. cbn [andb bind ret].
  destruct (pkind p);
    destruct s as [|b|z|f|x|x|[? c ?|?|? ?]|x|x|x]; cbn; try reflexivity;
    try destruct b; try destruct (z =? 0); try destruct f;
    try destruct (x =? "")%string; try destruct (c =? 0)%N;
    try match goal with
        | |- context [negb (?a && ?b)] => destruct (a && b)
        end;
    reflexivity.
Qed.

Lemma validate_on_write_witness :
  validate (make KInteger "count") (VS (SStr "3")) false empty_store
  = (Raise (BadValueError WrongType), empty_store).
Proof.
  apply (validate_on_write (make KInteger "count") (SStr "3")); reflexivity.
Defined.

(** X9. [None] never passes a required check, whatever the class, the
    choices and the validators of the descriptor. *)
Theorem validate_requires_a_value (p : Property) (st : store) :
  required p = true ->
  validate p (VS SNone) true st = (Raise (BadValueError Required), st).
Proof.
  intros R. unfold validate, Property_validate, empty.
  destruct (pkind p); cbn; rewrite R; reflexivity.
Qed.

Lemma validate_requires_a_value_witness :
  validate (required_of KDate) (VS SNone) true empty_store
  = (Raise (BadValueError Required), empty_store).
Proof. apply validate_requires_a_value. reflexivity. Defined.

(** *** Writing *)

Lemma validate_unrequired (b : bool) (p : Property) (v : value) (st : store) :
  validate (with_required b p) v false st = validate p v false st.
Proof. reflexivity. Qed.

(** X10. The [required] flag plays no part when a property is written or
    initialised: both validate with [required=False]. *)
Theorem required_is_not_checked_on_write env (b : bool) (p : Property)
  (doc : jval) (v : value) (st : store) :
  Props.set env (with_required b p) doc v st = Props.set env p doc v st
  /\ property_init env (with_required b p) doc v st
     = property_init env p doc v st.
Proof. split; reflexivity. Qed.

Lemma dict_get_set_same {V} (k : pykey) (v : V) items :
  dict_get k (dict_set k v items) = Some v.
Proof.
  assert (R : key_eqb k k = true).
  { destruct k; simpl; [apply String.eqb_refl|apply Z.eqb_refl]. }
  induction items as [|[k0 v0] items IH]; simpl.
  - rewrite R. reflexivity.
  - destruct (key_eqb k k0) eqn:E; simpl.
    + rewrite R. reflexivity.
    + rewrite E. exact IH.
Qed.

Lemma node_setitem_raise doc k j st e st' :
  node_setitem doc k j st = (Raise e, st') -> st' = st.
Proof.
  unfold node_setitem, bind, get_node, put_node, raise.
  destruct doc as [s|l]; [intros [= _ <-]; reflexivity|].
  destruct (nodes st !! l) as [[items|items]|];
    [discriminate| |intros [= _ <-]; reflexivity].
  destruct k as [x|i]; [intros [= _ <-]; reflexivity|].
  destruct (list_set items i j); [discriminate|].
  intros [= _ <-]. reflexivity.
Qed.

Lemma pure_to_json_scalar env p s : pure (to_json env p (VS s)).
Proof.
  unfold to_json.
  destruct (pkind p); try (intros st; reflexivity); pure_tac.
Qed.

(** X11. A write of a scalar that fails has written nothing: validation and
    conversion come before the one assignment into the canonical document. *)
Theorem set_failure_writes_nothing env (p : Property) (doc : jval)
  (s : scalar) (st st' : store) (e : exn) :
  Props.set env p doc (VS s) st = (Raise e, st') -> st' = st.
Proof.
  unfold Props.set, bind.
  assert (P0 : pure (validate p (VS s) false))
    by (unfold validate; pure_tac).
  pose proof (P0 st) as P1. clear P0.
  destruct (validate p (VS s) false st) as [[v1|e1] st1] eqn:E1;
    simpl in P1; subst st1; [|intros [= _ <-]; reflexivity].
  apply validate_returns_scalar in E1. subst v1.
  pose proof (pure_to_json_scalar env p s st) as P2.
  destruct (to_json env p (VS s) st) as [[j|e2] st2];
    simpl in P2; subst st2; [|intros [= _ <-]; reflexivity].
  apply node_setitem_raise.
Qed.

Lemma set_failure_writes_nothing_witness :
  exec (Props.set (sample_env noon_2020) (make KInteger "count") (JNode 0)
          (VS (SStr "3"))) store_named_doc
  = store_named_doc.
Proof.
  apply (set_failure_writes_nothing (sample_env noon_2020)
           (make KInteger "count") (JNode 0) (SStr "3") store_named_doc _
           (BadValueError WrongType)).
  reflexivity.
Defined.

Lemma to_json_scalar_not_none env (k : kind) (a : bool) (s j : scalar) :
  supported k = true -> to_json_scalar env k a s = Ok j -> j <> SNone.
Proof.
  intros K H ->. destruct k; try discriminate K; simpl in H.
  - destruct s; simpl in H; try discriminate.
    destruct (all_chars is_ascii s); discriminate.
  - unfold py_int in H.
    destruct s as [|b|z|f|x|x|[? c ?|?|? ?]|x|x|x]; try discriminate.
    + destruct (trunc_float f); [discriminate|]. destruct f; discriminate.
    + destruct (int_of_str x); discriminate.
    + destruct (int_of_str x); discriminate.
  - unfold py_float in H.
    destruct s as [|b|z|f|x|x|x|x|x|x]; try discriminate;
      match type of H with
      | context [float_of_str ?e ?t] => destruct (float_of_str e t)
      end; discriminate.
  - discriminate.
  - destruct s; simpl in H; try discriminate.
    destruct (all_chars is_ascii s); discriminate.
  - destruct (replace_us_isoformat _); discriminate.
  - destruct (isoformat s); discriminate.
  - destruct (replace_us_isoformat s); discriminate.
Qed.

(** X12. A value that the two converters of the class carry to JSON and back
    is read back after it has been written: the write stores its JSON form
    under the field key of the canonical document, and the read converts
    what is stored there. *)
Theorem write_then_read env (p : Property) (l : loc) items (s : scalar)
  (st st' : store) :
  supported (pkind p) = true ->
  round_trips env (pkind p) (auto_now p) s = true ->
  nodes st !! l = Some (NDict items) ->
  Props.set env p (JNode l) (VS s) st = (Ok tt, st') ->
  exists s', get env p (JNode l) st' = (Ok (VS s'), st')
             /\ scalar_eqb s' s = true.
Proof.
  intros K R N H. unfold Props.set in H.
  apply Documents.bind_ok in H. destruct H as (v1 & st1 & E1 & H).
  assert (P0 : pure (validate p (VS s) false))
    by (unfold validate; pure_tac).
  pose proof (P0 st) as P1. clear P0.
  rewrite E1 in P1. simpl in P1. subst st1.
  apply validate_returns_scalar in E1. subst v1.
  apply Documents.bind_ok in H. destruct H as (j & st2 & E2 & H).
  unfold round_trips in R.
  assert (T : exists js, to_json_scalar env (pkind p) (auto_now p) s = Ok js
                         /\ j = JS js /\ st2 = st).
  { revert E2 R. unfold to_json.
    destruct (pkind p); try discriminate K;
      match goal with
      | |- context [to_json_scalar ?e ?k ?a ?x] =>
          destruct (to_json_scalar e k a x) as [js|e0]
      end; cbn; try discriminate; intros [= <- <-]; eauto. }
  destruct T as (js & T & -> & ->). rewrite T in R.
  destruct (to_python_scalar env (pkind p) js) as [s'|e] eqn:Py;
    [|discriminate R].
  assert (W : st' = with_node st l
                      (NDict (dict_set (KStr (name p)) (JS js) items))).
  { revert H. unfold node_setitem, bind, get_node. rewrite N.
    intros [= <-]. reflexivity. }
  subst st'. exists s'. split; [|exact R].
  assert (N' : nodes (with_node st l
                        (NDict (dict_set (KStr (name p)) (JS js) items)))
               !! l
               = Some (NDict (dict_set (KStr (name p)) (JS js) items))).
  { unfold with_node. cbn [nodes]. apply list_lookup_insert_eq.
    eapply lookup_lt_Some. exact N. }
  unfold get, bind. rewrite (Descriptors.node_get_dict _ _ _ _ N').
  rewrite dict_get_set_same. cbn [option.default from_option id].
  pose proof (to_json_scalar_not_none env _ _ _ _ K T) as NN.
  destruct js; try congruence;
    revert Py; unfold to_python; destruct (pkind p); try discriminate K;
    intros Py; cbv beta iota; unfold bind, lift; rewrite Py; reflexivity.
Qed.

Lemma write_then_read_witness :
  exists s',
    get (sample_env noon_2020) (make KDateTime "created") (JNode 0)
      (exec (Props.set (sample_env noon_2020) (make KDateTime "created")
               (JNode 0) (VS created_2008)) store_named_doc)
    = (Ok (VS s'),
       exec (Props.set (sample_env noon_2020) (make KDateTime "created")
               (JNode 0) (VS created_2008)) store_named_doc)
    /\ scalar_eqb s' created_2008 = true.
Proof.
  apply (write_then_read (sample_env noon_2020) (make KDateTime "created")
           0%nat [(KStr "name", JS (SUni "y"))] created_2008
           store_named_doc); reflexivity.
Defined.

End Validation.

Module Wrappers.
Import PyStr Py Mem Props Notions Samples.
Local Open Scope py_scope.

(** *** Association lists under a map of the values *)

Section Mapped.
Context {A B : Type} (f : A -> B).

#[local] Abbreviation on_values d := (map (fun kv => (fst kv, f (snd kv))) d).

Lemma dict_get_map k d :
  dict_get k (on_values d) = option_map f (dict_get k d).
Proof.
  induction d as [|[k' a] d IH]; simpl; [reflexivity|].
  destruct (key_eqb k k'); [reflexivity|exact IH].
Qed.

Lemma dict_has_map k d : dict_has k (on_values d) = dict_has k d.
Proof.
  unfold dict_has. rewrite dict_get_map.
  destruct (dict_get k d); reflexivity.
Qed.

Lemma dict_set_map k a d :
  dict_set k (f a) (on_values d) = on_values (dict_set k a d).
Proof.
  induction d as [|[k' a'] d IH]; simpl; [reflexivity|].
  destruct (key_eqb k k'); simpl; [reflexivity|].
  f_equal. exact IH.
Qed.

Lemma dict_del_map k d :
  dict_del k (on_values d) = on_values (dict_del k d).
Proof.
  induction d as [|[k' a'] d IH]; simpl; [reflexivity|].
  destruct (key_eqb k k'); simpl; [reflexivity|].
  f_equal. exact IH.
Qed.
End Mapped.

Lemma has_json key items : dict_has key (json_entries items) = dict_has key items.
Proof. apply (dict_has_map (fun s => JS (scalar_to_json s))). Qed.

Lemma has_own key items : dict_has key (own_entries items) = dict_has key items.
Proof. apply (dict_has_map VS). Qed.

Lemma get_own key items :
  dict_get key (own_entries items) = option_map VS (dict_get key items).
Proof. apply (dict_get_map VS). Qed.

Lemma set_json key s items :
  dict_set key (JS (scalar_to_json s)) (json_entries items)
  = json_entries (dict_set key s items).
Proof. apply (dict_set_map (fun s => JS (scalar_to_json s))). Qed.

Lemma set_own key s items :
  dict_set key (VS s) (own_entries items) = own_entries (dict_set key s items).
Proof. apply (dict_set_map VS). Qed.

Lemma del_json key items :
  dict_del key (json_entries items) = json_entries (dict_del key items).
Proof. apply (dict_del_map (fun s => JS (scalar_to_json s))). Qed.

Lemma del_own key items :
  dict_del key (own_entries items) = own_entries (dict_del key items).
Proof. apply (dict_del_map VS). Qed.

(** *** One mutation of a [LazyDict] of scalars *)

Section OneDict.
Variables (st : store) (self l : loc) (items : list (pykey * scalar)).
Hypothesis own : lazies st !! self
                 = Some (LDict (own_entries items) (JNode l)).
Hypothesis canonical : nodes st !! l = Some (NDict (json_entries items)).

#[local] Abbreviation updated items' := (with_flat_dict st self l items').

Lemma flat_updated items' : flat_dict (updated items') self.
Proof.
  exists items', l. unfold with_flat_dict. cbn [nodes lazies]. split.
  - apply list_lookup_insert_eq. eapply lookup_lt_Some. exact own.
  - apply list_lookup_insert_eq. eapply lookup_lt_Some. exact canonical.
Qed.

Lemma flat_unchanged : flat_dict st self.
Proof. exists items, l. auto. Qed.

Lemma setitem_scalar key s :
  LazyDict_setitem self key (PS s) st
  = (Ok tt, updated (dict_set key s items)).
Proof.
  unfold LazyDict_setitem, LazyDict_setitem_, lazy_doc, bind, get_lazy.
  rewrite own. cbn [ret].
  unfold node_update, own_dict_set, bind, get_node, get_lazy, put_node,
    put_lazy.
  rewrite canonical. cbn [nodes lazies ret]. rewrite own.
  cbv beta iota. rewrite set_json, set_own. reflexivity.
Qed.

Lemma delitem_present key :
  dict_has key items = true ->
  LazyDict_delitem self key st = (Ok tt, updated (dict_del key items)).
Proof.
  intros K.
  unfold LazyDict_delitem, lazy_doc, bind, get_lazy.
  rewrite own. cbn [ret].
  unfold node_delitem, bind, get_node, put_node, get_lazy, put_lazy.
  rewrite canonical. cbv beta iota.
  rewrite has_json, K. cbn [nodes lazies]. rewrite own.
  cbv beta iota. rewrite has_own, K, del_json, del_own. reflexivity.
Qed.

Lemma delitem_absent key :
  dict_has key items = false ->
  LazyDict_delitem self key st = (Raise KeyError, st).
Proof.
  intros K.
  unfold LazyDict_delitem, lazy_doc, bind, get_lazy.
  rewrite own. cbn [ret].
  unfold node_delitem, bind, get_node.
  rewrite canonical. cbv beta iota. rewrite has_json, K. reflexivity.
Qed.

Lemma clear_all : LazyDict_clear self st = (Ok tt, updated []).
Proof.
  unfold LazyDict_clear, lazy_doc, bind, get_lazy.
  rewrite own. cbn [ret].
  unfold node_clear, bind, get_node, put_node, get_lazy, put_lazy.
  rewrite canonical. cbn [nodes lazies]. rewrite own. reflexivity.
Qed.

Lemma setdefault_present key s s0 :
  dict_get key items = Some s0 ->
  LazyDict_setdefault self key (PS s) st = (Ok (VS s0), st).
Proof.
  intros K. unfold LazyDict_setdefault, bind, get_lazy.
  rewrite own. cbv beta iota. rewrite get_own, K. reflexivity.
Qed.

Lemma setdefault_absent key s :
  dict_get key items = None ->
  LazyDict_setdefault self key (PS s) st
  = (Ok (VS s), updated (dict_set key s items)).
Proof.
  intros K. unfold LazyDict_setdefault, bind, get_lazy.
  rewrite own. cbv beta iota. rewrite get_own, K.
  cbn [option_map]. unfold lazy_doc, bind, get_lazy. rewrite own.
  cbn [ret value_to_json].
  unfold node_setdefault, bind, get_node. rewrite canonical.
  cbv beta iota. rewrite has_json. unfold dict_has. rewrite K.
  cbn [materialize ret put_node put_lazy nodes lazies of_tree].
  rewrite set_json, set_own. reflexivity.
Qed.
End OneDict.

Lemma update_scalars self l new : forall st items,
  lazies st !! self = Some (LDict (own_entries items) (JNode l)) ->
  nodes st !! l = Some (NDict (json_entries items)) ->
  outcome (LazyDict_update self
             (PDict (map (fun kv => (fst kv, PS (snd kv))) new))) st
  = Ok tt
  /\ flat_dict
       (exec (LazyDict_update self
                (PDict (map (fun kv => (fst kv, PS (snd kv))) new))) st)
       self.
Proof.
  unfold outcome, exec. cbn [LazyDict_update].
  induction new as [|[k s] new IH]; intros st items own canonical.
  - split; [reflexivity|]. eapply flat_unchanged; eassumption.
  - cbn [map fst snd]. unfold bind at 1 3.
    rewrite (setitem_scalar st self l items own canonical).
    destruct (flat_updated st self l items own canonical
                (dict_set k s items)) as (items' & l' & own' & canonical').
    assert (l' = l) as ->.
    { revert own'. unfold with_flat_dict. cbn [lazies].
      rewrite list_lookup_insert_eq by (eapply lookup_lt_Some; exact own).
      intros [= _ <-]. reflexivity. }
    exact (IH _ items' own' canonical').
Qed.

(** One mutation with scalars keeps a [LazyDict] of scalars in step with
    its canonical dict; the only one that can raise is the deletion of a
    key that is not there, which raises [KeyError] before anything is
    changed. *)
Lemma dict_op_step self op st :
  flat_dict st self ->
  flat_dict (exec (run_dict_op self op) st) self
  /\ (outcome (run_dict_op self op) st = Ok tt
      \/ exists key, op = DDel key
                     /\ run_dict_op self op st = (Raise KeyError, st)).
Proof.
  intros (items & l & own & canonical).
  destruct op as [key s|key|key s|new|]; unfold exec, outcome;
    cbn [run_dict_op].
  - rewrite (setitem_scalar st self l items own canonical).
    split; [|left; reflexivity]. eapply flat_updated; eassumption.
  - destruct (dict_has key items) eqn:K.
    + rewrite (delitem_present st self l items own canonical key K).
      split; [|left; reflexivity]. eapply flat_updated; eassumption.
    + rewrite (delitem_absent st self l items own canonical key K).
      split; [eapply flat_unchanged; eassumption|right; eauto].
  - unfold bind. destruct (dict_get key items) as [s0|] eqn:K.
    + rewrite (setdefault_present st self l items own key s s0 K).
      split; [|left; reflexivity]. eapply flat_unchanged; eassumption.
    + rewrite (setdefault_absent st self l items own canonical key s K).
      split; [|left; reflexivity]. eapply flat_updated; eassumption.
  - destruct (update_scalars self l new st items own canonical) as [O F].
    split; [exact F|left; exact O].
  - rewrite (clear_all st self l items own canonical).
    split; [|left; reflexivity]. eapply flat_updated; eassumption.
Qed.

(** X13. The part of the synchronisation invariant that holds: on a
    [LazyDict] whose values are scalars, after every one of a sequence of
    assignments, deletions, [setdefault], [update] and [clear] with scalar
    values, raising or not, the canonical dict holds exactly the JSON forms
    of the wrapper's entries, key for key. *)
Theorem flat_dict_stays_in_step self (ops : list dict_op) (st : store) :
  flat_dict st self ->
  flat_dict (after (map (run_dict_op self) ops) st) self.
Proof.
  revert st. induction ops as [|op ops IH]; intros st F; [exact F|].
  cbn [map after fold_left]. apply IH. apply dict_op_step. exact F.
Qed.

(** X14. On a [LazyDict] of scalars in step with its canonical dict, the
    only assignment, deletion, [setdefault], [update] or [clear] with scalar
    values that raises is the deletion of a missing key, and it raises
    [KeyError] with nothing changed. *)
Theorem flat_dict_raises_on_missing_key_only self (op : dict_op)
  (st : store) (e : exn) :
  flat_dict st self ->
  outcome (run_dict_op self op) st = Raise e ->
  e = KeyError /\ exec (run_dict_op self op) st = st
  /\ exists key, op = DDel key.
Proof.
  intros F R. destruct (dict_op_step self op st F) as [_ [O|(key & -> & E)]].
  - rewrite O in R. discriminate.
  - unfold outcome in R. unfold exec. rewrite E in *. simpl in R.
    injection R as <-. eauto.
Qed.

(** *** One mutation of a [LazyList] of scalars *)

Lemma insert_map {A B} (f : A -> B) (n : nat) (x : A) (l : list A) :
  <[n := f x]> (map f l) = map f (<[n := x]> l).
Proof.
  revert n. induction l as [|a l IH]; intros [|n]; simpl; try reflexivity.
  f_equal. apply IH.
Qed.

Lemma delete_map {A B} (f : A -> B) (n : nat) (l : list A) :
  delete n (map f l) = map f (delete n l).
Proof.
  revert n. induction l as [|a l IH]; intros [|n]; simpl; try reflexivity.
  f_equal. apply IH.
Qed.

Lemma list_set_map {A B} (f : A -> B) (l : list A) (i : Z) (x : A) :
  list_set (map f l) i (f x) = option_map (map f) (list_set l i x).
Proof.
  unfold list_set. rewrite length_map.
  destruct (norm_index (length l) i); [|reflexivity].
  simpl. rewrite insert_map. reflexivity.
Qed.

Lemma list_del_map {A B} (f : A -> B) (l : list A) (i : Z) :
  list_del (map f l) i = option_map (map f) (list_del l i).
Proof.
  unfold list_del. rewrite length_map.
  destruct (norm_index (length l) i); [|reflexivity].
  simpl. rewrite delete_map. reflexivity.
Qed.

Section OneList.
Variables (st : store) (self l : loc) (items : list scalar).
Hypothesis own : lazies st !! self = Some (LList (map VS items) (JNode l)).
Hypothesis canonical :
  nodes st !! l
  = Some (NList (map (fun s => JS (scalar_to_json s)) items)).

Lemma flat_list_updated items' :
  flat_list (with_flat_list st self l items') self.
Proof.
  exists items', l. unfold with_flat_list. cbn [nodes lazies]. split.
  - apply list_lookup_insert_eq. eapply lookup_lt_Some. exact own.
  - apply list_lookup_insert_eq. eapply lookup_lt_Some. exact canonical.
Qed.

Lemma flat_list_unchanged : flat_list st self.
Proof. exists items, l. auto. Qed.

Lemma list_setitem_scalar index s :
  LazyList_setitem self index (PS s) st
  = match list_set items index s with
    | Some items' => (Ok tt, with_flat_list st self l items')
    | None => (Raise IndexError, st)
    end.
Proof.
  unfold LazyList_setitem, LazyList_setitem_, lazy_doc, bind, get_lazy.
  rewrite own. cbn [ret].
  unfold node_setitem, own_list_set, bind, get_node, get_lazy, put_node,
    put_lazy.
  rewrite canonical. cbv beta iota.
  rewrite (list_set_map (fun s => JS (scalar_to_json s))).
  destruct (list_set items index s) as [items'|] eqn:E; [|reflexivity].
  cbn [option_map nodes lazies ret]. rewrite own. cbv beta iota.
  rewrite (list_set_map VS), E. reflexivity.
Qed.

Lemma list_delitem index :
  LazyList_delitem self index st
  = match list_del items index with
    | Some items' => (Ok tt, with_flat_list st self l items')
    | None => (Raise IndexError, st)
    end.
Proof.
  unfold LazyList_delitem, lazy_doc, bind, get_lazy.
  rewrite own. cbn [ret].
  unfold node_delitem, bind, get_node, get_lazy, put_node, put_lazy.
  rewrite canonical. cbv beta iota.
  rewrite (list_del_map (fun s => JS (scalar_to_json s))).
  destruct (list_del items index) as [items'|] eqn:E; [|reflexivity].
  cbn [option_map nodes lazies ret]. rewrite own. cbv beta iota.
  rewrite (list_del_map VS), E. reflexivity.
Qed.

Lemma list_append_scalar s :
  LazyList_append self (PS s) st
  = (Ok tt, with_flat_list st self l (items ++ [s])).
Proof.
  unfold LazyList_append, LazyList_append_, lazy_doc, own_len, bind,
    get_lazy.
  rewrite own. cbn [ret]. cbv beta iota.
  unfold node_append, bind, get_node, put_node, put_lazy.
  cbv beta iota. rewrite own. cbn [ret]. cbv beta iota.
  rewrite canonical. cbn [nodes lazies ret]. cbv beta iota. rewrite own.
  cbv beta iota. unfold with_flat_list. rewrite !map_app. reflexivity.
Qed.
End OneList.

Lemma list_op_step self op st :
  flat_list st self ->
  flat_list (exec (run_list_op self op) st) self
  /\ (outcome (run_list_op self op) st = Ok tt
      \/ run_list_op self op st = (Raise IndexError, st)).
Proof.
  intros (items & l & own & canonical).
  destruct op as [index s|index|s]; unfold exec, outcome;
    cbn [run_list_op].
  - rewrite (list_setitem_scalar st self l items own canonical).
    destruct (list_set items index s) as [items'|].
    + split; [|left; reflexivity]. eapply flat_list_updated; eassumption.
    + split; [|right; reflexivity]. eapply flat_list_unchanged; eassumption.
  - rewrite (list_delitem st self l items own canonical).
    destruct (list_del items index) as [items'|].
    + split; [|left; reflexivity]. eapply flat_list_updated; eassumption.
    + split; [|right; reflexivity]. eapply flat_list_unchanged; eassumption.
  - rewrite (list_append_scalar st self l items own canonical).
    split; [|left; reflexivity]. eapply flat_list_updated; eassumption.
Qed.

(** X15. The part of the synchronisation invariant that holds for lists: on
    a [LazyList] whose items are scalars, after every one of a sequence of
    item assignments, deletions and [append] with scalar values, raising or
    not, the canonical list holds exactly the JSON forms of the wrapper's
    items, position for position. *)
Theorem flat_list_stays_in_step self (ops : list list_op) (st : store) :
  flat_list st self ->
  flat_list (after (map (run_list_op self) ops) st) self.
Proof.
  revert st. induction ops as [|op ops IH]; intros st F; [exact F|].
  cbn [map after fold_left]. apply IH. apply list_op_step. exact F.
Qed.

(** X16. On a [LazyList] of scalars in step with its canonical list, an item
    assignment or deletion at an index out of range raises [IndexError] with
    nothing changed; no assignment, deletion or [append] of a scalar raises
    anything else. *)
Theorem flat_list_raises_out_of_range_only self (op : list_op)
  (st : store) (e : exn) :
  flat_list st self ->
  outcome (run_list_op self op) st = Raise e ->
  e = IndexError /\ exec (run_list_op self op) st = st.
Proof.
  intros F R. destruct (list_op_step self op st F) as [_ [O|E]].
  - rewrite O in R. discriminate.
  - unfold outcome in R. unfold exec. rewrite E in *. simpl in R.
    injection R as <-. auto.
Qed.

(** *** Examples *)

Lemma flat_dict_stays_in_step_witness :
  flat_dict
    (after (map (run_dict_op 0)
              [DSet (KStr "b") created_2008; DDel (KStr "zz");
               DSetdefault (KStr "c") (SInt 3); DDel (KStr "a")])
       (exec (lazy_dict_over (PDict [(KStr "a", PS (SInt 1))]))
          empty_store))
    0.
Proof.
  apply flat_dict_stays_in_step.
  exists [(KStr "a", SInt 1)], 0%nat. split; reflexivity.
Defined.

Lemma flat_dict_raises_on_missing_key_only_witness :
  KeyError = KeyError
  /\ exec (run_dict_op 0 (DDel (KStr "zz")))
       (exec (lazy_dict_over (PDict [(KStr "a", PS (SInt 1))])) empty_store)
     = exec (lazy_dict_over (PDict [(KStr "a", PS (SInt 1))])) empty_store
  /\ exists key, DDel (KStr "zz") = DDel key.
Proof.
  apply flat_dict_raises_on_missing_key_only.
  - exists [(KStr "a", SInt 1)], 0%nat. split; reflexivity.
  - reflexivity.
Defined.

Lemma flat_list_stays_in_step_witness :
  flat_list
    (after (map (run_list_op 0)
              [LAppend created_2008; LSet 5 (SInt 0); LDel 0;
               LSet (-1) (SStr "x")])
       (exec (lazy_list_over one_two) empty_store))
    0.
Proof.
  apply flat_list_stays_in_step.
  exists [SInt 1; SInt 2], 0%nat. split; reflexivity.
Defined.

Lemma flat_list_raises_out_of_range_only_witness :
  IndexError = IndexError
  /\ exec (run_list_op 0 (LSet 5 (SInt 0)))
       (exec (lazy_list_over one_two) empty_store)
     = exec (lazy_list_over one_two) empty_store.
Proof.
  apply flat_list_raises_out_of_range_only.
  - exists [SInt 1; SInt 2], 0%nat. split; reflexivity.
  - reflexivity.
Defined.
End Wrappers.

Module Schema.
Import PyStr Py Mem Props Doc Frame Documents Notions Samples.
Local Open Scope py_scope.

#[local] Hint Resolve mono_node_getitem mono_node_has mono_node_get
  mono_node_setitem mono_node_update mono_node_append
  mono_materialize mono_tree_of mono_tree_of_j
  mono_lazy_doc mono_own_dict_set mono_own_list_set mono_own_len
  mono_LazyDict_init mono_LazyList_init
  mono_value_truth mono_is_dict mono_is_list mono_empty mono_run_validators
  mono_Property_validate mono_validate mono_to_python mono_to_json
  mono_default_value mono_property_init mono_get mono_set
  mono_hasattr mono_check_reserved_words mono_valid_id mono_setattr : mono.

Ltac mono_tac := repeat Frame.mono_step.

(** *** Construction *)

Lemma mono_init_dynamic env sch l self : mono (init_dynamic env sch l self).
Proof.
  revert self. induction l as [|[a v] l IH]; intros self; simpl; mono_tac.
Qed.

Lemma init_dynamic_keeps_doc env sch l self :
  returns (fun self' => _doc self' = _doc self) (init_dynamic env sch l self).
Proof.
  revert self. induction l as [|[a v] l IH]; intros self; simpl.
  - apply returns_ret. reflexivity.
  - destruct (negb (has_key a (_properties sch))
              && negb (match v with PS SNone => true | _ => false end));
      [|apply IH].
    intros st self2 st'. unfold bind.
    destruct (setattr env sch self a v st) as [[self1|e] st1] eqn:E;
      [|discriminate].
    intros H. rewrite (IH self1 _ _ _ H).
    eapply setattr_keeps_doc. eassumption.
Qed.

Lemma mono_DocumentSchema_init env sch properties :
  mono (DocumentSchema_init env sch properties).
Proof.
  unfold DocumentSchema_init.
  apply mono_bind; [apply mono_new_node|]. intros doc.
  apply mono_bind; [apply mono_node_setitem|]. intros _.
  apply mono_bind.
  - apply mono_init_properties. intros p. cbv beta. mono_tac.
  - intros _. apply mono_init_dynamic.
Qed.

(** X17. When the constructor returns, the canonical document of the new
    instance is a dict that did not exist before, and it has an entry under
    [doc_type] and under the field key of every declared property. *)
Theorem init_fills_declared_fields env (sch : schema)
  (properties : list (string * pyval)) (st st' : store) (self : instance) :
  DocumentSchema_init env sch properties st = (Ok self, st') ->
  _doc self = JNode (length (nodes st))
  /\ has_field st' (length (nodes st)) (KStr "doc_type")
  /\ forall attr p, In (attr, p) (_properties sch) ->
       has_field st' (length (nodes st)) (KStr (name p)).
Proof.
  unfold DocumentSchema_init. intros H.
  apply bind_ok in H. destruct H as (doc & st0 & E0 & H).
  injection E0 as <- <-.
  apply bind_ok in H. destruct H as ([] & st1 & E1 & H).
  apply bind_ok in H. destruct H as ([] & st2 & E2 & H).
  set (l := length (nodes st)) in *.
  assert (H' : init_dynamic env sch
                 (fold_left (fun acc kp => remove (name (snd kp)) acc)
                    (_properties sch) properties)
                 (mkinstance (JNode l) [] []) st2 = (Ok self, st'))
    by exact H.
  assert (G2 : keys_grow st2 st') by (eapply mono_init_dynamic; exact H').
  assert (G1 : keys_grow st1 st2).
  { eapply mono_init_properties; [|exact E2]. intros p. cbv beta. mono_tac. }
  split; [|split].
  - apply (init_dynamic_keeps_doc _ _ _ _ _ _ _ H').
  - eapply has_field_grow; [exact G2|].
    eapply has_field_grow; [exact G1|].
    eapply node_setitem_sets. exact E1.
  - intros attr p Hin. eapply has_field_grow; [exact G2|].
    eapply init_properties_sets; [|exact E2|exact Hin].
    intros p0. cbv beta. mono_tac.
Qed.

Lemma init_fills_declared_fields_witness :
  _doc (match outcome (DocumentSchema_init (sample_env noon_2020) Person
                         [("name", PS (SUni "Ada")); ("tag", PS (SInt 1))])
                empty_store with
        | Ok self => self
        | Raise _ => unnamed
        end) = JNode (length (nodes empty_store))
  /\ has_field
       (exec (DocumentSchema_init (sample_env noon_2020) Person
                [("name", PS (SUni "Ada")); ("tag", PS (SInt 1))])
          empty_store)
       (length (nodes empty_store)) (KStr "doc_type")
  /\ forall attr p, In (attr, p) (_properties Person) ->
       has_field
         (exec (DocumentSchema_init (sample_env noon_2020) Person
                  [("name", PS (SUni "Ada")); ("tag", PS (SInt 1))])
            empty_store)
         (length (nodes empty_store)) (KStr (name p)).
Proof.
  apply (init_fills_declared_fields (sample_env noon_2020) Person
           [("name", PS (SUni "Ada")); ("tag", PS (SInt 1))] empty_store).
  vm_compute. reflexivity.
Defined.

(** *** Wrapping *)

(** X18. Whatever [wrap] does and however it ends, with an instance or with
    an exception, no dict of the store has lost a key: the caller's mapping
    and everything else keep every entry they had, possibly with a new
    value. *)
Theorem wrap_drops_no_key env (sch : schema) (data : jval)
  (st st' : store) (r : result instance) :
  wrap env sch data st = (r, st') -> keys_grow st st'.
Proof.
  revert st r st'. change (mono (wrap env sch data)). unfold wrap.
  apply mono_bind; [apply mono_DocumentSchema_init|]. intros instance0.
  cbv zeta.
  apply mono_bind.
  { apply mono_init_properties. intros p. cbv beta. mono_tac. }
  intros _. destruct (_allow_dynamic_properties sch); [|apply mono_ret].
  apply mono_bind; [mono_tac|]. intros keys.
  apply (mono_wrap_dynamic env sch data keys).
Qed.

Lemma wrap_drops_no_key_witness : keys_grow st_data (snd wrapped_Person).
Proof.
  apply (wrap_drops_no_key (sample_env noon_2020) Person (JNode 0) st_data
           _ (fst wrapped_Person)).
  vm_compute. reflexivity.
Defined.

(** *** Setting attributes *)

(** X19. The names [_rev], [$schema] and [type] cannot be set on any
    instance: the attempt raises [ReservedWordError] and changes nothing. *)
Theorem setattr_refuses_reserved_words env (sch : schema) (self : instance)
  (key : string) (value : pyval) (st : store) :
  str_in key _RESERVED_WORDS = true -> key <> "_id" ->
  setattr env sch self key value st = (Raise ReservedWordError, st).
Proof.
  intros R N. unfold setattr.
  apply String.eqb_neq in N. rewrite N.
  unfold bind, ret, check_reserved_words. cbv beta iota.
  rewrite R. reflexivity.
Qed.

Lemma setattr_refuses_reserved_words_witness :
  setattr (sample_env noon_2020) Person unnamed "type" (PS (SStr "x"))
    st_data
  = (Raise ReservedWordError, st_data).
Proof.
  apply setattr_refuses_reserved_words; [reflexivity|discriminate].
Defined.

Lemma hasattr_unknown env sch self key st :
  unknown sch self key = true ->
  hasattr env sch self key st = (Ok false, st).
Proof.
  unfold unknown, hasattr. intros U.
  apply andb_prop in U. destruct U as [U U5].
  apply andb_prop in U. destruct U as [U U4].
  apply andb_prop in U. destruct U as [U U3].
  apply andb_prop in U. destruct U as [U1 U2].
  apply negb_true_iff in U1, U2, U3, U4, U5.
  unfold has_key in U1.
  destruct (lookup key (_properties sch)); [discriminate|].
  rewrite U2, U3, U4. unfold ret. f_equal. f_equal.
  revert U5. unfold str_in. cbn [existsb].
  repeat match goal with
         | |- context [String.eqb key ?x] => destruct (String.eqb key x)
         end; cbn; try discriminate; reflexivity.
Qed.

(** X20. On a class that does not allow dynamic properties, setting a name
    the instance does not know raises [AttributeError] and changes nothing. *)
Theorem setattr_static_refuses_unknown env (sch : schema) (self : instance)
  (key : string) (value : pyval) (st : store) :
  _allow_dynamic_properties sch = false ->
  unknown sch self key = true ->
  str_in key _RESERVED_WORDS = false ->
  setattr env sch self key value st = (Raise AttributeError, st).
Proof.
  intros D U R. unfold setattr.
  assert (N : String.eqb key "_id" = false).
  { revert R. unfold str_in, _RESERVED_WORDS. cbn [existsb].
    destruct (String.eqb key "_id"); [discriminate|reflexivity]. }
  rewrite N. unfold bind at 1. cbn [ret].
  unfold bind at 1. unfold check_reserved_words. rewrite R. cbn [ret].
  unfold bind at 1. rewrite (hasattr_unknown env sch self key st U).
  rewrite D. reflexivity.
Qed.

Lemma setattr_static_refuses_unknown_witness :
  setattr (sample_env noon_2020) StaticPerson unnamed "tag" (PS (SInt 1))
    st_data
  = (Raise AttributeError, st_data).
Proof. apply setattr_static_refuses_unknown; reflexivity. Defined.

(** X21. On a class that allows dynamic properties, setting a public name
    the instance does not know to a scalar records it twice: the value
    itself under [_dynamic_properties], and its JSON form, as
    [convert_property] gives it, in the canonical document. *)
Theorem setattr_dynamic_scalar env (sch : schema) (self : instance)
  (key : string) (s j : scalar) (l : loc) items (st : store) :
  _allow_dynamic_properties sch = true ->
  unknown sch self key = true ->
  str_in key _RESERVED_WORDS = false ->
  startswith "_" key = false ->
  _doc self = JNode l ->
  nodes st !! l = Some (NDict items) ->
  convert_property env (PS s) = Ok (PS j) ->
  setattr env sch self key (PS s) st
  = (Ok (mkinstance (JNode l) (assign key (VS s) (_dynamic_properties self))
           (own_attrs self)),
     with_node st l (NDict (dict_set (KStr key) (JS j) items))).
Proof.
  intros D U R P Hd N C. unfold setattr.
  assert (E : String.eqb key "_id" = false).
  { revert R. unfold str_in, _RESERVED_WORDS. cbn [existsb].
    destruct (String.eqb key "_id"); [discriminate|reflexivity]. }
  rewrite E. unfold bind at 1. cbn [ret].
  unfold bind at 1. unfold check_reserved_words. rewrite R. cbn [ret].
  unfold bind at 1. rewrite (hasattr_unknown env sch self key st U).
  rewrite D, P. cbn [negb andb orb].
  assert (I : has_key key (_properties sch) = false
              /\ in_dir sch self key = false).
  { revert U. unfold unknown, in_dir.
    destruct (has_key key (_properties sch)); [discriminate|].
    destruct (str_in key (class_attrs sch)); [discriminate|].
    destruct (has_key key (own_attrs self)); [discriminate|]. auto. }
  destruct I as [I1 I2]. rewrite I1, I2. cbn [negb andb].
  unfold bind, lift. rewrite C. cbn [materialize ret].
  rewrite Hd. unfold node_setitem, bind, get_node. rewrite N.
  reflexivity.
Qed.

Lemma setattr_dynamic_scalar_witness :
  setattr (sample_env noon_2020) Person unnamed "born" (PS created_2008)
    st_data
  = (Ok (mkinstance (JNode 0) [("born", VS created_2008)] []),
     with_node st_data 0
       (NDict (dict_set (KStr "born") (JS (SStr "2008-11-10T08:00:00Z"))
                 [(KStr "name", JS SNone); (KStr "tag", JS (SUni "x"))]))).
Proof.
  apply (setattr_dynamic_scalar (sample_env noon_2020) Person unnamed
           "born"); reflexivity.
Defined.

(** *** The document as JSON *)

(** X22. [to_json] returns the canonical document itself, not a copy, with
    an entry under [doc_type]; a document that already has a [doc_type] is
    left as it is. *)
Theorem to_json_returns_the_document (sch : schema) (self : instance)
  (l : loc) items (st : store) :
  _doc self = JNode l -> nodes st !! l = Some (NDict items) ->
  exists st', Doc.to_json sch self st = (Ok (JNode l), st')
    /\ has_field st' l (KStr "doc_type")
    /\ (forall t, dict_get (KStr "doc_type") items = Some t ->
                  t <> JS SNone -> st' = st).
Proof.
  intros Hd N. unfold Doc.to_json. rewrite Hd.
  unfold bind at 1. rewrite (Descriptors.node_get_dict l items _ st N).
  destruct (dict_get (KStr "doc_type") items) as [t|] eqn:G;
    cbn [option.default from_option id].
  - assert (F : has_field st l (KStr "doc_type")).
    { exists items. split; [exact N|]. unfold dict_has. rewrite G.
      reflexivity. }
    destruct t as [[]|l'];
      try (exists st; split;
           [reflexivity|split; [exact F|intros; reflexivity]]).
    eexists. split; [|split].
    + cbv beta iota. unfold node_setitem, get_node, bind.
      rewrite N. reflexivity.
    + eexists. split; [|apply dict_has_set_same].
      cbn [nodes]. apply list_lookup_insert_eq.
      eapply lookup_lt_Some. exact N.
    + intros t [= <-] C. congruence.
  - eexists. split; [|split].
    + cbv beta iota. unfold node_setitem, get_node, bind.
      rewrite N. reflexivity.
    + eexists. split; [|apply dict_has_set_same].
      cbn [nodes]. apply list_lookup_insert_eq.
      eapply lookup_lt_Some. exact N.
    + intros t [=].
Qed.

Lemma to_json_returns_the_document_witness :
  exists st', Doc.to_json Person named store_named_doc = (Ok (JNode 0), st')
    /\ has_field st' 0 (KStr "doc_type")
    /\ (forall t,
          dict_get (KStr "doc_type") [(KStr "name", JS (SUni "y"))] = Some t ->
          t <> JS SNone -> st' = store_named_doc).
Proof.
  apply (to_json_returns_the_document Person named 0); reflexivity.
Defined.

(** *** Saving *)

Lemma wbind_ok {A B} (m : W A) (f : A -> W B) w b w' :
  wbind m f w = (Ok b, w') ->
  exists a w1, m w = (Ok a, w1) /\ f a w1 = (Ok b, w').
Proof.
  unfold wbind. destruct (m w) as [[a|e] w1]; [eauto|discriminate].
Qed.

Lemma db_save_doc_sends d doc w r w' :
  db_save_doc d doc w = (r, w') ->
  sent w' = sent w \/ exists t, sent w' = (sent w ++ [t])%list.
Proof.
  unfold db_save_doc, wbind.
  destruct (in_mem (tree_of_j doc) w) as [[t|e] w1] eqn:E.
  - apply in_mem_sent in E. rewrite <- E.
    destruct (save_doc d t) as [[id rev]|e].
    + intros H. apply in_mem_sent in H. cbn [sent] in H. eauto.
    + intros [= _ <-]. cbn [sent]. eauto.
  - apply in_mem_sent in E. intros [= _ <-]. auto.
Qed.

Lemma db_save_doc_ok_sends d doc w w' :
  db_save_doc d doc w = (Ok tt, w') ->
  exists t, sent w' = (sent w ++ [t])%list.
Proof.
  unfold db_save_doc, wbind.
  destruct (in_mem (tree_of_j doc) w) as [[t|e] w1] eqn:E; [|discriminate].
  apply in_mem_sent in E. rewrite <- E.
  destruct (save_doc d t) as [[id rev]|e]; [|discriminate].
  intros H. apply in_mem_sent in H. cbn [sent] in H. eauto.
Qed.

(** X23. However [save] ends, the database has been handed at most one
    document; when it returns, validation had succeeded and the database has
    been handed exactly one; with no database nothing is sent and [save]
    does not return. *)
Theorem save_sends_at_most_once env (sch : schema) (db : option database)
  (self : instance) (w w' : world) (r : result unit) :
  save env sch db self w = (r, w') ->
  (sent w' = sent w \/ exists t, sent w' = (sent w ++ [t])%list)
  /\ (r = Ok tt ->
      (exists w1, in_mem (Doc.validate env sch self true) w = (Ok true, w1))
      /\ (exists t, sent w' = (sent w ++ [t])%list)
      /\ db <> None).
Proof.
  unfold save. intros H. split.
  - revert H. unfold wbind at 1.
    destruct (in_mem (Doc.validate env sch self true) w) as [[b|e] w1] eqn:E;
      apply in_mem_sent in E; rewrite <- E;
      [|intros [= _ <-]; auto].
    destruct db as [d|]; [|intros [= _ <-]; auto].
    unfold wbind at 1.
    destruct (in_mem (Doc.to_json sch self) w1) as [[doc|e] w2] eqn:E2;
      apply in_mem_sent in E2; rewrite <- E2;
      [|intros [= _ <-]; auto].
    unfold wbind.
    destruct (db_save_doc d doc w2) as [[[]|e] w3] eqn:E3;
      apply db_save_doc_sends in E3; intros [= _ <-]; exact E3.
  - intros ->. apply wbind_ok in H. destruct H as (b & w1 & E & H).
    assert (Hs : sent w1 = sent w) by (eapply in_mem_sent; exact E).
    destruct db as [d|]; [|discriminate].
    apply wbind_ok in H. destruct H as (doc & w2 & E2 & H).
    apply in_mem_sent in E2.
    apply wbind_ok in H. destruct H as ([] & w3 & E3 & H).
    injection H as <-.
    apply db_save_doc_ok_sends in E3. destruct E3 as (t & E3).
    split; [|split; [|discriminate]].
    + exists w1. revert E. unfold in_mem.
      destruct (Doc.validate env sch self true (mem w)) as [[b'|e] s1] eqn:V;
        [|discriminate].
      intros [= <- <-]. f_equal. f_equal.
      unfold Doc.validate in V.
      apply bind_ok in V. destruct V as (ks & s2 & _ & V).
      apply bind_ok in V. destruct V as ([] & s3 & _ & V).
      injection V as <- _. reflexivity.
    + exists t. rewrite E3, E2, Hs. reflexivity.
Qed.

Lemma save_sends_at_most_once_witness :
  (sent (snd (save (sample_env noon_2020) Person (Some accepting) named
                w_named))
   = sent w_named
   \/ exists t,
        sent (snd (save (sample_env noon_2020) Person (Some accepting) named
                     w_named))
        = (sent w_named ++ [t])%list)
  /\ (fst (save (sample_env noon_2020) Person (Some accepting) named w_named)
      = Ok tt ->
      (exists w1, in_mem (Doc.validate (sample_env noon_2020) Person named
                            true) w_named = (Ok true, w1))
      /\ (exists t,
            sent (snd (save (sample_env noon_2020) Person (Some accepting)
                         named w_named))
            = (sent w_named ++ [t])%list)
      /\ Some accepting <> None).
Proof.
  apply (save_sends_at_most_once (sample_env noon_2020) Person
           (Some accepting) named w_named).
  vm_compute. reflexivity.
Defined.
End Schema.

Module Moments.
Import PyStr Cal Iso Py Mem Props Conversions RoundTrip Notions Samples
 .

Lemma time_ok_whole (t : time) :
  time_ok t = true -> time_ok (replace_microsecond0 t) = true.
Proof.
  unfold time_ok, replace_microsecond0. cbn [hour minute second microsecond].
  intros H. repeat (apply andb_prop in H; destruct H as [H ?]).
  repeat (apply andb_true_intro; split); auto.
Qed.

(** X24. Sub-second precision is dropped and nothing else: a datetime or a
    time with fields in range, whatever its microseconds, goes to JSON and
    comes back as the same moment with its microseconds at zero, for a
    descriptor whose [auto_now] is off. *)
Theorem microseconds_are_dropped env (k : kind) (s : scalar) :
  moment_ok k s = true ->
  exists j, to_json_scalar env k false s = Ok j
            /\ to_python_scalar env k j = Ok (whole_seconds s).
Proof.
  destruct k; try discriminate; destruct s; try discriminate;
    cbn [moment_ok]; intros H.
  - cbn [to_json_scalar replace_us_isoformat]. eexists. split; [reflexivity|].
    cbn [to_python_scalar is_basestring whole_seconds].
    rewrite DateTimeProperty_parse_isoformat; [reflexivity| |reflexivity].
    unfold datetime_ok in *. cbn [dt_date dt_time].
    apply andb_prop in H. destruct H as [H1 H2].
    rewrite H1, (time_ok_whole _ H2). reflexivity.
  - cbn [to_json_scalar replace_us_isoformat]. eexists. split; [reflexivity|].
    cbn [to_python_scalar is_basestring whole_seconds].
    rewrite TimeProperty_parse_isoformat;
      [reflexivity|apply time_ok_whole; exact H|reflexivity].
Qed.

Lemma microseconds_are_dropped_witness :
  exists j,
    to_json_scalar (sample_env noon_2020) KTime false
      (STime (mktime 8 30 15 123456)) = Ok j
    /\ to_python_scalar (sample_env noon_2020) KTime j
       = Ok (whole_seconds (STime (mktime 8 30 15 123456))).
Proof. apply microseconds_are_dropped. reflexivity. Defined.
End Moments.

Module Reading.
Import PyStr Py Mem Props Notions Samples Wrappers.
Local Open Scope list_scope.
Local Open Scope py_scope.

(** *** Reading a flat node as a tree *)

Lemma read_j_scalars fuel st (js : list (pykey * scalar)) :
  all_ok (on_snd (read_j fuel st)) (scalar_entries js)
  = Ok (map (fun kv => (fst kv, PS (snd kv))) js).
Proof.
  unfold scalar_entries.
  induction js as [|[k s] js IH]; [reflexivity|].
  cbn [map all_ok]. unfold on_snd at 1. cbn [fst snd].
  replace (read_j fuel st (JS s)) with (@Ok pyval (PS s))
    by (destruct fuel; reflexivity).
  rewrite IH. reflexivity.
Qed.

Lemma read_j_scalar_list fuel st (js : list scalar) :
  all_ok (read_j fuel st) (map JS js) = Ok (map PS js).
Proof.
  induction js as [|s js IH]; [reflexivity|].
  cbn [map all_ok].
  replace (read_j fuel st (JS s)) with (@Ok pyval (PS s))
    by (destruct fuel; reflexivity).
  rewrite IH. reflexivity.
Qed.

Lemma read_j_node fuel st l :
  read_j (S fuel) st (JNode l)
  = match nodes st !! l with
    | Some (NList items) =>
        match all_ok (read_j fuel st) items with
        | Ok r => Ok (PList r)
        | Raise e => Raise e
        end
    | Some (NDict items) =>
        match all_ok (on_snd (read_j fuel st)) items with
        | Ok r => Ok (PDict r)
        | Raise e => Raise e
        end
    | None => Raise RuntimeError
    end.
Proof. reflexivity. Qed.

Lemma tree_of_flat_dict st l js :
  nodes st !! l = Some (NDict (scalar_entries js)) ->
  tree_of_j (JNode l) st
  = (Ok (PDict (map (fun kv => (fst kv, PS (snd kv))) js)), st).
Proof.
  intros N. unfold tree_of_j, recursion_limit.
  rewrite read_j_node, N, read_j_scalars. reflexivity.
Qed.

Lemma tree_of_flat_list st l js :
  nodes st !! l = Some (NList (map JS js)) ->
  tree_of_j (JNode l) st = (Ok (PList (map PS js)), st).
Proof.
  intros N. unfold tree_of_j, recursion_limit.
  rewrite read_j_node, N, read_j_scalar_list. reflexivity.
Qed.

(** *** The constructors as loops *)

Lemma LazyDict_init_fill items doc :
  LazyDict_init (PDict items) doc
  = bind (new_lazy (LDict [] doc)) (fun self =>
    bind (LazyDict_fill self items) (fun _ => ret (VLazy self))).
Proof. reflexivity. Qed.

Lemma LazyList_init_fill items doc :
  LazyList_init (PList items) doc
  = bind (new_lazy (LList (map of_tree items) doc)) (fun self =>
    bind (LazyList_fill self 0 items) (fun _ => ret (VLazy self))).
Proof. reflexivity. Qed.

(** *** Keys *)

Lemma key_eqb_refl k : key_eqb k k = true.
Proof. destruct k; simpl; [apply String.eqb_refl|apply Z.eqb_refl]. Qed.

Lemma key_eqb_sym k k' : key_eqb k k' = key_eqb k' k.
Proof.
  destruct k, k'; simpl; try reflexivity;
    [apply String.eqb_sym|apply Z.eqb_sym].
Qed.

Lemma dict_set_app_absent {V} k (v : V) A B :
  dict_has k A = false -> dict_set k v (A ++ B) = A ++ dict_set k v B.
Proof.
  unfold dict_has. induction A as [|[k0 v0] A IH]; simpl; [reflexivity|].
  destruct (key_eqb k k0); [discriminate|].
  intros H. rewrite (IH H). reflexivity.
Qed.

Lemma dict_has_app_cons {V} k k' (v : V) A B :
  dict_has k (A ++ (k', v) :: B) = false ->
  key_eqb k k' = false /\ dict_has k A = false.
Proof.
  unfold dict_has. induction A as [|[k0 v0] A IH]; simpl.
  - destruct (key_eqb k k'); [discriminate|auto].
  - destruct (key_eqb k k0); [discriminate|exact IH].
Qed.

Lemma distinct_keys_absent {V} k (v : V) pre post :
  distinct_keys (pre ++ (k, v) :: post) = true -> dict_has k pre = false.
Proof.
  induction pre as [|[k0 v0] pre IH]; [reflexivity|].
  cbn [app distinct_keys]. intros H.
  apply andb_prop in H. destruct H as [H1 H2].
  apply negb_true_iff in H1. apply dict_has_app_cons in H1.
  destruct H1 as [H1 _]. specialize (IH H2).
  unfold dict_has in *. simpl. rewrite key_eqb_sym, H1. exact IH.
Qed.

Section Folds.
Context {A B : Type} (g : A -> B).

#[local] Abbreviation on_values f d :=
  (map (fun kv => (fst kv, f (snd kv))) d).

(** Setting the entries of [post] one by one, after those of [pre],
    into a dict that has none of their keys yet. *)
Lemma fold_set_fresh (post pre : list (pykey * A)) :
  distinct_keys (pre ++ post) = true ->
  fold_left (fun a kv => dict_set (fst kv) (g (snd kv)) a) post
    (on_values g pre)
  = on_values g (pre ++ post).
Proof.
  revert pre. induction post as [|[k v] post IH]; intros pre D.
  - rewrite app_nil_r. reflexivity.
  - cbn [fold_left fst snd].
    pose proof (distinct_keys_absent k v pre post D) as H.
    rewrite <- (app_nil_r (on_values g pre)).
    rewrite dict_set_app_absent
      by (rewrite (dict_has_map g); exact H).
    cbn [dict_set].
    replace (on_values g pre ++ [(k, g v)])
      with (on_values g (pre ++ [(k, v)]))
      by (rewrite map_app; reflexivity).
    rewrite IH by (rewrite <- app_assoc; exact D).
    rewrite <- app_assoc. reflexivity.
Qed.

(** The same into a dict that already has all the keys, in order. *)
Lemma fold_set_in_place (post pre : list (pykey * A))
  (rest : list (pykey * B)) :
  map fst rest = map fst post ->
  distinct_keys (pre ++ post) = true ->
  fold_left (fun a kv => dict_set (fst kv) (g (snd kv)) a) post
    (on_values g pre ++ rest)
  = on_values g (pre ++ post).
Proof.
  revert pre rest.
  induction post as [|[k v] post IH]; intros pre rest K D.
  - destruct rest; [|discriminate].
    cbn [fold_left]. rewrite !app_nil_r. reflexivity.
  - destruct rest as [|[k' b] rest]; [discriminate|].
    cbn [map fst] in K. injection K as -> K.
    cbn [fold_left fst snd].
    pose proof (distinct_keys_absent k v pre post D) as H.
    rewrite dict_set_app_absent
      by (rewrite (dict_has_map g); exact H).
    cbn [dict_set]. rewrite key_eqb_refl.
    replace (on_values g pre ++ (k, g v) :: rest)
      with (on_values g (pre ++ [(k, v)]) ++ rest)
      by (rewrite map_app, <- app_assoc; reflexivity).
    rewrite (IH _ _ K) by (rewrite <- app_assoc; exact D).
    rewrite <- app_assoc. reflexivity.
Qed.

Lemma distinct_keys_map (d : list (pykey * A)) :
  distinct_keys (on_values g d) = distinct_keys d.
Proof.
  induction d as [|[k v] d IH]; [reflexivity|].
  cbn [map distinct_keys fst snd]. rewrite IH, (dict_has_map g).
  reflexivity.
Qed.
End Folds.

(** *** Filling a [LazyDict] with scalars *)

Lemma setitem_scalar_at st self l acc nitems key s :
  lazies st !! self = Some (LDict acc (JNode l)) ->
  nodes st !! l = Some (NDict nitems) ->
  LazyDict_setitem self key (PS s) st
  = (Ok tt,
     mkstore
       (<[l := NDict (dict_set key (JS (scalar_to_json s)) nitems)]>
          (nodes st))
       (<[self := LDict (dict_set key (VS s) acc) (JNode l)]> (lazies st))).
Proof.
  intros own canonical.
  unfold LazyDict_setitem, LazyDict_setitem_, lazy_doc, bind, get_lazy.
  rewrite own. cbn [ret].
  unfold node_update, own_dict_set, bind, get_node, get_lazy, put_node,
    put_lazy.
  rewrite canonical. cbn [nodes lazies ret]. rewrite own. reflexivity.
Qed.

Lemma fill_scalars self l (post : list (pykey * scalar)) :
  forall acc nitems st,
    lazies st !! self = Some (LDict acc (JNode l)) ->
    nodes st !! l = Some (NDict nitems) ->
    exists st',
      LazyDict_fill self (map (fun kv => (fst kv, PS (snd kv))) post) st
      = (Ok tt, st')
      /\ lazies st' !! self
         = Some (LDict
                   (fold_left (fun a kv => dict_set (fst kv) (VS (snd kv)) a)
                      post acc)
                   (JNode l))
      /\ nodes st' !! l
         = Some (NDict
                   (fold_left
                      (fun a kv =>
                         dict_set (fst kv) (JS (scalar_to_json (snd kv))) a)
                      post nitems)).
Proof.
  induction post as [|[k s] post IH]; intros acc nitems st own canonical.
  - exists st. auto.
  - cbn [map LazyDict_fill fst snd fold_left]. unfold bind.
    rewrite (setitem_scalar_at st self l acc nitems k s own canonical).
    apply IH; cbn [nodes lazies]; apply list_lookup_insert_eq;
      eapply lookup_lt_Some; eassumption.
Qed.

(** X25. Reading a [DictProperty] whose stored dict holds scalars returns a
    new [LazyDict] over that same dict; the wrapper holds the stored entries
    as [value_to_python] converts them, and the stored dict now holds the
    JSON form of each, key for key: the two are in step. *)
Theorem DictProperty_read_is_in_step env (p : Property) (l : loc)
  (js : list (pykey * scalar)) (st : store) :
  pkind p = KDict ->
  nodes st !! l = Some (NDict (scalar_entries js)) ->
  distinct_keys js = true ->
  exists st',
    to_python env p (JNode l) st = (Ok (VLazy (length (lazies st))), st')
    /\ lazies st' !! length (lazies st)
       = Some (LDict (own_entries (python_entries env js)) (JNode l))
    /\ nodes st' !! l = Some (NDict (json_entries (python_entries env js))).
Proof.
  intros K N D. unfold to_python. rewrite K. unfold bind at 1.
  rewrite (tree_of_flat_dict st l js N).
  assert (T : value_to_python env
                (PDict (map (fun kv => (fst kv, PS (snd kv))) js))
              = PDict (map (fun kv => (fst kv, PS (snd kv)))
                         (python_entries env js))).
  { cbn [value_to_python]. unfold python_entries. rewrite !map_map.
    reflexivity. }
  rewrite T, LazyDict_init_fill. unfold bind at 1. unfold new_lazy.
  set (self := length (lazies st)).
  set (st1 := mkstore (nodes st) (lazies st ++ [LDict [] (JNode l)])).
  assert (own : lazies st1 !! self = Some (LDict [] (JNode l))).
  { unfold st1, self. cbn [lazies]. apply list_lookup_middle. reflexivity. }
  destruct (fill_scalars self l (python_entries env js) [] (scalar_entries js)
              st1 own N) as (st' & F & O & C).
  exists st'. unfold bind. rewrite F. split; [reflexivity|]. split.
  - rewrite O. do 2 f_equal.
    apply (fold_set_fresh VS (python_entries env js) []).
    unfold python_entries. cbn [app].
    rewrite (distinct_keys_map (scalar_to_python env)). exact D.
  - rewrite C. do 2 f_equal.
    apply (fold_set_in_place (fun s => JS (scalar_to_json s))
             (python_entries env js) [] (scalar_entries js)).
    + unfold scalar_entries, python_entries. rewrite !map_map. reflexivity.
    + unfold python_entries. cbn [app].
      rewrite (distinct_keys_map (scalar_to_python env)). exact D.
Qed.

Lemma DictProperty_read_is_in_step_witness :
  exists st',
    to_python (sample_env noon_2020) (make KDict "d") (JNode 1) st_flat
    = (Ok (VLazy (length (lazies st_flat))), st')
    /\ lazies st' !! length (lazies st_flat)
       = Some (LDict
                 (own_entries
                    (python_entries (sample_env noon_2020)
                       [(KStr "day", SStr "2008-11-10"); (KStr "n", SInt 3)]))
                 (JNode 1))
    /\ nodes st' !! 1%nat
       = Some (NDict
                 (json_entries
                    (python_entries (sample_env noon_2020)
                       [(KStr "day", SStr "2008-11-10");
                        (KStr "n", SInt 3)]))).
Proof.
  apply (DictProperty_read_is_in_step (sample_env noon_2020)
           (make KDict "d") 1
           [(KStr "day", SStr "2008-11-10"); (KStr "n", SInt 3)] st_flat);
    reflexivity.
Defined.

(** *** Filling a [LazyList] with scalars *)

Lemma norm_index_length n m :
  norm_index (n + S m) (Z.of_nat n) = Some n.
Proof.
  unfold norm_index.
  destruct (Z.ltb_spec (Z.of_nat n) 0); [lia|].
  destruct (Z.leb_spec 0 (Z.of_nat n)); [|lia].
  destruct (Z.ltb_spec (Z.of_nat n) (Z.of_nat (n + S m))); [|lia].
  cbn [andb]. rewrite Nat2Z.id. reflexivity.
Qed.

Lemma insert_middle {A} (xs : list A) x y ys :
  <[length xs := y]> (xs ++ x :: ys) = xs ++ y :: ys.
Proof. induction xs as [|a xs IH]; simpl; [reflexivity|]. f_equal. exact IH. Qed.

Lemma list_set_middle {A} (xs : list A) x y ys :
  list_set (xs ++ x :: ys) (Z.of_nat (length xs)) y = Some (xs ++ y :: ys).
Proof.
  unfold list_set. rewrite length_app. cbn [length].
  rewrite norm_index_length, insert_middle. reflexivity.
Qed.

Lemma list_setitem_scalar_at st self l acc nitems idx s acc' nitems' :
  lazies st !! self = Some (LList acc (JNode l)) ->
  nodes st !! l = Some (NList nitems) ->
  list_set nitems idx (JS (scalar_to_json s)) = Some nitems' ->
  list_set acc idx (VS s) = Some acc' ->
  LazyList_setitem self idx (PS s) st
  = (Ok tt,
     mkstore (<[l := NList nitems']> (nodes st))
       (<[self := LList acc' (JNode l)]> (lazies st))).
Proof.
  intros own canonical Sn Sa.
  unfold LazyList_setitem, LazyList_setitem_, lazy_doc, bind, get_lazy.
  rewrite own. cbn [ret].
  unfold node_setitem, own_list_set, bind, get_node, get_lazy, put_node,
    put_lazy.
  rewrite canonical. cbv beta iota. rewrite Sn.
  cbn [nodes lazies ret]. rewrite own. cbv beta iota. rewrite Sa.
  reflexivity.
Qed.

Lemma fill_list_scalars self l (post : list scalar) :
  forall (pre : list scalar) (rest : list jval) st,
    length rest = length post ->
    lazies st !! self = Some (LList (map VS (pre ++ post)) (JNode l)) ->
    nodes st !! l
    = Some (NList (map (fun s => JS (scalar_to_json s)) pre ++ rest)) ->
    exists st',
      LazyList_fill self (Z.of_nat (length pre)) (map PS post) st
      = (Ok tt, st')
      /\ lazies st' !! self = Some (LList (map VS (pre ++ post)) (JNode l))
      /\ nodes st' !! l
         = Some (NList (map (fun s => JS (scalar_to_json s)) (pre ++ post))).
Proof.
  induction post as [|s post IH]; intros pre rest st L own canonical.
  - destruct rest; [|discriminate]. exists st.
    rewrite app_nil_r in *. auto.
  - destruct rest as [|r rest]; [discriminate|]. injection L as L.
    cbn [map LazyList_fill]. unfold bind.
    erewrite (list_setitem_scalar_at st self l _ _ _ s); try eassumption.
    2: { rewrite <- (length_map (fun s => JS (scalar_to_json s)) pre).
         apply list_set_middle. }
    2: { rewrite map_app. cbn [map].
         rewrite <- (length_map VS pre). apply list_set_middle. }
    replace (Z.of_nat (length pre) + 1) with (Z.of_nat (length (pre ++ [s])))
      by (rewrite length_app; cbn [length]; lia).
    replace (pre ++ s :: post) with ((pre ++ [s]) ++ post)
      by (rewrite <- app_assoc; reflexivity).
    apply (IH (pre ++ [s]) rest); [exact L| |].
    + cbn [lazies]. rewrite list_lookup_insert_eq
        by (eapply lookup_lt_Some; exact own).
      rewrite <- app_assoc, map_app. reflexivity.
    + cbn [nodes]. rewrite list_lookup_insert_eq
        by (eapply lookup_lt_Some; exact canonical).
      rewrite map_app, <- app_assoc. reflexivity.
Qed.

(** X26. Reading a [ListProperty] whose stored list holds scalars returns a
    new [LazyList] over that same list; the wrapper holds the stored items
    as [value_to_python] converts them, and the stored list now holds the
    JSON form of each, position for position. *)
Theorem ListProperty_read_is_in_step env (p : Property) (l : loc)
  (js : list scalar) (st : store) :
  pkind p = KList ->
  nodes st !! l = Some (NList (map JS js)) ->
  exists st',
    to_python env p (JNode l) st = (Ok (VLazy (length (lazies st))), st')
    /\ lazies st' !! length (lazies st)
       = Some (LList (map VS (map (scalar_to_python env) js)) (JNode l))
    /\ nodes st' !! l
       = Some (NList (map (fun s => JS (scalar_to_json s))
                        (map (scalar_to_python env) js))).
Proof.
  intros K N. unfold to_python. rewrite K. unfold bind at 1.
  rewrite (tree_of_flat_list st l js N).
  assert (T : value_to_python env (PList (map PS js))
              = PList (map PS (map (scalar_to_python env) js))).
  { cbn [value_to_python]. rewrite !map_map. reflexivity. }
  rewrite T, LazyList_init_fill. unfold bind at 1. unfold new_lazy.
  set (py := map (scalar_to_python env) js).
  assert (O : map of_tree (map PS py) = map VS py)
    by (rewrite map_map; reflexivity).
  rewrite O.
  set (self := length (lazies st)).
  set (st1 := mkstore (nodes st) (lazies st ++ [LList (map VS py) (JNode l)])).
  assert (own : lazies st1 !! self = Some (LList (map VS ([] ++ py)) (JNode l))).
  { unfold st1, self. cbn [lazies app]. apply list_lookup_middle.
    reflexivity. }
  destruct (fill_list_scalars self l py [] (map JS js) st1) as (st' & F & O' & C).
  - unfold py. rewrite !length_map. reflexivity.
  - exact own.
  - exact N.
  - exists st'. unfold bind. change (Z.of_nat (length (@nil scalar))) with 0 in F.
    rewrite F.
    split; [reflexivity|]. split; [exact O'|exact C].
Qed.

Lemma ListProperty_read_is_in_step_witness :
  exists st',
    to_python (sample_env noon_2020) (make KList "l") (JNode 2) st_flat
    = (Ok (VLazy (length (lazies st_flat))), st')
    /\ lazies st' !! length (lazies st_flat)
       = Some (LList
                 (map VS (map (scalar_to_python (sample_env noon_2020))
                            [SStr "08:30:15"; SNone]))
                 (JNode 2))
    /\ nodes st' !! 2%nat
       = Some (NList
                 (map (fun s => JS (scalar_to_json s))
                    (map (scalar_to_python (sample_env noon_2020))
                       [SStr "08:30:15"; SNone]))).
Proof.
  apply (ListProperty_read_is_in_step (sample_env noon_2020)
           (make KList "l") 2 [SStr "08:30:15"; SNone] st_flat);
    reflexivity.
Defined.
End Reading.

Module TreeRoundTrip.
Import PyStr Re Cal Iso Py Mem Props StrFacts IsoFacts Conversions RoundTrip
  Frame Notions Samples.

(** *** What an expression can consume at most *)

Lemma drop_drop (a b : nat) (s : string) : drop b (drop a s) = drop (a + b) s.
Proof.
  revert s. induction a as [|a IH]; intros s; [reflexivity|].
  destruct s as [|c s]; [destruct b; reflexivity|]. simpl. apply IH.
Qed.

Lemma run_bound (r : regex) : forall n s k,
  max_len r = Some n -> run r s k = true ->
  exists m, (m <= n)%nat /\ k (drop m s) = true.
Proof.
  induction r as [|p|r1 IH1 r2 IH2|r1 IH1 r2 IH2|r1 IH1|p];
    intros n s k M H; cbn [max_len run] in *.
  - injection M as <-. exists O. auto.
  - injection M as <-. destruct s as [|a s]; [discriminate|].
    apply andb_prop in H. destruct H as [_ H]. exists 1%nat. auto.
  - destruct (max_len r1) as [a|]; [|discriminate].
    destruct (max_len r2) as [b|]; [|discriminate]. injection M as <-.
    destruct (IH1 a s _ eq_refl H) as (m1 & L1 & H1).
    destruct (IH2 b _ k eq_refl H1) as (m2 & L2 & H2).
    exists (m1 + m2)%nat. rewrite <- drop_drop. split; [lia|exact H2].
  - destruct (max_len r1) as [a|]; [|discriminate].
    destruct (max_len r2) as [b|]; [|discriminate]. injection M as <-.
    apply orb_prop in H. destruct H as [H|H].
    + destruct (IH1 a s k eq_refl H) as (m & L & Hm). exists m. split; [lia|auto].
    + destruct (IH2 b s k eq_refl H) as (m & L & Hm). exists m. split; [lia|auto].
  - apply orb_prop in H. destruct H as [H|H].
    + exact (IH1 n s k M H).
    + exists O. split; [lia|exact H].
  - discriminate.
Qed.

Lemma at_end_length (s : string) : at_end s = true -> (String.length s <= 1)%nat.
Proof.
  destruct s as [|a [|b s]]; simpl; intros H; first [lia|discriminate].
Qed.

(** A text longer than the expression can consume, by more than the
    newline that [$] allows, does not match. *)
Lemma too_long (r : regex) (n : nat) (s : string) :
  max_len r = Some n -> (n + 1 < String.length s)%nat -> matches r s = false.
Proof.
  intros M L. destruct (matches r s) eqn:E; [|reflexivity].
  destruct (run_bound r n s at_end M E) as (m & Lm & H).
  apply at_end_length in H. rewrite length_drop in H. lia.
Qed.

(** *** What the patterns consume *)

Lemma consumes_matches r s : consumes r s -> matches r s = true.
Proof.
  intros H. unfold matches. rewrite <- (app_nil_r s). apply H. reflexivity.
Qed.

Lemma consumes_seq r1 r2 p1 p2 :
  consumes r1 p1 -> consumes r2 p2 -> consumes (Seq r1 r2) (p1 ++ p2).
Proof.
  intros H1 H2 rest k Hk. cbn [run]. rewrite app_assoc.
  apply H1. apply H2. exact Hk.
Qed.

Lemma consumes_opt r p : consumes r p -> consumes (Opt r) p.
Proof. intros H rest k Hk. cbn [run]. rewrite (H rest k Hk). reflexivity. Qed.

Lemma consumes_nothing r : consumes (Opt r) "".
Proof.
  intros rest k Hk. cbn [run append]. rewrite Hk. apply orb_true_r.
Qed.

Lemma consumes_chr (p : ascii -> bool) a :
  p a = true -> consumes (Chr p) (String a "").
Proof. intros H rest k Hk. cbn [run append]. rewrite H. exact Hk. Qed.

Lemma consumes_year (y : Z) :
  0 <= y <= 9999 -> consumes (rep 4 (Chr d)) (fmt4 y).
Proof.
  intros H rest k Hk. pose proof (fmt4_digits y H) as F.
  unfold fmt4, fmt2 in *. cbn [all_chars append rep run] in *.
  repeat (apply andb_prop in F; destruct F as [? F]).
  unfold d.
  repeat match goal with E : is_digit _ = true |- _ => rewrite E; clear E end.
  exact Hk.
Qed.

Ltac by_cases Hk :=
  intros rest k Hk; vm_compute; rewrite Hk;
  rewrite ?orb_true_r; reflexivity.

Lemma consumes_month (m : Z) : 1 <= m <= 12 -> consumes g_month (fmt2 m).
Proof. intros H. enum m 1 12%nat; by_cases Hk. Qed.

Lemma consumes_day (n : Z) : 1 <= n <= 31 -> consumes g_day (fmt2 n).
Proof. intros H. enum n 1 31%nat; by_cases Hk. Qed.

Lemma consumes_hour (h : Z) : 0 <= h < 24 -> consumes g_hour (fmt2 h).
Proof. intros H. enum h 0 24%nat; by_cases Hk. Qed.

Lemma consumes_sixty (n : Z) : 0 <= n < 60 -> consumes g_sixty (fmt2 n).
Proof. intros H. enum n 0 60%nat; by_cases Hk. Qed.

Lemma consumes_separator (a : ascii) :
  is_digit a = false -> consumes (Opt (Chr D)) (String a "").
Proof.
  intros H. apply consumes_opt, consumes_chr. unfold D. rewrite H.
  reflexivity.
Qed.

(** *** The texts of dates, times and datetimes are detected *)

Lemma date_text_consumed (x : date) :
  date_ok x = true ->
  consumes (cat [rep 4 (Chr d); Opt (Chr D); g_month; Opt (Chr D); g_day])
    (date_isoformat x).
Proof.
  intros H. destruct (date_ok_bounds x H) as (Hy & Hm & Hd).
  unfold date_isoformat. cbn [cat].
  apply consumes_seq; [apply consumes_year; lia|].
  apply consumes_seq; [apply consumes_separator; reflexivity|].
  apply consumes_seq; [apply consumes_month; lia|].
  apply consumes_seq; [apply consumes_separator; reflexivity|].
  apply consumes_day; lia.
Qed.

Lemma detect_date_text (x : date) :
  date_ok x = true -> detect_type (date_isoformat x) = Some TDate.
Proof.
  intros H. unfold detect_type.
  rewrite (consumes_matches re_date _ (date_text_consumed x H)).
  reflexivity.
Qed.

Lemma time_text_consumed (h m sec : Z) :
  0 <= h < 24 -> 0 <= m < 60 -> 0 <= sec < 60 ->
  consumes (cat [g_hour; Opt (Chr D); g_sixty; Opt (Chr D); Opt g_sixty;
                 Opt (Chr D); Opt (rep 3 (Chr d))])
    (fmt2 h ++ ":" ++ fmt2 m ++ ":" ++ fmt2 sec).
Proof.
  intros Hh Hm Hs. cbn [cat].
  replace (fmt2 h ++ ":" ++ fmt2 m ++ ":" ++ fmt2 sec)
    with (fmt2 h ++ ":" ++ fmt2 m ++ ":" ++ fmt2 sec ++ "" ++ "")
    by reflexivity.
  apply consumes_seq; [apply consumes_hour; lia|].
  apply consumes_seq; [apply consumes_separator; reflexivity|].
  apply consumes_seq; [apply consumes_sixty; lia|].
  apply consumes_seq; [apply consumes_separator; reflexivity|].
  apply consumes_seq; [apply consumes_opt, consumes_sixty; lia|].
  apply consumes_seq; apply consumes_nothing.
Qed.

Lemma date_pattern_needs_four_digits (a b : ascii) (s : string) :
  matches re_date (String a (String b (String ":" s))) = false.
Proof.
  unfold matches, re_date. cbn [cat rep run].
  destruct (d a); [|reflexivity]. destruct (d b); reflexivity.
Qed.

Lemma detect_time_text (x : time) :
  time_ok x = true -> microsecond x = 0 ->
  detect_type (time_isoformat x) = Some TTime.
Proof.
  intros H U. destruct (time_ok_bounds x H) as (Hh & Hm & Hs).
  rewrite time_isoformat_us0 by exact U. unfold detect_type.
  assert (E : matches re_date
                (fmt2 (hour x) ++ ":" ++ fmt2 (minute x) ++ ":"
                 ++ fmt2 (second x)) = false)
    by apply date_pattern_needs_four_digits.
  rewrite E.
  rewrite (consumes_matches re_time _
             (time_text_consumed _ _ _ Hh Hm Hs)).
  reflexivity.
Qed.

Lemma datetime_text (x : datetime) :
  microsecond (dt_time x) = 0 ->
  datetime_isoformat "T" x ++ "Z"
  = date_isoformat (dt_date x) ++ "T"
    ++ (fmt2 (hour (dt_time x)) ++ ":" ++ fmt2 (minute (dt_time x)) ++ ":"
        ++ fmt2 (second (dt_time x)))
    ++ "Z".
Proof.
  intros U. unfold datetime_isoformat.
  rewrite time_isoformat_us0 by exact U.
  rewrite app_assoc. reflexivity.
Qed.

Lemma datetime_text_consumed (x : datetime) :
  datetime_ok x = true -> microsecond (dt_time x) = 0 ->
  consumes re_datetime (datetime_isoformat "T" x ++ "Z").
Proof.
  intros H U. rewrite (datetime_text x U).
  unfold datetime_ok in H. apply andb_prop in H. destruct H as [Hd Ht].
  destruct (date_ok_bounds _ Hd) as (Hy & Hm & Hdd).
  destruct (time_ok_bounds _ Ht) as (Hh & Hmi & Hs).
  unfold re_datetime, date_isoformat. cbn [cat].
  set (t := dt_time x) in *. set (dd := dt_date x) in *.
  replace ((fmt4 (year dd) ++ "-" ++ fmt2 (month dd) ++ "-" ++ fmt2 (day dd))
           ++ "T" ++ (fmt2 (hour t) ++ ":" ++ fmt2 (minute t) ++ ":"
                      ++ fmt2 (second t)) ++ "Z")
    with (fmt4 (year dd) ++ "-" ++ fmt2 (month dd) ++ "-" ++ fmt2 (day dd)
          ++ "T" ++ fmt2 (hour t) ++ ":" ++ fmt2 (minute t) ++ ":"
          ++ fmt2 (second t) ++ "" ++ "" ++ "Z")
    by reflexivity.
  apply consumes_seq; [apply consumes_year; lia|].
  apply consumes_seq; [apply consumes_separator; reflexivity|].
  apply consumes_seq; [apply consumes_month; lia|].
  apply consumes_seq; [apply consumes_separator; reflexivity|].
  apply consumes_seq; [apply consumes_day; lia|].
  apply consumes_opt.
  apply consumes_seq; [apply consumes_separator; reflexivity|].
  apply consumes_seq; [apply consumes_hour; lia|].
  apply consumes_seq; [apply consumes_separator; reflexivity|].
  apply consumes_seq; [apply consumes_sixty; lia|].
  apply consumes_seq; [apply consumes_separator; reflexivity|].
  apply consumes_seq; [apply consumes_opt, consumes_sixty; lia|].
  apply consumes_seq; [apply consumes_nothing|].
  apply consumes_seq; [apply consumes_nothing|].
  unfold g_zone. apply consumes_opt.
  intros rest k Hk. cbn [run append]. rewrite Hk. reflexivity.
Qed.

Lemma datetime_text_length (x : datetime) :
  microsecond (dt_time x) = 0 ->
  String.length (datetime_isoformat "T" x ++ "Z") = 20%nat.
Proof. intros U. rewrite (datetime_text x U). reflexivity. Qed.

Lemma detect_datetime_text (x : datetime) :
  datetime_ok x = true -> microsecond (dt_time x) = 0 ->
  detect_type (datetime_isoformat "T" x ++ "Z") = Some TDateTime.
Proof.
  intros H U. unfold detect_type.
  rewrite (too_long re_date 10 _ eq_refl)
    by (rewrite (datetime_text_length x U); lia).
  rewrite (too_long re_time 12 _ eq_refl)
    by (rewrite (datetime_text_length x U); lia).
  rewrite (consumes_matches _ _ (datetime_text_consumed x H U)).
  reflexivity.
Qed.

(** *** The round trip *)

Lemma scalar_round_trip env (s : scalar) :
  plain s = true -> scalar_to_python env (scalar_to_json s) = s.
Proof.
  destruct s as [|b|z|f|x|x|x|x|x|x]; cbn [plain]; intros P;
    try reflexivity; try discriminate.
  - unfold scalar_to_python. cbn [scalar_to_json is_basestring].
    destruct (detect_type x); [discriminate|reflexivity].
  - unfold scalar_to_python. cbn [scalar_to_json is_basestring].
    destruct (detect_type x); [discriminate|reflexivity].
  - unfold scalar_to_python. cbn [scalar_to_json is_basestring].
    rewrite (detect_date_text x P).
    cbn [MAP_TYPES_PROPERTIES to_python_scalar is_basestring].
    rewrite (DateProperty_parse_isoformat x P). reflexivity.
  - apply andb_prop in P. destruct P as [P U]. apply Z.eqb_eq in U.
    unfold scalar_to_python. cbn [scalar_to_json is_basestring].
    rewrite (replace_microsecond0_id x U), (detect_time_text x P U).
    cbn [MAP_TYPES_PROPERTIES to_python_scalar is_basestring].
    rewrite (TimeProperty_parse_isoformat x P U). reflexivity.
  - apply andb_prop in P. destruct P as [P U]. apply Z.eqb_eq in U.
    unfold scalar_to_python. cbn [scalar_to_json is_basestring].
    rewrite (replace_microsecond0_id _ U).
    replace (mkdatetime (dt_date x) (dt_time x)) with x
      by (destruct x; reflexivity).
    rewrite (detect_datetime_text x P U).
    cbn [MAP_TYPES_PROPERTIES to_python_scalar is_basestring].
    rewrite (DateTimeProperty_parse_isoformat x P U). reflexivity.
Qed.

(** X27. [value_to_python] undoes [value_to_json]: a tree whose scalars are
    plain, at any depth, comes back from JSON as it was. A date, a time or a
    datetime comes back through the pattern that its text matches first. *)
Theorem value_to_python_undoes_value_to_json env (v : pyval) :
  all_leaves plain v = true ->
  value_to_python env (value_to_json v) = v.
Proof.
  induction v as [s|l IH|dct IH] using pyval_nested_ind;
    cbn [all_leaves value_to_json value_to_python]; intros H.
  - f_equal. apply scalar_round_trip. exact H.
  - f_equal. induction IH as [|x l Hx _ IHl]; cbn [map forallb] in *;
      [reflexivity|].
    apply andb_prop in H. destruct H as [H1 H2].
    rewrite (Hx H1), (IHl H2). reflexivity.
  - f_equal. induction IH as [|[k x] dct Hx _ IHd];
      cbn [map forallb fst snd] in *; [reflexivity|].
    apply andb_prop in H. destruct H as [H1 H2].
    rewrite (Hx H1), (IHd H2). reflexivity.
Qed.

Lemma value_to_python_undoes_value_to_json_witness :
  value_to_python (sample_env noon_2020)
    (value_to_json
       (PDict [(KStr "at", PList [PS created_2008; PS (SInt 3)]);
               (KStr "on", PS (SDate (mkdate 2008 11 10)));
               (KStr "who", PS (SUni "Ada"))]))
  = PDict [(KStr "at", PList [PS created_2008; PS (SInt 3)]);
           (KStr "on", PS (SDate (mkdate 2008 11 10)));
           (KStr "who", PS (SUni "Ada"))].
Proof. apply value_to_python_undoes_value_to_json. reflexivity. Defined.
End TreeRoundTrip.

Module Nesting.
Import PyStr Py Mem Props Notions Samples Wrappers Reading.
Local Open Scope list_scope.
Local Open Scope py_scope.

Lemma bind_step {A B} (m : M A) (f : A -> M B) st a st1 :
  m st = (Ok a, st1) -> bind m f st = f a st1.
Proof. intros E. unfold bind. rewrite E. reflexivity. Qed.

(** Filling one wrapper leaves every other wrapper and every node but its
    canonical one as they were. *)
Lemma fill_scalars_frame self l (post : list (pykey * scalar)) :
  forall acc nitems st,
    lazies st !! self = Some (LDict acc (JNode l)) ->
    nodes st !! l = Some (NDict nitems) ->
    exists st',
      LazyDict_fill self (map (fun kv => (fst kv, PS (snd kv))) post) st
      = (Ok tt, st')
      /\ lazies st' !! self
         = Some (LDict
                   (fold_left (fun a kv => dict_set (fst kv) (VS (snd kv)) a)
                      post acc)
                   (JNode l))
      /\ nodes st' !! l
         = Some (NDict
                   (fold_left
                      (fun a kv =>
                         dict_set (fst kv) (JS (scalar_to_json (snd kv))) a)
                      post nitems))
      /\ (forall c, c <> self -> lazies st' !! c = lazies st !! c)
      /\ (forall n, n <> l -> nodes st' !! n = nodes st !! n).
Proof.
  induction post as [|[k s] post IH]; intros acc nitems st own canonical.
  - exists st. auto.
  - cbn [map LazyDict_fill fst snd fold_left]. unfold bind.
    rewrite (setitem_scalar_at st self l acc nitems k s own canonical).
    edestruct IH as (st' & F & O & C & FL & FN);
      [| |exists st'; split; [exact F|split; [exact O|split; [exact C|]]]].
    + cbn [lazies]. apply list_lookup_insert_eq.
      eapply lookup_lt_Some; eassumption.
    + cbn [nodes]. apply list_lookup_insert_eq.
      eapply lookup_lt_Some; eassumption.
    + split.
      * intros c Hc. rewrite (FL c Hc). cbn [lazies].
        apply list_lookup_insert_ne. congruence.
      * intros n Hn. rewrite (FN n Hn). cbn [nodes].
        apply list_lookup_insert_ne. congruence.
Qed.

(** X28. Assigning a dict of scalars into a [LazyDict] allocates a new empty
    dict, stores it under the key of the canonical dict, builds a child
    [LazyDict] over it from the value, and stores the child under the key of
    the wrapper: afterwards the new canonical dict holds the JSON forms of
    the entries of the child, which is in step with it. *)
Theorem LazyDict_setitem_dict_wraps (st : store) (self l : loc)
  acc nitems (key : pykey) (items : list (pykey * scalar)) :
  lazies st !! self = Some (LDict acc (JNode l)) ->
  nodes st !! l = Some (NDict nitems) ->
  distinct_keys items = true ->
  exists st',
    LazyDict_setitem self key
      (PDict (map (fun kv => (fst kv, PS (snd kv))) items)) st
    = (Ok tt, st')
    /\ nodes st' !! l
       = Some (NDict (dict_set key (JNode (length (nodes st))) nitems))
    /\ nodes st' !! length (nodes st) = Some (NDict (json_entries items))
    /\ lazies st' !! self
       = Some (LDict (dict_set key (VLazy (length (lazies st))) acc)
                 (JNode l))
    /\ lazies st' !! length (lazies st)
       = Some (LDict (own_entries items) (JNode (length (nodes st)))).
Proof.
  intros own canonical D.
  pose proof (lookup_lt_Some _ _ _ own) as Ls.
  pose proof (lookup_lt_Some _ _ _ canonical) as Ll.
  set (l' := length (nodes st)). set (c := length (lazies st)).
  set (value := PDict (map (fun kv => (fst kv, PS (snd kv))) items)).
  (* doc = self.doc *)
  assert (E1 : lazy_doc self st = (Ok (JNode l), st)).
  { unfold lazy_doc, bind, get_lazy. rewrite own. reflexivity. }
  (* self.doc[key] = {} *)
  set (st1 := mkstore (nodes st ++ [NDict []]) (lazies st)).
  assert (E2 : new_node (NDict []) st = (Ok (JNode l'), st1)) by reflexivity.
  assert (N1 : nodes st1 !! l = Some (NDict nitems)).
  { unfold st1. cbn [nodes]. rewrite lookup_app_l by exact Ll.
    exact canonical. }
  set (st2 := mkstore (<[l := NDict (dict_set key (JNode l') nitems)]>
                         (nodes st1)) (lazies st1)).
  assert (E3 : node_setitem (JNode l) key (JNode l') st1 = (Ok tt, st2)).
  { unfold node_setitem, bind, get_node. rewrite N1. reflexivity. }
  assert (N2 : nodes st2 !! l
               = Some (NDict (dict_set key (JNode l') nitems))).
  { unfold st2. cbn [nodes]. apply list_lookup_insert_eq.
    eapply lookup_lt_Some. exact N1. }
  assert (E4 : node_getitem (JNode l) key st2 = (Ok (JNode l'), st2)).
  { unfold node_getitem, bind, get_node. rewrite N2. cbv beta iota.
    rewrite Validation.dict_get_set_same. reflexivity. }
  (* value = LazyDict(value, self.doc[key]) *)
  set (st3 := mkstore (nodes st2) (lazies st2 ++ [LDict [] (JNode l')])).
  assert (O3 : lazies st3 !! c = Some (LDict [] (JNode l'))).
  { unfold st3. cbn [lazies]. apply list_lookup_middle. reflexivity. }
  assert (N3 : nodes st3 !! l' = Some (NDict [])).
  { unfold st3, st2, st1. cbn [nodes].
    rewrite list_lookup_insert_ne by (unfold l'; lia).
    apply list_lookup_middle. reflexivity. }
  destruct (fill_scalars_frame c l' items [] [] st3 O3 N3)
    as (st4 & F & O4 & N4 & FL & FN).
  assert (E5 : LazyDict_init value (JNode l') st2 = (Ok (VLazy c), st4)).
  { unfold value. rewrite LazyDict_init_fill.
    rewrite (bind_step _ _ st2 c st3) by reflexivity.
    rewrite (bind_step _ _ st3 tt st4) by exact F. reflexivity. }
  (* super(LazyDict, self).__setitem__(key, value) *)
  assert (S4 : lazies st4 !! self = Some (LDict acc (JNode l))).
  { rewrite FL by (unfold c; lia). unfold st3. cbn [lazies].
    rewrite lookup_app_l by exact Ls. exact own. }
  set (st5 := mkstore (nodes st4)
                (<[self := LDict (dict_set key (VLazy c) acc) (JNode l)]>
                   (lazies st4))).
  assert (E6 : own_dict_set self key (VLazy c) st4 = (Ok tt, st5)).
  { unfold own_dict_set, bind, get_lazy. rewrite S4. reflexivity. }
  exists st5. split.
  - unfold LazyDict_setitem, LazyDict_setitem_. fold value.
    rewrite (bind_step _ _ st (JNode l) st) by exact E1.
    rewrite (bind_step _ _ st (VLazy c) st4); [exact E6|].
    unfold value at 1. cbv beta iota. fold value.
    rewrite (bind_step _ _ st (JNode l') st1) by exact E2.
    rewrite (bind_step _ _ st1 tt st2) by exact E3.
    rewrite (bind_step _ _ st2 (JNode l') st2) by exact E4.
    exact E5.
  - unfold st5. cbn [nodes lazies]. split; [|split; [|split]].
    + rewrite FN by (unfold l'; lia). unfold st3. cbn [nodes]. exact N2.
    + rewrite N4. do 2 f_equal.
      apply (fold_set_fresh (fun s => JS (scalar_to_json s)) items []).
      exact D.
    + apply list_lookup_insert_eq. eapply lookup_lt_Some. exact S4.
    + rewrite list_lookup_insert_ne by (unfold c; lia).
      rewrite O4. do 2 f_equal. apply (fold_set_fresh VS items []).
      exact D.
Qed.

Lemma LazyDict_setitem_dict_wraps_witness :
  exists st',
    LazyDict_setitem 0 (KStr "b")
      (PDict (map (fun kv => (fst kv, PS (snd kv)))
                [(KStr "on", created_2008); (KStr "n", SInt 3)]))
      st_wrapped
    = (Ok tt, st')
    /\ nodes st' !! 0%nat
       = Some (NDict (dict_set (KStr "b") (JNode (length (nodes st_wrapped)))
                        [(KStr "n", JS (SInt 3))]))
    /\ nodes st' !! length (nodes st_wrapped)
       = Some (NDict (json_entries
                        [(KStr "on", created_2008); (KStr "n", SInt 3)]))
    /\ lazies st' !! 0%nat
       = Some (LDict (dict_set (KStr "b") (VLazy (length (lazies st_wrapped)))
                        [(KStr "n", VS (SInt 3))])
                 (JNode 0))
    /\ lazies st' !! length (lazies st_wrapped)
       = Some (LDict (own_entries
                        [(KStr "on", created_2008); (KStr "n", SInt 3)])
                 (JNode (length (nodes st_wrapped)))).
Proof.
  apply (LazyDict_setitem_dict_wraps st_wrapped 0 0
           [(KStr "n", VS (SInt 3))] [(KStr "n", JS (SInt 3))] (KStr "b")
           [(KStr "on", created_2008); (KStr "n", SInt 3)]);
    reflexivity.
Defined.
End Nesting.

Module Required.
Import PyStr Py Mem Props Doc Notions Samples Validation Schema.
Local Open Scope list_scope.
Local Open Scope py_scope.

#[local] Hint Resolve pure_ret pure_raise pure_lift pure_get_store
  pure_get_node pure_get_lazy pure_tree_of pure_tree_of_j
  pure_value_truth pure_is_dict pure_is_list pure_empty pure_run_validators
  pure_Property_validate : pure.

Ltac pure_tac := repeat Validation.pure_step.

Lemma pure_validate p v r : pure (Props.validate p v r).
Proof. unfold Props.validate. pure_tac. Qed.

Lemma pure_node_get doc k : pure (node_get doc k).
Proof. unfold node_get. pure_tac. Qed.

Lemma pure_to_python env p j :
  scalar_kind (pkind p) = true -> pure (to_python env p j).
Proof.
  intros K. unfold to_python.
  destruct (pkind p); try discriminate K; pure_tac.
Qed.

Lemma pure_get env p doc :
  scalar_kind (pkind p) = true -> pure (get env p doc).
Proof.
  intros K. unfold get.
  apply pure_bind; [apply pure_node_get|]. intros j.
  destruct j as [[]|]; try apply pure_ret; apply pure_to_python; exact K.
Qed.

Lemma lookup_In {A} key (l : list (string * A)) a :
  lookup key l = Some a -> In (key, a) l.
Proof.
  induction l as [|[k x] l IH]; simpl; [discriminate|].
  destruct (String.eqb key k) eqn:E.
  - apply String.eqb_eq in E. intros [= ->]. subst. auto.
  - auto.
Qed.

Lemma dict_get_In {V} k (d : list (pykey * V)) v :
  dict_get k d = Some v -> exists k', key_eqb k k' = true /\ In k' (map fst d).
Proof.
  induction d as [|[k0 v0] d IH]; simpl; [discriminate|].
  destruct (key_eqb k k0) eqn:E.
  - intros _. exists k0. auto.
  - intros H. destruct (IH H) as (k' & E' & I). exists k'. auto.
Qed.

Lemma key_eqb_str a k' : key_eqb (KStr a) k' = true -> k' = KStr a.
Proof.
  destruct k'; simpl; [|discriminate]. intros E.
  apply String.eqb_eq in E. congruence.
Qed.

Section Loop.
Variables (env : interp) (sch : schema) (self : instance) (l : loc).
Variable items : list (pykey * jval).
Variable st : store.
Hypothesis Hdoc : _doc self = JNode l.
Hypothesis Hnode : nodes st !! l = Some (NDict items).
Hypothesis Hscalar :
  forall a p, In (a, p) (_properties sch) -> scalar_kind (pkind p) = true.

Lemma pure_validate_each keys : pure (validate_each env sch self true keys).
Proof.
  induction keys as [|[a|i] keys IH]; cbn [validate_each];
    [apply pure_ret| |exact IH].
  destruct (lookup a (_properties sch)) as [p|] eqn:E; [|exact IH].
  apply pure_bind.
  - unfold getattr_declared. apply pure_get.
    eapply Hscalar. eapply lookup_In. exact E.
  - intros v. apply pure_bind; [apply pure_validate|]. intros _. exact IH.
Qed.

Lemma validate_each_raises a p keys :
  lookup a (_properties sch) = Some p -> name p = a ->
  required p = true ->
  dict_get (KStr a) items = Some (JS SNone) ->
  In (KStr a) keys ->
  exists e, validate_each env sch self true keys st = (Raise e, st).
Proof.
  intros L N R G. induction keys as [|k keys IH]; intros I; [destruct I|].
  assert (P : pure (validate_each env sch self true (k :: keys)))
    by apply pure_validate_each.
  specialize (P st).
  destruct (validate_each env sch self true (k :: keys) st)
    as [[[]|e] st'] eqn:E; cbn [snd] in P; subst st'; [|eauto].
  exfalso. cbn [validate_each] in E.
  destruct k as [b|i].
  - destruct (String.eqb b a) eqn:Eb.
    + apply String.eqb_eq in Eb. subst b. rewrite L in E.
      unfold bind in E. unfold getattr_declared, get in E.
      rewrite Hdoc in E. unfold bind in E.
      rewrite (Descriptors.node_get_dict l items _ st Hnode) in E.
      rewrite N, G in E. cbn [option.default from_option id ret] in E.
      assert (V : Props.validate p (VS SNone) true st
                  = (Raise (BadValueError Required), st)).
      { unfold Props.validate, Property_validate, empty.
        destruct (pkind p); cbn; rewrite R; reflexivity. }
      rewrite V in E. discriminate.
    + assert (I' : In (KStr a) keys).
      { destruct I as [I|I]; [|exact I]. injection I as ->.
        rewrite String.eqb_refl in Eb. discriminate. }
      destruct (IH I') as (e & Ee).
      destruct (lookup b (_properties sch)) as [q|] eqn:Lq.
      * unfold bind in E.
        destruct (getattr_declared env q self st) as [[v|e1] s1] eqn:G1;
          [|discriminate].
        assert (s1 = st).
        { assert (Pg : pure (getattr_declared env q self)).
          { unfold getattr_declared. apply pure_get.
            eapply Hscalar. eapply lookup_In. exact Lq. }
          specialize (Pg st). rewrite G1 in Pg. exact Pg. }
        subst s1.
        destruct (Props.validate q v true st) as [[v2|e2] s2] eqn:G2;
          [|discriminate].
        pose proof (pure_validate q v true st) as Pv. rewrite G2 in Pv.
        cbn [snd] in Pv. subst s2. rewrite Ee in E. discriminate.
      * rewrite Ee in E. discriminate.
  - assert (I' : In (KStr a) keys)
      by (destruct I as [I|I]; [discriminate|exact I]).
    destruct (IH I') as (e & Ee). rewrite Ee in E. discriminate.
Qed.
End Loop.


End Required.
